(** * Checkout backend: order materialization, unit prices, metadata parsing

    A shallow embedding of the checkout routes ([routes/checkout.ts]), the
    store wrapper ([services/supabase.ts]) and the price computation of
    [services/stripe.ts], with the properties of the order-materialization
    protocol stated over it.

    Conventions of the embedding
    - every [await] of the source is one atomic operation ([Op]) of a small
      free monad [Prog]; code between two awaits runs without interruption,
      as on the Node.js event loop.  The same handler definition is run to
      completion ([run]) or interleaved with others ([run_schedule]);
    - [throw] and [try]/[catch] are the [Throw] constructor and [try_catch];
    - the managed database, the payment processor and the mail provider are
      outside the repository: they form the [World] and the [Env] that the
      operations act on.  Whether the [orders] table enforces the uniqueness
      of the session id is a parameter of the environment.  Reads of the
      store are reliable: a lookup comes back empty only when [.single()]
      finds no row, or several. *)

From Stdlib Require Import ZArith List String Ascii Bool Lia QArith Qround.
Import ListNotations.

Local Open Scope Z_scope.

(* ================================================================= *)
(** ** JavaScript values used by the routes *)

Module JS.

(** [a || b] on strings where [a] may be [undefined]: the empty string and
    [undefined] are falsy. *)
Definition truthy_str (s : string) : bool :=
  match s with EmptyString => false | String _ _ => true end.

Definition or_str (a : option string) (b : string) : string :=
  match a with
  | Some s => if truthy_str s then s else b
  | None => b
  end.

(** [a || b] where both sides may be [undefined] / [null]. *)
Definition or_opt (a b : option string) : option string :=
  match a with
  | Some s => if truthy_str s then Some s else b
  | None => b
  end.

(** [a || null] *)
Definition or_null (a : option string) : option string :=
  match a with
  | Some s => if truthy_str s then Some s else None
  | None => None
  end.

(** [if (a)] on a string that may be [undefined] / [null]. *)
Definition truthy_opt (a : option string) : bool :=
  match a with
  | Some s => truthy_str s
  | None => false
  end.

(** White space skipped by [parseInt] (the ASCII part of StrWhiteSpaceChar:
    TAB, LF, VT, FF, CR, SP). *)
Definition is_ws (c : ascii) : bool :=
  let n := nat_of_ascii c in
  ((n =? 9) || (n =? 10) || (n =? 11) || (n =? 12) || (n =? 13) || (n =? 32))%nat.

Fixpoint trim_start (s : string) : string :=
  match s with
  | EmptyString => EmptyString
  | String c s' => if is_ws c then trim_start s' else s
  end.

(** Value of a character as a digit in the given radix (10 or 16). *)
Definition digit_val (radix : Z) (c : ascii) : option Z :=
  let n := Z.of_nat (nat_of_ascii c) in
  let v :=
    if (48 <=? n) && (n <=? 57) then Some (n - 48)
    else if (97 <=? n) && (n <=? 122) then Some (n - 87)
    else if (65 <=? n) && (n <=? 90) then Some (n - 55)
    else None in
  match v with
  | Some d => if d <? radix then Some d else None
  | None => None
  end.

(** Longest prefix of digits, accumulated left to right; [acc] is [None]
    until a first digit has been read. *)
Fixpoint parse_digits (radix : Z) (s : string) (acc : option Z) : option Z :=
  match s with
  | EmptyString => acc
  | String c s' =>
      match digit_val radix c with
      | Some d =>
          parse_digits radix s'
            (Some (radix * (match acc with Some a => a | None => 0 end) + d))
      | None => acc
      end
  end.

Definition strip_sign (s : string) : Z * string :=
  match s with
  | String "-"%char s' => (-1, s')
  | String "+"%char s' => (1, s')
  | _ => (1, s)
  end.

Definition strip_hex_prefix (s : string) : Z * string :=
  match s with
  | String "0"%char (String "x"%char s') => (16, s')
  | String "0"%char (String "X"%char s') => (16, s')
  | _ => (10, s)
  end.

(** [parseInt(s)] with no radix argument.  [None] is [NaN]; the result is an
    exact integer (the routes store it in INTEGER columns).  The built-in
    returns the double nearest to that integer, which is the integer itself
    as long as its magnitude is at most 2^53; beyond that the two differ. *)
Definition parseInt (s : string) : option Z :=
  let (sign, s1) := strip_sign (trim_start s) in
  let (radix, s2) := strip_hex_prefix s1 in
  match parse_digits radix s2 None with
  | Some n => Some (sign * n)
  | None => None
  end.

End JS.

(* ================================================================= *)
(** ** services/stripe.ts: unit price of a cart item *)

Module Pricing.

(** The operations [calculateUnitPrice] performs on JavaScript numbers.
    The function is written once over this interface;  exact rationals are
    the instance used to evaluate it. *)
Class JSNumber (num : Type) : Type := {
  lit : Z -> num;                    (* integer literals: 0, 1, 100 *)
  mul : num -> num -> num;
  sub : num -> num -> num;
  div : num -> num -> num;
  gt : num -> num -> bool;           (* a > b *)
  truthy : num -> bool;              (* ToBoolean: false on 0 and NaN *)
  Math_round : num -> num;
  zero_falsy : truthy (lit 0) = false;
  gt_zero_truthy : forall x, gt x (lit 0) = true -> truthy x = true
}.

Section CalculateUnitPrice.
Context {num : Type} `{JSNumber num}.

(** [CartItem] of types/checkout.ts, restricted to the fields read here. *)
Record Product : Type := {
  price : num;
  discount_percentage : option num       (* discount_percentage?: number *)
}.

Record ActiveEvent : Type := {
  event_discount_percentage : option num (* discount_percentage?: number *)
}.

Record CartItem : Type := {
  product : Product;
  quantity : Z;
  activeEvent : option ActiveEvent       (* activeEvent?: {...} *)
}.

(** [d && d > 0] on an optional number, as a condition. *)
Definition and_gt_zero (d : option num) : bool :=
  match d with
  | Some x => truthy x && gt x (lit 0)
  | None => false
  end.

(** [item.activeEvent?.discount_percentage] *)
Definition activeEvent_discount (item : CartItem) : option num :=
  match activeEvent item with
  | Some ev => event_discount_percentage ev
  | None => None
  end.

Definition calculateUnitPrice (item : CartItem) : num :=
  let basePrice := price (product item) in
  let productDiscount := and_gt_zero (discount_percentage (product item)) in
  let eventDiscount := and_gt_zero (activeEvent_discount item) in
  let discountPercentage :=
    if productDiscount then discount_percentage (product item)
    else if eventDiscount then activeEvent_discount item
    else Some (lit 0) in
  match discountPercentage with
  | Some d =>
      if truthy d && gt d (lit 0)
      then Math_round (mul basePrice (sub (lit 1) (div d (lit 100))))
      else basePrice
  | None => basePrice
  end.

(** The condition "discount > 0" of the specification: an absent
    percentage is not positive. *)
Definition positive (d : option num) : bool :=
  match d with
  | Some x => gt x (lit 0)
  | None => false
  end.

(** The discounted price [round (base * (1 - d/100))]. *)
Definition discounted (base : num) (d : option num) : num :=
  match d with
  | Some x => Math_round (mul base (sub (lit 1) (div x (lit 100))))
  | None => base
  end.

(** The unit price as the specification words it: every branch rounded. *)
Definition spec_unit_price (item : CartItem) : num :=
  let basePrice := price (product item) in
  if positive (discount_percentage (product item))
  then discounted basePrice (discount_percentage (product item))
  else if positive (activeEvent_discount item)
  then discounted basePrice (activeEvent_discount item)
  else Math_round basePrice.

End CalculateUnitPrice.

Arguments Product num : clear implicits.
Arguments ActiveEvent num : clear implicits.
Arguments CartItem num : clear implicits.

(** Exact rationals as numbers; [Math.round] rounds half up. *)
Definition Q_round (q : Q) : Q := inject_Z (Qfloor (q + (1 # 2))).

Definition Q_gt (a b : Q) : bool := negb (Qle_bool a b).

Definition Q_truthy (a : Q) : bool := negb (Qeq_bool a 0).

#[global] Instance Q_JSNumber : JSNumber Q.
Proof.
  refine {| lit := inject_Z;
            mul := Qmult;
            sub := Qminus;
            div := Qdiv;
            gt := Q_gt;
            truthy := Q_truthy;
            Math_round := Q_round;
            zero_falsy := eq_refl;
            gt_zero_truthy := _ |}.
  intros x Hx. unfold Q_gt, Q_truthy in *.
  apply negb_true_iff in Hx. apply negb_true_iff.
  destruct (Qeq_bool x 0) eqn:E; [|reflexivity].
  apply Qeq_bool_iff in E.
  assert (Hle : Qle_bool x (inject_Z 0) = true).
  { apply Qle_bool_iff. rewrite E. apply Qle_refl. }
  congruence.
Defined.

End Pricing.

(* ================================================================= *)
(** ** types/checkout.ts and the rows of the store *)

Module Types.

Record ShippingInfo : Type := {
  fullName : string;
  email : string;
  phone : string;
  address : string;
  city : string;
  postalCode : string;
  country : string
}.

(** [OrderData]: what the routes hand to [createOrder].  Amounts are the
    results of [parseInt] ([None] is [NaN]). *)
Record OrderData : Type := {
  total_amount : option Z;
  currency : string;
  shipping : ShippingInfo;
  status : string;
  discount_code : option string;
  discount_amount : option Z;
  stripe_session_id : option string;
  payment_method : string
}.

(** Identifiers are assigned by the store; they are UUID strings in the
    source and natural numbers here. *)
Record OrderItemData : Type := {
  order_id : nat;
  product_id : string;
  quantity : Z;
  unit_price : Z
}.

(** A row of the [orders] table. *)
Record OrderRow : Type := {
  id : nat;
  data : OrderData
}.

(** An order object as the store client returns it: the row, and the
    [order_items] relation when the query selected it
    ([getOrderBySessionId], [getOrderById]); an insert or update returns the
    bare row, on which [order.order_items] is [undefined]. *)
Record Order : Type := {
  row : OrderRow;
  order_items : option (list OrderItemData)
}.

(** Flat string metadata carried on the payment session.  [items] holds
    JSON text in the source; the model keeps what [JSON.parse] followed by
    [.map] makes of it. *)
Record ItemJson : Type := {
  j_product_id : string;
  j_quantity : Z;
  j_unit_price : Z
}.

Inductive ItemsJson : Type :=
| JsonArray (l : list ItemJson)
| JsonBad.                      (* SyntaxError, or a value without [.map] *)

Record Metadata : Type := {
  shipping_name : option string;
  shipping_email : option string;
  shipping_phone : option string;
  shipping_address : option string;
  shipping_city : option string;
  shipping_postal_code : option string;
  shipping_country : option string;
  m_discount_code : option string;
  m_discount_amount : option string;
  m_total : option string;
  m_currency : option string;
  m_items : option ItemsJson      (* [None]: key absent or empty string *)
}.

(** [Stripe.Checkout.Session], the fields the routes read. *)
Record Session : Type := {
  session_id : string;
  payment_status : string;
  metadata : option Metadata;
  customer_email : option string
}.

(** [Stripe.Event] *)
Record StripeEvent : Type := {
  event_type : string;
  event_object : Session
}.

Inductive Body : Type :=
| Received                                    (* { received: true } *)
| ErrorBody (error : string)                  (* { error } *)
| PaymentNotCompleted (payment_status : string)
| OrderBody (order : Order) (message : string). (* { success: true, order, message } *)

Record Response : Type := {
  code : nat;
  body : Body
}.

End Types.

Import Types.

(* ================================================================= *)
(** ** Awaited operations and handler programs *)

Module Effects.

(** The [{ data, error }] pair of the store and mail clients, and the
    result of a call that may reject. *)
Inductive outcome (A : Type) : Type :=
| Data (a : A)
| Error (message : string).

Arguments Data {A} a.
Arguments Error {A} message.

(** One constructor per awaited call on an external collaborator. *)
Inductive Op : Type -> Type :=
| DbInsertOrder (d : OrderData) : Op (outcome Order)
| DbInsertItems (l : list OrderItemData) : Op (outcome unit)
| DbUpdateOrder (oid : nat) (st : string) (sid : option string) : Op (outcome Order)
| DbSelectBySession (sid : string) : Op (outcome Order)
| DbSelectById (oid : nat) : Op (outcome Order)
| StripeRetrieve (sid : string) : Op (outcome Session)
| ResendSend (o : Order) (sid : string) : Op (outcome unit).

Inductive Prog (R : Type) : Type :=
| Ret (r : R)
| Throw (message : string)
| Await {X : Type} (op : Op X) (k : X -> Prog R).

Arguments Ret {R} r.
Arguments Throw {R} message.
Arguments Await {R X} op k.

Fixpoint bind {A B : Type} (p : Prog A) (f : A -> Prog B) : Prog B :=
  match p with
  | Ret a => f a
  | Throw m => Throw m
  | Await op k => Await op (fun x => bind (k x) f)
  end.

(** [try { p } catch (e) { h e.message }] *)
Fixpoint try_catch {A : Type} (p : Prog A) (h : string -> Prog A) : Prog A :=
  match p with
  | Ret a => Ret a
  | Throw m => h m
  | Await op k => Await op (fun x => try_catch (k x) h)
  end.

Definition await {X : Type} (op : Op X) : Prog X := Await op Ret.

End Effects.

Import Effects.

Declare Scope prog_scope.
Delimit Scope prog_scope with prog.
Notation "x <- p ;; q" := (bind p (fun x => q))
  (at level 61, p at next level, right associativity) : prog_scope.
Notation "p ;;; q" := (bind p (fun _ => q))
  (at level 61, right associativity) : prog_scope.

(* ================================================================= *)
(** ** The external collaborators: store, payment processor, mail provider *)

Module External.

(** What was observed to happen, oldest first. *)
Inductive Effect : Type :=
| OrderInserted (r : OrderRow)
| OrderInsertRejected (d : OrderData)
| ItemsInserted (l : list OrderItemData)
| ItemsInsertFailed (l : list OrderItemData)
| OrderUpdated (oid : nat) (st : string)
| SessionRetrieved (sid : string)
| EmailSent (o : Order) (sid : string)
| EmailFailed (o : Order) (sid : string).

Record World : Type := {
  orders : list OrderRow;          (* table [orders] *)
  items : list OrderItemData;      (* table [order_items] *)
  next_id : nat;                   (* next identifier the store assigns *)
  trace : list Effect
}.

(** The parts of the environment that do not change during a run.
    [unique_session] tells whether the [orders] table carries a uniqueness
    constraint on [stripe_session_id]; the three other fields decide what
    the payment processor answers and which item inserts and mail
    dispatches fail. *)
Record Env : Type := {
  unique_session : bool;
  gateway : string -> option Session;
  items_insert_ok : list OrderItemData -> bool;
  email_ok : Order -> bool
}.

Definition has_session (sid : string) (r : OrderRow) : bool :=
  match stripe_session_id (data r) with
  | Some s => String.eqb s sid
  | None => false
  end.

Definition has_id (oid : nat) (r : OrderRow) : bool := Nat.eqb (id r) oid.

Definition items_of (oid : nat) (w : World) : list OrderItemData :=
  filter (fun it => Nat.eqb (order_id it) oid) (items w).

(** The select of [getOrderBySessionId] and [getOrderById] joins
    [order_items]. *)
Definition with_items (w : World) (r : OrderRow) : Order :=
  {| row := r; order_items := Some (items_of (id r) w) |}.

Definition bare (r : OrderRow) : Order :=
  {| row := r; order_items := None |}.

(** [.single()]: exactly one row, or an error. *)
Definition single {A : Type} (l : list A) : outcome A :=
  match l with
  | [x] => Data x
  | _ => Error "JSON object requested, multiple (or no) rows returned"
  end.

Definition map_outcome {A B : Type} (f : A -> B) (o : outcome A) : outcome B :=
  match o with
  | Data a => Data (f a)
  | Error m => Error m
  end.

Definition log (e : Effect) (w : World) : World :=
  {| orders := orders w; items := items w; next_id := next_id w;
     trace := trace w ++ [e] |}.

(** A non-null session id already held by some row (other than the row
    [skip], when one is given); null session ids never collide. *)
Definition session_taken (skip : option nat) (sid : option string)
    (l : list OrderRow) : bool :=
  match sid with
  | Some s =>
      existsb (fun r => has_session s r &&
                        match skip with
                        | Some oid => negb (has_id oid r)
                        | None => true
                        end) l
  | None => false
  end.

Definition duplicate_key : string :=
  "duplicate key value violates unique constraint".

Definition set_status (st : string) (sid : option string) (r : OrderRow) : OrderRow :=
  let d := data r in
  {| id := id r;
     data := {| total_amount := total_amount d;
                currency := currency d;
                shipping := shipping d;
                status := st;
                discount_code := discount_code d;
                discount_amount := discount_amount d;
                stripe_session_id :=
                  match sid with
                  | Some s => Some s
                  | None => stripe_session_id d
                  end;
                payment_method := payment_method d |} |}.

Definition exec_op (env : Env) {X : Type} (op : Op X) (w : World) : X * World :=
  match op in Op X return X * World with
  | DbInsertOrder d =>
      if unique_session env && session_taken None (stripe_session_id d) (orders w)
      then (Error duplicate_key, log (OrderInsertRejected d) w)
      else
        let r := {| id := next_id w; data := d |} in
        (Data (bare r),
         {| orders := orders w ++ [r]; items := items w;
            next_id := S (next_id w);
            trace := trace w ++ [OrderInserted r] |})
  | DbInsertItems l =>
      if items_insert_ok env l
      then (Data tt,
            {| orders := orders w; items := items w ++ l;
               next_id := next_id w;
               trace := trace w ++ [ItemsInserted l] |})
      else (Error "insert into order_items failed", log (ItemsInsertFailed l) w)
  | DbUpdateOrder oid st sid =>
      match filter (has_id oid) (orders w) with
      | [r] =>
          if unique_session env && session_taken (Some oid) sid (orders w)
          then (Error duplicate_key, w)
          else
            (Data (bare (set_status st sid r)),
             {| orders := map (fun x => if has_id oid x then set_status st sid x else x)
                              (orders w);
                items := items w; next_id := next_id w;
                trace := trace w ++ [OrderUpdated oid st] |})
      | _ => (Error "JSON object requested, multiple (or no) rows returned", w)
      end
  | DbSelectBySession sid =>
      (map_outcome (with_items w) (single (filter (has_session sid) (orders w))), w)
  | DbSelectById oid =>
      (map_outcome (with_items w) (single (filter (has_id oid) (orders w))), w)
  | StripeRetrieve sid =>
      match gateway env sid with
      | Some s => (Data s, log (SessionRetrieved sid) w)
      | None => (Error "No such checkout.session", w)
      end
  | ResendSend o sid =>
      if email_ok env o
      then (Data tt, log (EmailSent o sid) w)
      else (Error "mail provider rejected the message", log (EmailFailed o sid) w)
  end.

(** A handler run to completion: its value or the uncaught exception. *)
Fixpoint run (env : Env) {R : Type} (p : Prog R) (w : World) : outcome R * World :=
  match p with
  | Ret r => (Data r, w)
  | Throw m => (Error m, w)
  | Await op k => let (x, w') := exec_op env op w in run env (k x) w'
  end.

(** One awaited operation of one invocation. *)
Definition step_thread (env : Env) {R : Type} (p : Prog R) (w : World) : Prog R * World :=
  match p with
  | Await op k => let (x, w') := exec_op env op w in (k x, w')
  | _ => (p, w)
  end.

Fixpoint set_nth {A : Type} (i : nat) (x : A) (l : list A) : list A :=
  match l, i with
  | [], _ => []
  | _ :: t, O => x :: t
  | h :: t, S j => h :: set_nth j x t
  end.

(** Several invocations in flight; the schedule names, step by step, the
    invocation whose pending operation completes next. *)
Fixpoint run_schedule (env : Env) {R : Type} (schedule : list nat)
    (pool : list (Prog R)) (w : World) : list (Prog R) * World :=
  match schedule with
  | [] => (pool, w)
  | i :: rest =>
      match nth_error pool i with
      | Some p =>
          let (p', w') := step_thread env p w in
          run_schedule env rest (set_nth i p' pool) w'
      | None => run_schedule env rest pool w
      end
  end.

Definition empty_world : World :=
  {| orders := []; items := []; next_id := O; trace := [] |}.

End External.

Import External.

(* ================================================================= *)
(** ** services/supabase.ts, services/stripe.ts, services/email.ts *)

Module supabaseService.
Local Open Scope prog_scope.
Local Open Scope string_scope.

Definition createOrder (orderData : OrderData) : Prog Order :=
  r <- await (DbInsertOrder orderData) ;;
  match r with
  | Error m => Throw ("Failed to create order: " ++ m)
  | Data o => Ret o
  end.

Definition addOrderItems (orderItems : list OrderItemData) : Prog unit :=
  r <- await (DbInsertItems orderItems) ;;
  match r with
  | Error m => Throw ("Failed to add order items: " ++ m)
  | Data u => Ret u
  end.

Definition updateOrderStatus (orderId : nat) (st : string)
    (stripeSessionId : string) : Prog Order :=
  let sid := if JS.truthy_str stripeSessionId then Some stripeSessionId else None in
  r <- await (DbUpdateOrder orderId st sid) ;;
  match r with
  | Error m => Throw ("Failed to update order status: " ++ m)
  | Data o => Ret o
  end.

(** Any error of the query is swallowed: the result is [null]. *)
Definition getOrderBySessionId (sessionId : string) : Prog (option Order) :=
  r <- await (DbSelectBySession sessionId) ;;
  match r with
  | Error _ => Ret None
  | Data o => Ret (Some o)
  end.

Definition getOrderById (orderId : nat) : Prog (option Order) :=
  r <- await (DbSelectById orderId) ;;
  match r with
  | Error _ => Ret None
  | Data o => Ret (Some o)
  end.

End supabaseService.

Module stripeService.
Local Open Scope prog_scope.

Definition retrieveCheckoutSession (sessionId : string) : Prog Session :=
  r <- await (StripeRetrieve sessionId) ;;
  match r with
  | Error m => Throw m
  | Data s => Ret s
  end.

End stripeService.

Module emailService.
Local Open Scope prog_scope.
Local Open Scope string_scope.

(** The line items the message body lists: [order.order_items?.map(...)]. *)
Definition email_lines (order : Order) : list OrderItemData :=
  match order_items order with
  | Some l => l
  | None => []
  end.

(** A missing API key is one of the ways in which the send fails. *)
Definition sendPurchaseConfirmationEmail (order : Order) (sessionId : string)
    : Prog unit :=
  try_catch
    (if negb (JS.truthy_str (email (shipping (data (row order)))))
     then Throw "Customer email is missing from order shipping information"
     else
       r <- await (ResendSend order sessionId) ;;
       match r with
       | Error m => Throw ("Resend API error: " ++ m)
       | Data u => Ret u
       end)
    (fun m => Throw ("Failed to send confirmation email: " ++ m)).

End emailService.

(* ================================================================= *)
(** ** routes/checkout.ts *)

Module checkout.
Import supabaseService stripeService emailService.
Local Open Scope prog_scope.
Local Open Scope string_scope.

Definition json (c : nat) (b : Body) : Prog Response :=
  Ret {| code := c; body := b |}.

(** "Parse shipping info from metadata" (both routes). *)
Definition shippingInfo_of (metadata : Metadata) (session : Session) : ShippingInfo :=
  {| fullName := JS.or_str (shipping_name metadata) "";
     email := JS.or_str (JS.or_opt (shipping_email metadata) (customer_email session)) "";
     phone := JS.or_str (shipping_phone metadata) "";
     address := JS.or_str (shipping_address metadata) "";
     city := JS.or_str (shipping_city metadata) "";
     postalCode := JS.or_str (shipping_postal_code metadata) "";
     country := JS.or_str (shipping_country metadata) "" |}.

(** The [orderData] literal (both routes). *)
Definition orderData_of (metadata : Metadata) (session : Session)
    (sessionId : string) : OrderData :=
  {| total_amount := JS.parseInt (JS.or_str (m_total metadata) "0");
     currency := JS.or_str (m_currency metadata) "SEK";
     shipping := shippingInfo_of metadata session;
     status := "processing";
     discount_code := JS.or_null (m_discount_code metadata);
     discount_amount := JS.parseInt (JS.or_str (m_discount_amount metadata) "0");
     stripe_session_id := Some sessionId;
     payment_method := "stripe" |}.

(** [JSON.parse(metadata.items || '[]')] then [.map] to [OrderItemData]. *)
Definition orderItems_of (metadata : Metadata) (order : Order)
    : Prog (list OrderItemData) :=
  match m_items metadata with
  | None => Ret []
  | Some (JsonArray itemsData) =>
      Ret (map (fun item =>
                  {| order_id := id (row order);
                     product_id := j_product_id item;
                     quantity := j_quantity item;
                     unit_price := j_unit_price item |}) itemsData)
  | Some JsonBad => Throw "Unexpected token in JSON"
  end.

(** *** POST /api/checkout/webhook *)

(** [case 'checkout.session.completed'], after the lookup of the order. *)
Definition completed_with (session : Session) (found : option Order) : Prog unit :=
  match found with
  | None =>
      match metadata session with
      | None => Ret tt                                           (* break *)
      | Some metadata =>
          let orderData := orderData_of metadata session (session_id session) in
          order <- try_catch (createOrder orderData) (fun m => Throw m) ;;
          try_catch
            (orderItems <- orderItems_of metadata order ;;
             addOrderItems orderItems)
            (fun _ => Ret tt) ;;;
          try_catch
            (let customerEmail := email (shipping (data (row order))) in
             if negb (JS.truthy_str customerEmail) then Ret tt
             else sendPurchaseConfirmationEmail order (session_id session))
            (fun _ => Ret tt)
      end
  | Some order =>
      if negb (String.eqb (status (data (row order))) "processing")
      then updateOrderStatus (id (row order)) "processing" (session_id session) ;;; Ret tt
      else Ret tt
  end.

Definition completed (session : Session) : Prog unit :=
  if String.eqb (payment_status session) "paid"
  then
    order <- getOrderBySessionId (session_id session) ;;
    completed_with session order
  else Ret tt.

Definition async_payment_succeeded (session : Session) : Prog unit :=
  order <- getOrderBySessionId (session_id session) ;;
  match order with
  | Some order =>
      updateOrderStatus (id (row order)) "processing" (session_id session) ;;; Ret tt
  | None => Ret tt
  end.

Definition async_payment_failed (session : Session) : Prog unit :=
  order <- getOrderBySessionId (session_id session) ;;
  match order with
  | Some order =>
      updateOrderStatus (id (row order)) "pending" (session_id session) ;;; Ret tt
  | None => Ret tt
  end.

Definition webhook (reqBody : option StripeEvent) : Prog Response :=
  try_catch
    (match reqBody with
     | None => json 400 (ErrorBody "Invalid webhook event")
     | Some event =>
         if negb (JS.truthy_str (event_type event))
         then json 400 (ErrorBody "Invalid webhook event")
         else
           let session := event_object event in
           (if String.eqb (event_type event) "checkout.session.completed"
            then completed session
            else if String.eqb (event_type event) "checkout.session.async_payment_succeeded"
            then async_payment_succeeded session
            else if String.eqb (event_type event) "checkout.session.async_payment_failed"
            then async_payment_failed session
            else Ret tt) ;;;
           json 200 Received
     end)
    (fun m => json 400 (ErrorBody ("Webhook Error: " ++ m))).

(** *** POST /api/checkout/create-order-from-session *)

(** The route after the lookup of an existing order. *)
Definition createOrderFromSession_with (sessionId : string)
    (existingOrder : option Order) : Prog Response :=
  match existingOrder with
  | Some existingOrder => json 200 (OrderBody existingOrder "Order already created")
  | None =>
      session <- retrieveCheckoutSession sessionId ;;
      if negb (String.eqb (payment_status session) "paid")
      then json 400 (PaymentNotCompleted (payment_status session))
      else
        match metadata session with
        | None => json 400 (ErrorBody "Missing order data in session")
        | Some metadata =>
            let orderData := orderData_of metadata session sessionId in
            order <- createOrder orderData ;;
            order <- try_catch
                       (orderItems <- orderItems_of metadata order ;;
                        addOrderItems orderItems ;;;
                        fullOrder <- getOrderById (id (row order)) ;;
                        match fullOrder with
                        | Some fullOrder => Ret fullOrder
                        | None => Ret order
                        end)
                       (fun _ => Ret order) ;;
            try_catch
              (let customerEmail :=
                 JS.or_opt (Some (email (shipping (data (row order)))))
                           (customer_email session) in
               if JS.truthy_opt customerEmail
               then sendPurchaseConfirmationEmail order sessionId
               else Ret tt)
              (fun _ => Ret tt) ;;;
            json 200 (OrderBody order "Order created successfully")
        end
  end.

Definition createOrderFromSession (sessionId : option string) : Prog Response :=
  try_catch
    (match JS.or_null sessionId with
     | None => json 400 (ErrorBody "Session ID is required")
     | Some sessionId =>
         existingOrder <- getOrderBySessionId sessionId ;;
         createOrderFromSession_with sessionId existingOrder
     end)
    (fun m => json 500 (ErrorBody m)).

(** *** The triggers of order materialization *)

Inductive Trigger : Type :=
| WebhookEvent (event : StripeEvent)
| ClientCallback (sessionId : string).

Definition materialize (t : Trigger) : Prog Response :=
  match t with
  | WebhookEvent event => webhook (Some event)
  | ClientCallback sessionId => createOrderFromSession (Some sessionId)
  end.

(** The world after a handler has run to completion. *)
Definition after (env : Env) (t : Trigger) (w : World) : World :=
  snd (run env (materialize t) w).

(** Invocations served one after the other. *)
Definition after_all (env : Env) (ts : list Trigger) (w : World) : World :=
  fold_left (fun w t => after env t w) ts w.

End checkout.

Import checkout.

(* ================================================================= *)
(** ** Notions used in the statements *)

Local Open Scope string_scope.
Local Open Scope list_scope.

(** What the two lookups of the store wrapper return in a given world. *)
Definition find_by_session (sid : string) (w : World) : option Order :=
  match single (filter (has_session sid) (orders w)) with
  | Data r => Some (with_items w r)
  | Error _ => None
  end.

Definition find_by_id (oid : nat) (w : World) : option Order :=
  match single (filter (has_id oid) (orders w)) with
  | Data r => Some (with_items w r)
  | Error _ => None
  end.

(** The row an accepted insert creates, and the world it leaves. *)
Definition new_row (d : OrderData) (w : World) : OrderRow :=
  {| id := next_id w; data := d |}.

Definition inserted (d : OrderData) (w : World) : World :=
  {| orders := orders w ++ [new_row d w]; items := items w;
     next_id := S (next_id w);
     trace := trace w ++ [OrderInserted (new_row d w)] |}.

(** The rows [metadata.items] yields for an order; [None] when the JSON
    text does not parse to an array. *)
Definition item_rows (m : Metadata) (oid : nat) : option (list OrderItemData) :=
  match m_items m with
  | None => Some []
  | Some (JsonArray l) =>
      Some (map (fun item =>
                   {| order_id := oid;
                      product_id := j_product_id item;
                      quantity := j_quantity item;
                      unit_price := j_unit_price item |}) l)
  | Some JsonBad => None
  end.

(** The item step succeeded: the JSON parsed and the store took the rows. *)
Definition items_written (env : Env) (m : Metadata) (oid : nat) : bool :=
  match item_rows m oid with
  | Some l => items_insert_ok env l
  | None => false
  end.

(** The world after the guarded item step of either route. *)
Definition after_items (env : Env) (m : Metadata) (oid : nat) (w : World) : World :=
  match item_rows m oid with
  | Some l =>
      if items_insert_ok env l
      then {| orders := orders w; items := items w ++ l; next_id := next_id w;
              trace := trace w ++ [ItemsInserted l] |}
      else log (ItemsInsertFailed l) w
  | None => w
  end.

(** The order object the client route holds after its item step. *)
Definition order_after_items (env : Env) (m : Metadata) (o : Order) (w : World) : Order :=
  if items_written env m (id (row o))
  then match find_by_id (id (row o)) (after_items env m (id (row o)) w) with
       | Some fullOrder => fullOrder
       | None => o
       end
  else o.

(** The world after the guarded mail step of either route. *)
Definition after_email (env : Env) (o : Order) (sid : string) (w : World) : World :=
  if JS.truthy_str (email (shipping (data (row o))))
  then if email_ok env o
       then log (EmailSent o sid) w
       else log (EmailFailed o sid) w
  else w.

Definition completed_event (session : Session) : StripeEvent :=
  {| event_type := "checkout.session.completed"; event_object := session |}.

Definition async_failed_event (session : Session) : StripeEvent :=
  {| event_type := "checkout.session.async_payment_failed"; event_object := session |}.

(** The response of a handler and the world it leaves. *)
Definition response (env : Env) (p : Prog Response) (w : World) : outcome Response :=
  fst (run env p w).

Definition world_after (env : Env) (p : Prog Response) (w : World) : World :=
  snd (run env p w).

Definition ok (b : Body) : outcome Response := Data {| code := 200; body := b |}.

Definition failed (c : nat) (b : Body) : outcome Response :=
  Data {| code := c; body := b |}.

(** The world an accepted status update leaves. *)
Definition updated (oid : nat) (st : string) (sid : option string) (w : World) : World :=
  {| orders := map (fun x => if has_id oid x then set_status st sid x else x) (orders w);
     items := items w; next_id := next_id w;
     trace := trace w ++ [OrderUpdated oid st] |}.

(** The session id as [updateOrderStatus] passes it on: only when truthy. *)
Definition session_arg (sid : string) : option string :=
  if JS.truthy_str sid then Some sid else None.

(** The world after an order has been created for a session and the item and
    mail steps have run, on the webhook route and on the client route. *)
Definition materialized_webhook (env : Env) (m : Metadata) (session : Session)
    (w : World) : World :=
  let d := orderData_of m session (session_id session) in
  after_email env (bare (new_row d w)) (session_id session)
    (after_items env m (next_id w) (inserted d w)).

Definition client_order (env : Env) (m : Metadata) (session : Session)
    (sid : string) (w : World) : Order :=
  let d := orderData_of m session sid in
  order_after_items env m (bare (new_row d (log (SessionRetrieved sid) w)))
    (inserted d (log (SessionRetrieved sid) w)).

Definition materialized_client (env : Env) (m : Metadata) (session : Session)
    (sid : string) (w : World) : World :=
  let d := orderData_of m session sid in
  after_email env (client_order env m session sid w) sid
    (after_items env m (next_id w) (inserted d (log (SessionRetrieved sid) w))).

(** The persistent part of a world. *)
Definition store_of (w : World) : list OrderRow * list OrderItemData * nat :=
  (orders w, items w, next_id w).

(** Every order of a session given a status, nothing else touched. *)
Definition mark (sid st : string) (l : list OrderRow) : list OrderRow :=
  map (fun x => if has_session sid x then set_status st None x else x) l.

(** Effects of the guarded item step and of the guarded mail step. *)
Definition item_effects (env : Env) (m : Metadata) (oid : nat) : list Effect :=
  match item_rows m oid with
  | Some l => if items_insert_ok env l then [ItemsInserted l] else [ItemsInsertFailed l]
  | None => []
  end.

Definition mail_effects (env : Env) (o : Order) (sid : string) : list Effect :=
  if JS.truthy_str (email (shipping (data (row o))))
  then if email_ok env o then [EmailSent o sid] else [EmailFailed o sid]
  else [].

(** Worlds and items used as concrete inputs. *)
Definition fractional_item : Pricing.CartItem Q :=
  {| Pricing.product := {| Pricing.price := 21 # 2; Pricing.discount_percentage := None |};
     Pricing.quantity := 1;
     Pricing.activeEvent := None |}.

Definition scenario_item : Pricing.CartItem Q :=
  {| Pricing.product := {| Pricing.price := 1000 # 1;
                           Pricing.discount_percentage := Some (10 # 1) |};
     Pricing.quantity := 2;
     Pricing.activeEvent :=
       Some {| Pricing.event_discount_percentage := Some (25 # 1) |} |}.

Definition sample_metadata : Metadata :=
  {| shipping_name := Some "Ada";
     shipping_email := Some "ada@example.com";
     shipping_phone := None;
     shipping_address := Some "Storgatan 1";
     shipping_city := Some "Malmo";
     shipping_postal_code := Some "21100";
     shipping_country := Some "SE";
     m_discount_code := Some "";
     m_discount_amount := None;
     m_total := Some "1849.5";
     m_currency := None;
     m_items := Some (JsonArray [ {| j_product_id := "p1"; j_quantity := 2;
                                     j_unit_price := 900 |} ]) |}.

Definition paid_session (sid : string) : Session :=
  {| session_id := sid; payment_status := "paid";
     metadata := Some sample_metadata; customer_email := Some "ada@example.com" |}.

Definition unpaid_session (sid : string) : Session :=
  {| session_id := sid; payment_status := "unpaid";
     metadata := Some sample_metadata; customer_email := Some "ada@example.com" |}.

(** An environment in which every session is paid and nothing fails. *)
Definition calm_env (unique : bool) : Env :=
  {| unique_session := unique;
     gateway := fun sid => Some (paid_session sid);
     items_insert_ok := fun _ => true;
     email_ok := fun _ => true |}.

(** An existing order of session [cs_1] with the given status. *)
Definition world_with_order (st : string) : World :=
  {| orders := [ {| id := 0%nat;
                    data := {| total_amount := Some 1849;
                               currency := "SEK";
                               shipping := shippingInfo_of sample_metadata (paid_session "cs_1");
                               status := st;
                               discount_code := None;
                               discount_amount := Some 0;
                               stripe_session_id := Some "cs_1";
                               payment_method := "stripe" |} |} ];
     items := [ {| order_id := 0%nat; product_id := "p1"; quantity := 2; unit_price := 900 |} ];
     next_id := 1%nat;
     trace := [] |}.

(** An environment whose payment processor reports every session unpaid. *)
Definition unpaid_env : Env :=
  {| unique_session := true;
     gateway := fun sid => Some (unpaid_session sid);
     items_insert_ok := fun _ => true;
     email_ok := fun _ => true |}.

(** An environment in which the store refuses every item insert, and one in
    which the mail provider refuses every message. *)
Definition items_down_env : Env :=
  {| unique_session := true;
     gateway := fun sid => Some (paid_session sid);
     items_insert_ok := fun _ => false;
     email_ok := fun _ => true |}.

Definition mail_down_env : Env :=
  {| unique_session := true;
     gateway := fun sid => Some (paid_session sid);
     items_insert_ok := fun _ => true;
     email_ok := fun _ => false |}.

(** An invocation whose lookup has completed with result [found] and whose
    later operations are still to come. *)
Definition webhook_in_flight (session : Session) (found : option Order) : Prog Response :=
  try_catch
    (bind (completed_with session found) (fun _ => json 200 Received))
    (fun m => json 400 (ErrorBody ("Webhook Error: " ++ m))).

Definition client_in_flight (sid : string) (found : option Order) : Prog Response :=
  try_catch (createOrderFromSession_with sid found)
    (fun m => json 500 (ErrorBody m)).

(** The responses of a pool of invocations; [None] while one is pending. *)
Definition responses (pool : list (Prog Response)) : list (option Response) :=
  map (fun p => match p with Ret r => Some r | _ => None end) pool.

Definition the_row (st : string) : OrderRow :=
  match orders (world_with_order st) with
  | r :: _ => r
  | [] => new_row (orderData_of sample_metadata (paid_session "cs_1") "cs_1") empty_world
  end.

Definition the_item : OrderItemData :=
  {| order_id := 0%nat; product_id := "p1"; quantity := 2; unit_price := 900 |}.

(** The statuses an awaited operation writes to the [orders] table, and
    programs all of whose writes carry a status in [P]. *)
Definition op_statuses {X : Type} (op : Op X) : list string :=
  match op with
  | DbInsertOrder d => [status d]
  | DbUpdateOrder _ st _ => [st]
  | _ => []
  end.

Inductive writes_within (P : string -> Prop) {R : Type} : Prog R -> Prop :=
| ww_ret (r : R) : writes_within P (Ret r)
| ww_throw (m : string) : writes_within P (Throw m)
| ww_await (X : Type) (op : Op X) (k : X -> Prog R) :
    Forall P (op_statuses op) ->
    (forall x, writes_within P (k x)) ->
    writes_within P (Await op k).

(** Every row of [w'] is a row of [w] or carries a status in [P]. *)
Definition only_writes (P : string -> Prop) (w w' : World) : Prop :=
  forall r, In r (orders w') -> In r (orders w) \/ P (status (data r)).

Definition coordinator_status (st : string) : Prop :=
  st = "processing" \/ st = "pending".

(** The session a trigger is about, and the metadata it materializes from:
    the payload of the event on the webhook route, the session read from the
    payment processor on the client route. *)
Definition trigger_session (t : Trigger) : string :=
  match t with
  | WebhookEvent event => session_id (event_object event)
  | ClientCallback sessionId => sessionId
  end.

Definition payload (env : Env) (t : Trigger) : option Metadata :=
  match t with
  | WebhookEvent event => metadata (event_object event)
  | ClientCallback sessionId =>
      match gateway env sessionId with
      | Some session => metadata session
      | None => None
      end
  end.

(** [len(items)] of a payload. *)
Definition item_count (m : Metadata) : nat :=
  match m_items m with
  | Some (JsonArray l) => List.length l
  | _ => O
  end.

(** The orders of a session, and the items of the orders of a session. *)
Definition session_orders (sid : string) (w : World) : list OrderRow :=
  filter (has_session sid) (orders w).

Definition item_of_session (sid : string) (l : list OrderRow) (it : OrderItemData) : bool :=
  existsb (fun r => has_session sid r && Nat.eqb (id r) (order_id it)) l.

Definition session_items (sid : string) (w : World) : list OrderItemData :=
  filter (item_of_session sid (orders w)) (items w).

(** Well-formed stores: primary keys are distinct and were assigned by the
    store, items point to assigned keys, and a session has at most one
    order. *)
Record store_ok (w : World) : Prop := {
  ids_distinct : NoDup (map id (orders w));
  ids_assigned : forall r, In r (orders w) -> (id r < next_id w)%nat;
  items_assigned : forall it, In it (items w) -> (order_id it < next_id w)%nat;
  one_per_session : forall sid, (List.length (session_orders sid w) <= 1)%nat
}.

(** What one invocation, run to completion, does to the store: nothing;
    or a status written on the order of its session; or the creation of the
    order of its session, which had none, with the items of its payload or
    without any. *)
Inductive transition (env : Env) (t : Trigger) (w w' : World) : Prop :=
| tr_same :
    store_of w' = store_of w ->
    transition env t w w'
| tr_status (st : string) (r : OrderRow) :
    session_orders (trigger_session t) w = [r] ->
    orders w' = mark (trigger_session t) st (orders w) ->
    items w' = items w ->
    next_id w' = next_id w ->
    transition env t w w'
| tr_create (m : Metadata) (d : OrderData) (rows : list OrderItemData) :
    payload env t = Some m ->
    session_orders (trigger_session t) w = [] ->
    stripe_session_id d = Some (trigger_session t) ->
    orders w' = orders w ++ [new_row d w] ->
    next_id w' = S (next_id w) ->
    items w' = items w ++ rows ->
    rows = [] \/ item_rows m (next_id w) = Some rows ->
    transition env t w w'.

(** A webhook and a client callback for one session, racing. *)
Definition racing_pool : list (Prog Response) :=
  [ webhook (Some (completed_event (paid_session "cs_1")));
    createOrderFromSession (Some "cs_1") ].

Definition racing_schedule : list nat := [0; 1; 0; 1; 1; 0; 0; 1; 1; 1]%nat.

(** No session id is held by two orders. *)
Definition sessions_unique (l : list OrderRow) : Prop :=
  forall sid, (List.length (filter (has_session sid) l) <= 1)%nat.

(* ================================================================= *)
(** ** routes/checkout.ts: POST /api/checkout/send-confirmation-email *)

Module confirmationMail.
Import supabaseService stripeService emailService.
Local Open Scope prog_scope.
Local Open Scope string_scope.

(** The answers of this route: [{ error }] or [{ success: true, message }]. *)
Inductive ReplyBody : Type :=
| ReplyError (error : string)
| ReplySuccess (message : string).

Record Reply : Type := {
  reply_code : nat;
  reply_body : ReplyBody
}.

Definition reply (c : nat) (b : ReplyBody) : Prog Reply :=
  Ret {| reply_code := c; reply_body := b |}.

(** The first part of the handler either answers at once (the payment is
    not completed) or yields the order it found, if any.  [orderId] is
    [None] when the field is absent or empty. *)
Definition locate_order (sessionId : option string) (orderId : option nat)
    : Prog (Reply + option Order) :=
  match JS.or_null sessionId with
  | Some sessionId =>
      session <- retrieveCheckoutSession sessionId ;;
      if negb (String.eqb (payment_status session) "paid")
      then Ret (inl {| reply_code := 400;
                       reply_body := ReplyError "Payment not completed yet" |})
      else
        order <- getOrderBySessionId sessionId ;;
        Ret (inr order)
  | None =>
      match orderId with
      | Some orderId =>
          order <- getOrderById orderId ;;
          Ret (inr order)
      | None => Ret (inr None)
      end
  end.

(** [sessionId || order.stripe_session_id || ''] *)
Definition mail_session (sessionId : option string) (order : Order) : string :=
  JS.or_str (JS.or_opt sessionId (stripe_session_id (data (row order)))) "".

Definition sendConfirmationEmail (sessionId : option string) (orderId : option nat)
    : Prog Reply :=
  try_catch
    (if negb (JS.truthy_opt sessionId) && negb (match orderId with Some _ => true | None => false end)
     then reply 400 (ReplyError "Either sessionId or orderId is required")
     else
       located <- locate_order sessionId orderId ;;
       match located with
       | inl early => Ret early
       | inr None => reply 404 (ReplyError "Order not found")
       | inr (Some order) =>
           let customerEmail := email (shipping (data (row order))) in
           if negb (JS.truthy_str customerEmail)
           then reply 400 (ReplyError "Customer email not found in order")
           else
             sendPurchaseConfirmationEmail order (mail_session sessionId order) ;;;
             reply 200 (ReplySuccess ("Confirmation email sent to " ++ customerEmail))
       end)
    (fun m => reply 500 (ReplyError (JS.or_str (Some m) "Failed to send confirmation email"))).

End confirmationMail.

(** More notions for statements about the checkout routes. *)

Definition async_succeeded_event (session : Session) : StripeEvent :=
  {| event_type := "checkout.session.async_payment_succeeded"; event_object := session |}.

(** The same order, but for its status. *)
Definition same_but_status (r r' : OrderRow) : Prop :=
  exists st, r' = set_status st None r.

(** The code of a handler's answer, when it answered. *)
Definition answered_with (codes : list nat) (o : outcome Response) : Prop :=
  exists r, o = Data r /\ In (code r) codes.

(** A session without metadata. *)
Definition bare_session (sid : string) : Session :=
  {| session_id := sid; payment_status := "paid";
     metadata := None; customer_email := None |}.

Definition bare_env : Env :=
  {| unique_session := true;
     gateway := fun sid => Some (bare_session sid);
     items_insert_ok := fun _ => true;
     email_ok := fun _ => true |}.

(** An environment whose payment processor knows no session. *)
Definition offline_env : Env :=
  {| unique_session := true;
     gateway := fun _ => None;
     items_insert_ok := fun _ => true;
     email_ok := fun _ => true |}.

(** Two orders of session [cs_1], as a race without store constraint
    leaves them. *)
Definition doubled_world : World :=
  {| orders := [ the_row "processing";
                 {| id := 1%nat; data := data (the_row "processing") |} ];
     items := [];
     next_id := 2%nat;
     trace := [] |}.

(** The item rows an invocation writes for the order it creates: those of
    the payload when the item step succeeds, none otherwise. *)
Definition written_rows (env : Env) (m : Metadata) (oid : nat) : list OrderItemData :=
  match item_rows m oid with
  | Some l => if items_insert_ok env l then l else []
  | None => []
  end.

(** The last part of the confirmation-mail route, once the order has been
    looked for: 404 without order, 400 without address, else the dispatch. *)
Definition deliver (env : Env) (sessionId : option string) (found : option Order)
    (w : World) : outcome confirmationMail.Reply * World :=
  match found with
  | None =>
      (Data {| confirmationMail.reply_code := 404;
               confirmationMail.reply_body := confirmationMail.ReplyError "Order not found" |}, w)
  | Some o =>
      let customerEmail := email (shipping (data (row o))) in
      if JS.truthy_str customerEmail
      then
        (Data (if email_ok env o
               then {| confirmationMail.reply_code := 200;
                       confirmationMail.reply_body :=
                         confirmationMail.ReplySuccess
                           ("Confirmation email sent to " ++ customerEmail) |}
               else {| confirmationMail.reply_code := 500;
                       confirmationMail.reply_body :=
                         confirmationMail.ReplyError
                           ("Failed to send confirmation email: Resend API error: "
                            ++ "mail provider rejected the message") |}),
         after_email env o (confirmationMail.mail_session sessionId o) w)
      else
        (Data {| confirmationMail.reply_code := 400;
                 confirmationMail.reply_body :=
                   confirmationMail.ReplyError "Customer email not found in order" |}, w)
  end.

(** An order without session id, as one created outside the checkout. *)
Definition manual_world : World :=
  {| orders := [ {| id := 0%nat;
                    data := {| total_amount := Some 500;
                               currency := "SEK";
                               shipping := shippingInfo_of sample_metadata (paid_session "cs_1");
                               status := "pending";
                               discount_code := None;
                               discount_amount := Some 0;
                               stripe_session_id := None;
                               payment_method := "manual" |} |} ];
     items := [];
     next_id := 1%nat;
     trace := [] |}.

(* ================================================================= *)
(** ** Text of numbers and of currencies *)

From Stdlib Require DecimalString DecimalPos.

Module JSText.

(** [Number.prototype.toString] of an integer (below 1e21 in absolute
    value): decimal digits, with a leading minus sign when negative. *)
Definition decimal (z : Z) : string :=
  DecimalString.NilZero.string_of_int (Z.to_int z).

(** A text on which [parseInt] stops: the end, or a character that is no
    decimal digit (and not the [x] that would complete a hex prefix). *)
Definition stops_number (rest : string) : bool :=
  match rest with
  | EmptyString => true
  | String c _ =>
      match JS.digit_val 10 c with
      | Some _ => false
      | None => negb (Ascii.eqb c "x" || Ascii.eqb c "X")
      end
  end.

(** [String.prototype.toLowerCase] on ASCII letters. *)
Definition lower_char (c : ascii) : ascii :=
  let n := nat_of_ascii c in
  if ((65 <=? n) && (n <=? 90))%nat then ascii_of_nat (n + 32) else c.

Fixpoint toLowerCase (s : string) : string :=
  match s with
  | EmptyString => EmptyString
  | String c s' => String (lower_char c) (toLowerCase s')
  end.

End JSText.

(* ================================================================= *)
(** ** services/stripe.ts: what [createCheckoutSession] sends *)

Module stripeCheckout.
Local Open Scope string_scope.

Section CreateCheckoutSession.
Context {num : Type} {N : Pricing.JSNumber num}.

(** [Number.prototype.toString] on the numbers of the request. *)
Variable toString : num -> string.

(** A cart line: the fields [calculateUnitPrice] reads, and the ones the
    line items and the metadata use besides. *)
Record CartLine : Type := {
  cart : Pricing.CartItem num;
  line_product_id : string;       (* product.id *)
  title_en : string;              (* product.title.en *)
  images : list string            (* product.images *)
}.

(** [ShippingInfo] of types/checkout.ts as the request carries it. *)
Record ShippingInput : Type := {
  in_fullName : string;
  in_email : string;
  in_phone : option string;       (* phone?: string *)
  in_address : string;
  in_city : string;
  in_postalCode : string;
  in_country : string
}.

Record CreateCheckoutSessionRequest : Type := {
  req_items : list CartLine;
  shippingInfo : ShippingInput;
  req_currency : string;
  discountCode : option string;
  discountAmount : option num;
  subtotal : num;
  req_shipping : num;
  total : num
}.

Definition zeroDecimalCurrencies : list string :=
  ["jpy"; "krw"; "clp"; "vnd"; "xaf"; "xof"].

Definition toSmallestUnit (amount : num) (currency : string) : num :=
  if existsb (String.eqb (JSText.toLowerCase currency)) zeroDecimalCurrencies
  then Pricing.Math_round amount
  else Pricing.Math_round (Pricing.mul amount (Pricing.lit 100)).

(** [Stripe.Checkout.SessionCreateParams.LineItem] *)
Record LineItem : Type := {
  li_currency : string;
  li_name : string;
  li_images : list string;
  li_unit_amount : num;
  li_quantity : Z
}.

Definition product_line (data : CreateCheckoutSessionRequest) (item : CartLine) : LineItem :=
  let unitPrice := Pricing.calculateUnitPrice (cart item) in
  {| li_currency := JSText.toLowerCase (req_currency data);
     li_name := title_en item;
     li_images := firstn 1 (images item);                 (* images.slice(0, 1) *)
     li_unit_amount := toSmallestUnit unitPrice (req_currency data);
     li_quantity := Pricing.quantity (cart item) |}.

Definition shipping_line (data : CreateCheckoutSessionRequest) : LineItem :=
  {| li_currency := JSText.toLowerCase (req_currency data);
     li_name := "Shipping";
     li_images := [];
     li_unit_amount := toSmallestUnit (req_shipping data) (req_currency data);
     li_quantity := 1 |}.

Definition lineItems (data : CreateCheckoutSessionRequest) : list LineItem :=
  map (product_line data) (req_items data)
  ++ (if Pricing.gt (req_shipping data) (Pricing.lit 0) then [shipping_line data] else []).

(** The [metadata] of the session.  The keys [subtotal] and
    [shipping_cost] are written too, but nothing reads them back; the [items]
    key holds the JSON text of the cart lines and is given here by what the
    order routes parse from it. *)
Definition session_metadata (data : CreateCheckoutSessionRequest)
    (items : option ItemsJson) : Metadata :=
  {| shipping_name := Some (in_fullName (shippingInfo data));
     shipping_email := Some (in_email (shippingInfo data));
     shipping_phone := Some (JS.or_str (in_phone (shippingInfo data)) "");
     shipping_address := Some (in_address (shippingInfo data));
     shipping_city := Some (in_city (shippingInfo data));
     shipping_postal_code := Some (in_postalCode (shippingInfo data));
     shipping_country := Some (in_country (shippingInfo data));
     m_discount_code := Some (JS.or_str (discountCode data) "");
     m_discount_amount :=
       Some (JS.or_str (match discountAmount data with
                        | Some a => Some (toString a)
                        | None => None
                        end) "0");
     m_total := Some (toString (total data));
     m_currency := Some (req_currency data);
     m_items := items |}.

(** The session as the payment processor gives it back. *)
Definition session_of (data : CreateCheckoutSessionRequest) (items : option ItemsJson)
    (sid st : string) : Session :=
  {| session_id := sid;
     payment_status := st;
     metadata := Some (session_metadata data items);
     customer_email := Some (in_email (shippingInfo data)) |}.

End CreateCheckoutSession.

Arguments CartLine num : clear implicits.
Arguments CreateCheckoutSessionRequest num : clear implicits.
Arguments LineItem num : clear implicits.

End stripeCheckout.

(* ================================================================= *)
(** ** index.ts: the origins the server accepts *)

Module server.
Local Open Scope string_scope.

(** The variables of [process.env] that decide the CORS policy. *)
Record ProcessEnv : Type := {
  NODE_ENV : option string;
  FRONTEND_URL : option string;
  DASHBOARD_URL : option string
}.

(** [s.split(sep)] for a one-character separator. *)
Fixpoint split_on (sep : ascii) (s : string) : list string :=
  match s with
  | EmptyString => [EmptyString]
  | String c s' =>
      if Ascii.eqb c sep then EmptyString :: split_on sep s'
      else match split_on sep s' with
           | h :: t => String c h :: t
           | [] => [String c EmptyString]
           end
  end.

Fixpoint trim_end (s : string) : string :=
  match s with
  | EmptyString => EmptyString
  | String c s' =>
      match trim_end s' with
      | EmptyString => if JS.is_ws c then EmptyString else String c EmptyString
      | t => String c t
      end
  end.

(** [s.trim()] (ASCII white space). *)
Definition trim (s : string) : string := trim_end (JS.trim_start s).

Definition frontendUrls (env : ProcessEnv) : list string :=
  match JS.or_null (FRONTEND_URL env) with
  | Some urls => map trim (split_on "," urls)
  | None => ["http://localhost:5173"; "http://localhost:8081";
             "http://localhost:3000"; "http://localhost:8080"]
  end.

Definition allowedOrigins (env : ProcessEnv) : list string :=
  (match JS.or_null (DASHBOARD_URL env) with
   | Some dashboardUrl => [dashboardUrl]
   | None => []
   end)
  ++ frontendUrls env
  ++ ["https://dashboard-one-delta-12.vercel.app";
      "https://arvsouq.com";
      "https://www.arvsouq.com"].

Definition is_production (env : ProcessEnv) : bool :=
  match NODE_ENV env with
  | Some v => String.eqb v "production"
  | None => false
  end.

(** The [origin] callback of the CORS middleware: [true] for
    [callback(null, true)], [false] for "Not allowed by CORS". *)
Definition origin_allowed (env : ProcessEnv) (origin : option string) : bool :=
  match JS.or_null origin with
  | None => true
  | Some origin =>
      if negb (is_production env)
         && (String.prefix "http://localhost:" origin
             || String.prefix "http://127.0.0.1:" origin)
      then true
      else existsb (String.eqb origin) (allowedOrigins env)
  end.

End server.

(** A text without comma. *)
Fixpoint comma_free (s : string) : bool :=
  match s with
  | EmptyString => true
  | String c s' => negb (Ascii.eqb c ",") && comma_free s'
  end.

(* ================================================================= *)
(** ** routes/users.ts, routes/products.ts and their part of
       services/supabase.ts *)

Module admin.
Local Open Scope string_scope.

Record AuthUser : Type := {
  uid : nat;                       (* a UUID in the source *)
  auth_email : string
}.

(** A row of [admin_users]. *)
Record AdminRow : Type := {
  admin_id : nat;
  admin_email : string;
  role : string
}.

(** The awaited calls: the auth admin API and the tables [admin_users] and
    [products]. *)
Inductive AdminOp : Type -> Type :=
| AuthCreateUser (email password : string) : AdminOp (outcome (option AuthUser))
| AuthDeleteUser (userId : nat) : AdminOp (outcome unit)
| InsertAdminUser (r : AdminRow) : AdminOp (outcome AdminRow)
| UpdateAdminRole (userId : nat) (newRole : string) : AdminOp (outcome AdminRow)
| DeleteProductRow (productId : nat) : AdminOp (outcome nat).

Inductive AdminProg (R : Type) : Type :=
| Done (r : R)
| Raise (message : string)
| Call {X : Type} (op : AdminOp X) (k : X -> AdminProg R).

Arguments Done {R} r.
Arguments Raise {R} message.
Arguments Call {R X} op k.

Fixpoint abind {A B : Type} (p : AdminProg A) (f : A -> AdminProg B) : AdminProg B :=
  match p with
  | Done a => f a
  | Raise m => Raise m
  | Call op k => Call op (fun x => abind (k x) f)
  end.

Fixpoint acatch {A : Type} (p : AdminProg A) (h : string -> AdminProg A) : AdminProg A :=
  match p with
  | Done a => Done a
  | Raise m => h m
  | Call op k => Call op (fun x => acatch (k x) h)
  end.

Definition call {X : Type} (op : AdminOp X) : AdminProg X := Call op Done.

(** *** The collaborators *)

Record AdminWorld : Type := {
  auth_users : list AuthUser;
  admin_users : list AdminRow;
  products : list nat;             (* identifiers of the rows of [products] *)
  next_uid : nat
}.

(** What the auth API answers to a creation. *)
Inductive AuthAnswer : Type :=
| Created
| Refused (message : string)
| NoUser.                          (* neither an error nor a user *)

Record AdminEnv : Type := {
  auth_create : string -> AuthAnswer;
  auth_delete_ok : nat -> bool;
  admin_insert_ok : AdminRow -> bool
}.

Definition is_user (userId : nat) (u : AuthUser) : bool := Nat.eqb (uid u) userId.
Definition is_admin (userId : nat) (r : AdminRow) : bool := Nat.eqb (admin_id r) userId.

Definition set_role (newRole : string) (r : AdminRow) : AdminRow :=
  {| admin_id := admin_id r; admin_email := admin_email r; role := newRole |}.

Definition no_rows : string := "JSON object requested, multiple (or no) rows returned".

Definition exec_admin (env : AdminEnv) {X : Type} (op : AdminOp X) (w : AdminWorld)
    : X * AdminWorld :=
  match op in AdminOp X return X * AdminWorld with
  | AuthCreateUser email _ =>
      match auth_create env email with
      | Created =>
          let u := {| uid := next_uid w; auth_email := email |} in
          (Data (Some u),
           {| auth_users := auth_users w ++ [u]; admin_users := admin_users w;
              products := products w; next_uid := S (next_uid w) |})
      | Refused m => (Error m, w)
      | NoUser => (Data None, w)
      end
  | AuthDeleteUser userId =>
      if auth_delete_ok env userId && existsb (is_user userId) (auth_users w)
      then (Data tt,
            {| auth_users := filter (fun u => negb (is_user userId u)) (auth_users w);
               (* ON DELETE CASCADE *)
               admin_users := filter (fun r => negb (is_admin userId r)) (admin_users w);
               products := products w; next_uid := next_uid w |})
      else (Error "User not found", w)
  | InsertAdminUser r =>
      if admin_insert_ok env r && negb (existsb (is_admin (admin_id r)) (admin_users w))
      then (Data r,
            {| auth_users := auth_users w; admin_users := admin_users w ++ [r];
               products := products w; next_uid := next_uid w |})
      else (Error "insert into admin_users failed", w)
  | UpdateAdminRole userId newRole =>
      match filter (is_admin userId) (admin_users w) with
      | [r] =>
          (Data (set_role newRole r),
           {| auth_users := auth_users w;
              admin_users := map (fun x => if is_admin userId x then set_role newRole x else x)
                                 (admin_users w);
              products := products w; next_uid := next_uid w |})
      | _ => (Error no_rows, w)
      end
  | DeleteProductRow productId =>
      match filter (Nat.eqb productId) (products w) with
      | [p] =>
          (Data p,
           {| auth_users := auth_users w; admin_users := admin_users w;
              products := filter (fun x => negb (Nat.eqb productId x)) (products w);
              next_uid := next_uid w |})
      | _ => (Error no_rows, w)
      end
  end.

Fixpoint arun (env : AdminEnv) {R : Type} (p : AdminProg R) (w : AdminWorld)
    : outcome R * AdminWorld :=
  match p with
  | Done r => (Data r, w)
  | Raise m => (Error m, w)
  | Call op k => let (x, w') := exec_admin env op w in arun env (k x) w'
  end.

(** *** services/supabase.ts *)

Definition deleteUser (userId : nat) : AdminProg bool :=
  acatch
    (abind (call (AuthDeleteUser userId)) (fun r =>
       match r with
       | Error m => Raise ("Failed to delete user: " ++ m)
       | Data _ => Done true
       end))
    (fun m => Raise m).

Definition createUser (email password newRole : string) : AdminProg AdminRow :=
  abind (call (AuthCreateUser email password)) (fun r =>
    match r with
    | Error m => Raise ("Failed to create auth user: " ++ m)
    | Data None => Raise "User creation failed: No user returned"
    | Data (Some user) =>
        abind (call (InsertAdminUser {| admin_id := uid user;
                                        admin_email := auth_email user;
                                        role := newRole |})) (fun r =>
          match r with
          | Error m =>
              (* try to clean up the auth user; a failure of that is only logged *)
              abind (acatch (abind (call (AuthDeleteUser (uid user))) (fun _ => Done tt))
                       (fun _ => Done tt)) (fun _ =>
                Raise ("Failed to add user to admin_users: " ++ m))
          | Data row => Done row
          end)
    end).

Definition updateUserRole (userId : nat) (newRole : string) : AdminProg AdminRow :=
  abind (call (UpdateAdminRole userId newRole)) (fun r =>
    match r with
    | Error m => Raise ("Failed to update user role: " ++ m)
    | Data row => Done row
    end).

Definition deleteProduct (productId : nat) : AdminProg nat :=
  abind (call (DeleteProductRow productId)) (fun r =>
    match r with
    | Error m => Raise ("Failed to delete product: " ++ m)
    | Data p => Done p
    end).

(** *** The routes *)

Inductive AdminBody : Type :=
| Failure (error : string)                       (* { error } *)
| FailureWith (error message : string)           (* { error, message } *)
| Succeeded (message : string)                   (* { success: true, message } *)
| SucceededWith (message : string) (user : AdminRow).   (* { success, message, user } *)

Record AdminReply : Type := {
  http : nat;
  content : AdminBody
}.

Definition answer (c : nat) (b : AdminBody) : AdminProg AdminReply :=
  Done {| http := c; content := b |}.

Definition validRoles : list string := ["super_admin"; "admin"; "editor"; "viewer"].

Definition invalid_role : string :=
  "Invalid role. Must be one of: " ++ String.concat ", " validRoles.

(** POST /api/users *)
Definition postUser (email password newRole : option string) : AdminProg AdminReply :=
  acatch
    (match JS.or_null email, JS.or_null password, JS.or_null newRole with
     | Some email, Some password, Some newRole =>
         if negb (existsb (String.eqb newRole) validRoles)
         then answer 400 (Failure invalid_role)
         else
           abind (createUser email password newRole) (fun user =>
             answer 200 (SucceededWith "User created successfully" user))
     | _, _, _ => answer 400 (Failure "Missing required fields: email, password, role")
     end)
    (fun m => answer 500 (FailureWith "Failed to create user" m)).

(** DELETE /api/users/:userId; the parameter is [None] when empty. *)
Definition deleteUserRoute (userId : option nat) : AdminProg AdminReply :=
  acatch
    (match userId with
     | None => answer 400 (Failure "Missing required parameter: userId")
     | Some userId =>
         abind (deleteUser userId) (fun _ => answer 200 (Succeeded "User deleted successfully"))
     end)
    (fun m => answer 500 (FailureWith "Failed to delete user" m)).

(** PUT /api/users/:userId/role *)
Definition putUserRole (userId : option nat) (newRole : option string)
    : AdminProg AdminReply :=
  acatch
    (match userId with
     | None => answer 400 (Failure "Missing required parameter: userId")
     | Some userId =>
         match JS.or_null newRole with
         | None => answer 400 (Failure "Missing required field: role")
         | Some newRole =>
             if negb (existsb (String.eqb newRole) validRoles)
             then answer 400 (Failure invalid_role)
             else
               abind (updateUserRole userId newRole) (fun updatedUser =>
                 answer 200 (SucceededWith "User role updated successfully" updatedUser))
         end
     end)
    (fun m => answer 500 (FailureWith "Failed to update user role" m)).

(** DELETE /api/products/:productId *)
Definition deleteProductRoute (productId : option nat) : AdminProg AdminReply :=
  acatch
    (match productId with
     | None => answer 400 (Failure "Missing required parameter: productId")
     | Some productId =>
         abind (deleteProduct productId) (fun _ =>
           answer 200 (Succeeded "Product deleted successfully"))
     end)
    (fun m => answer 500 (FailureWith "Failed to delete product" m)).

(** Identifiers in use were assigned by the auth API. *)
Definition admin_ok (w : AdminWorld) : Prop :=
  (forall u, In u (auth_users w) -> (uid u < next_uid w)%nat) /\
  (forall r, In r (admin_users w) -> (admin_id r < next_uid w)%nat).

End admin.

(** A directory with one administrator and two products, and environments
    in which the insert into [admin_users] and the deletion of auth users
    succeed or fail. *)
Definition admin_start : admin.AdminWorld :=
  {| admin.auth_users := [ {| admin.uid := 0%nat; admin.auth_email := "root@example.com" |} ];
     admin.admin_users := [ {| admin.admin_id := 0%nat;
                               admin.admin_email := "root@example.com";
                               admin.role := "super_admin" |} ];
     admin.products := [7%nat; 8%nat];
     admin.next_uid := 1%nat |}.

Definition admin_env (insert_ok delete_ok : bool) : admin.AdminEnv :=
  {| admin.auth_create := fun _ => admin.Created;
     admin.auth_delete_ok := fun _ => delete_ok;
     admin.admin_insert_ok := fun _ => insert_ok |}.


(** The order data an invocation creates an order from when its session
    has no order yet: the webhook on a [checkout.session.completed] event
    whose session is paid and carries metadata; the client route on a truthy
    session id whose session the payment processor returns, paid and with
    metadata.  [None] for an invocation that creates nothing. *)
Definition creating (env : Env) (t : Trigger) : option Metadata :=
  match t with
  | WebhookEvent event =>
      if String.eqb (event_type event) "checkout.session.completed"
      then if String.eqb (payment_status (event_object event)) "paid"
           then metadata (event_object event)
           else None
      else None
  | ClientCallback sessionId =>
      if JS.truthy_str sessionId
      then match gateway env sessionId with
           | Some session =>
               if String.eqb (payment_status session) "paid"
               then metadata session
               else None
           | None => None
           end
      else None
  end.

(** An unpaid completion event for [cs_1], a callback for another session,
    the paid completion event for [cs_1], and two repeats. *)
Definition busy_pre : list Trigger :=
  [ WebhookEvent (completed_event (unpaid_session "cs_1")); ClientCallback "cs_2" ].

Definition busy_post : list Trigger :=
  [ ClientCallback "cs_1"; WebhookEvent (completed_event (paid_session "cs_1")) ].

(* ================================================================= *)
(** ** Running programs: sequencing, handlers of exceptions, service calls *)

Lemma run_bind env A B (p : Prog A) (f : A -> Prog B) w :
  run env (bind p f) w =
  match run env p w with
  | (Data a, w') => run env (f a) w'
  | (Error m, w') => (Error m, w')
  end.
Proof.
  revert w. induction p as [a|m|X op k IH]; intros w; cbn; try reflexivity.
  destruct (exec_op env op w) as [x w']. apply IH.
Qed.

Lemma run_try_catch env A (p : Prog A) (h : string -> Prog A) w :
  run env (try_catch p h) w =
  match run env p w with
  | (Data a, w') => (Data a, w')
  | (Error m, w') => run env (h m) w'
  end.
Proof.
  revert w. induction p as [a|m|X op k IH]; intros w; cbn; try reflexivity.
  destruct (exec_op env op w) as [x w']. apply IH.
Qed.

Lemma run_getOrderBySessionId env sid w :
  run env (supabaseService.getOrderBySessionId sid) w = (Data (find_by_session sid w), w).
Proof.
  unfold supabaseService.getOrderBySessionId, find_by_session. cbn.
  destruct (single _); reflexivity.
Qed.

Lemma run_getOrderById env oid w :
  run env (supabaseService.getOrderById oid) w = (Data (find_by_id oid w), w).
Proof.
  unfold supabaseService.getOrderById, find_by_id. cbn.
  destruct (single _); reflexivity.
Qed.

Lemma run_createOrder env d w :
  run env (supabaseService.createOrder d) w =
  if unique_session env && session_taken None (stripe_session_id d) (orders w)
  then (Error ("Failed to create order: " ++ duplicate_key), log (OrderInsertRejected d) w)
  else (Data (bare (new_row d w)), inserted d w).
Proof.
  unfold supabaseService.createOrder. cbn.
  destruct (unique_session env && _); reflexivity.
Qed.

Lemma run_retrieveCheckoutSession env sid w :
  run env (stripeService.retrieveCheckoutSession sid) w =
  match gateway env sid with
  | Some s => (Data s, log (SessionRetrieved sid) w)
  | None => (Error "No such checkout.session", w)
  end.
Proof.
  unfold stripeService.retrieveCheckoutSession. cbn.
  destruct (gateway env sid); reflexivity.
Qed.

(** The guarded item step of the webhook route. *)
Lemma run_items_webhook env m (o : Order) w :
  run env
    (try_catch
       (bind (orderItems_of m o) (fun orderItems => supabaseService.addOrderItems orderItems))
       (fun _ => Ret tt)) w
  = (Data tt, after_items env m (id (row o)) w).
Proof.
  unfold orderItems_of, after_items, item_rows.
  destruct (m_items m) as [[l|]|]; cbn.
  - destruct (items_insert_ok env _); reflexivity.
  - reflexivity.
  - destruct (items_insert_ok env []); reflexivity.
Qed.

(** The guarded item step of the client route, with its re-fetch. *)
Lemma run_items_client env m (o : Order) w :
  run env
    (try_catch
       (bind (orderItems_of m o) (fun orderItems =>
        bind (supabaseService.addOrderItems orderItems) (fun _ =>
        bind (supabaseService.getOrderById (id (row o))) (fun fullOrder =>
        match fullOrder with
        | Some fullOrder => Ret fullOrder
        | None => Ret o
        end))))
       (fun _ => Ret o)) w
  = (Data (order_after_items env m o w), after_items env m (id (row o)) w).
Proof.
  unfold orderItems_of, order_after_items, items_written, after_items, item_rows, find_by_id.
  destruct (m_items m) as [[l|]|]; cbn.
  - destruct (items_insert_ok env _); cbn; [|reflexivity].
    destruct (single _); reflexivity.
  - reflexivity.
  - destruct (items_insert_ok env []); cbn; [|reflexivity].
    destruct (single _); reflexivity.
Qed.

Lemma run_sendPurchaseConfirmationEmail env (o : Order) sid w :
  exists r,
    run env (emailService.sendPurchaseConfirmationEmail o sid) w = (r, after_email env o sid w) /\
    (r = Data tt <->
     JS.truthy_str (email (shipping (data (row o)))) = true /\ email_ok env o = true).
Proof.
  unfold emailService.sendPurchaseConfirmationEmail, after_email.
  destruct (JS.truthy_str _); cbn.
  - destruct (email_ok env o); cbn; eexists; split; try reflexivity;
      split; try discriminate; intuition discriminate.
  - eexists; split; [reflexivity|]. split; [discriminate|]. intuition discriminate.
Qed.

(** The guarded mail step of the webhook route. *)
Lemma run_email_webhook env (o : Order) sid w :
  run env
    (try_catch
       (if negb (JS.truthy_str (email (shipping (data (row o))))) then Ret tt
        else emailService.sendPurchaseConfirmationEmail o sid)
       (fun _ => Ret tt)) w
  = (Data tt, after_email env o sid w).
Proof.
  rewrite run_try_catch.
  destruct (JS.truthy_str (email (shipping (data (row o))))) eqn:E; cbn.
  - destruct (run_sendPurchaseConfirmationEmail env o sid w) as (r & Hr & _).
    rewrite Hr. destruct r as [[]|]; reflexivity.
  - unfold after_email. rewrite E. reflexivity.
Qed.

(** The guarded mail step of the client route. *)
Lemma run_email_client env (o : Order) (fallback : option string) sid w :
  run env
    (try_catch
       (if JS.truthy_opt (JS.or_opt (Some (email (shipping (data (row o))))) fallback)
        then emailService.sendPurchaseConfirmationEmail o sid
        else Ret tt)
       (fun _ => Ret tt)) w
  = (Data tt, after_email env o sid w).
Proof.
  rewrite run_try_catch.
  destruct (JS.truthy_opt _) eqn:E.
  - destruct (run_sendPurchaseConfirmationEmail env o sid w) as (r & Hr & _).
    rewrite Hr. destruct r as [[]|]; reflexivity.
  - cbn. unfold after_email.
    destruct (JS.truthy_str (email (shipping (data (row o))))) eqn:E'; [|reflexivity].
    cbn in E. rewrite E' in E. cbn in E. rewrite E' in E. discriminate.
Qed.

Lemma run_updateOrderStatus env oid st sid w :
  run env (supabaseService.updateOrderStatus oid st sid) w =
  match filter (has_id oid) (orders w) with
  | [r] =>
      if unique_session env && session_taken (Some oid) (session_arg sid) (orders w)
      then (Error ("Failed to update order status: " ++ duplicate_key), w)
      else (Data (bare (set_status st (session_arg sid) r)), updated oid st (session_arg sid) w)
  | _ => (Error ("Failed to update order status: " ++
                 "JSON object requested, multiple (or no) rows returned"), w)
  end.
Proof.
  unfold supabaseService.updateOrderStatus, session_arg, updated. cbn.
  destruct (filter (has_id oid) (orders w)) as [|r [|r' l]]; cbn; try reflexivity.
  destruct (unique_session env && _); reflexivity.
Qed.

(** *** The webhook route, path by path *)

Lemma run_webhook_completed env session w :
  run env (webhook (Some (completed_event session))) w =
  match run env (completed session) w with
  | (Data _, w') => (ok Received, w')
  | (Error m, w') => (failed 400 (ErrorBody ("Webhook Error: " ++ m)), w')
  end.
Proof.
  unfold webhook. rewrite run_try_catch. cbn -[completed run].
  rewrite run_bind. destruct (run env (completed session) w) as [[u|m] w']; reflexivity.
Qed.

Lemma run_completed env session w :
  run env (completed session) w =
  if String.eqb (payment_status session) "paid"
  then run env (completed_with session (find_by_session (session_id session) w)) w
  else (Data tt, w).
Proof.
  unfold completed. destruct (String.eqb _ _); [|reflexivity].
  rewrite run_bind, run_getOrderBySessionId. reflexivity.
Qed.

Lemma run_completed_create env session m w :
  metadata session = Some m ->
  run env (completed_with session None) w =
  let d := orderData_of m session (session_id session) in
  if unique_session env && session_taken None (Some (session_id session)) (orders w)
  then (Error ("Failed to create order: " ++ duplicate_key), log (OrderInsertRejected d) w)
  else (Data tt, materialized_webhook env m session w).
Proof.
  intros Hm. unfold completed_with. rewrite Hm.
  rewrite run_bind, run_try_catch, run_createOrder.
  cbn [stripe_session_id orderData_of].
  destruct (unique_session env && _); [reflexivity|].
  rewrite run_bind, run_items_webhook. cbv beta iota.
  rewrite run_email_webhook. reflexivity.
Qed.

Lemma run_completed_existing env session (o : Order) w :
  run env (completed_with session (Some o)) w =
  if String.eqb (status (data (row o))) "processing"
  then (Data tt, w)
  else match run env (supabaseService.updateOrderStatus (id (row o)) "processing"
                        (session_id session)) w with
       | (Data _, w') => (Data tt, w')
       | (Error m, w') => (Error m, w')
       end.
Proof.
  unfold completed_with. destruct (String.eqb _ _); cbn [negb]; [reflexivity|].
  rewrite run_bind. destruct (run env _ w) as [[?|?] ?]; reflexivity.
Qed.

Lemma run_webhook_async_failed env session w :
  run env (webhook (Some (async_failed_event session))) w =
  match find_by_session (session_id session) w with
  | Some o =>
      match run env (supabaseService.updateOrderStatus (id (row o)) "pending"
                       (session_id session)) w with
      | (Data _, w') => (ok Received, w')
      | (Error m, w') => (failed 400 (ErrorBody ("Webhook Error: " ++ m)), w')
      end
  | None => (ok Received, w)
  end.
Proof.
  unfold webhook. rewrite run_try_catch. cbn -[async_payment_failed run].
  rewrite run_bind. unfold async_payment_failed.
  rewrite run_bind, run_getOrderBySessionId.
  destruct (find_by_session _ w) as [o|]; [|reflexivity].
  rewrite run_bind.
  destruct (run env _ w) as [[?|?] ?]; reflexivity.
Qed.

(** *** The client route, path by path *)

Lemma run_client env sid w :
  JS.truthy_str sid = true ->
  run env (createOrderFromSession (Some sid)) w =
  match run env (createOrderFromSession_with sid (find_by_session sid w)) w with
  | (Data r, w') => (Data r, w')
  | (Error m, w') => (failed 500 (ErrorBody m), w')
  end.
Proof.
  intros Hs. unfold createOrderFromSession. rewrite run_try_catch.
  cbn [JS.or_null]. rewrite Hs.
  rewrite run_bind, run_getOrderBySessionId. reflexivity.
Qed.

Lemma run_client_existing env sid (o : Order) w :
  run env (createOrderFromSession_with sid (Some o)) w =
  (ok (OrderBody o "Order already created"), w).
Proof. reflexivity. Qed.

Lemma run_client_new env sid w :
  run env (createOrderFromSession_with sid None) w =
  match gateway env sid with
  | None => (Error "No such checkout.session", w)
  | Some session =>
      let w1 := log (SessionRetrieved sid) w in
      if negb (String.eqb (payment_status session) "paid")
      then (failed 400 (PaymentNotCompleted (payment_status session)), w1)
      else match metadata session with
           | None => (failed 400 (ErrorBody "Missing order data in session"), w1)
           | Some m =>
               let d := orderData_of m session sid in
               if unique_session env && session_taken None (Some sid) (orders w)
               then (Error ("Failed to create order: " ++ duplicate_key),
                     log (OrderInsertRejected d) w1)
               else (ok (OrderBody (client_order env m session sid w)
                           "Order created successfully"),
                     materialized_client env m session sid w)
           end
  end.
Proof.
  unfold createOrderFromSession_with.
  rewrite run_bind, run_retrieveCheckoutSession.
  destruct (gateway env sid) as [session|]; [|reflexivity].
  cbn zeta.
  destruct (negb (String.eqb (payment_status session) "paid")); [reflexivity|].
  destruct (metadata session) as [m|]; [|reflexivity].
  rewrite run_bind, run_createOrder.
  cbn [stripe_session_id orderData_of log orders].
  destruct (unique_session env && _); [reflexivity|].
  rewrite run_bind, run_items_client. cbv beta iota.
  rewrite run_bind, run_email_client.
  reflexivity.
Qed.

(* ================================================================= *)
(** ** Facts about the store *)

Lemma filter_nil_session_free sid l :
  filter (has_session sid) l = [] -> session_taken None (Some sid) l = false.
Proof.
  induction l as [|a l IH]; cbn; [reflexivity|].
  destruct (has_session sid a); [discriminate|]. exact IH.
Qed.

Lemma has_session_eq sid x :
  has_session sid x = true -> stripe_session_id (data x) = Some sid.
Proof.
  unfold has_session. destruct (stripe_session_id (data x)) as [s|]; [|discriminate].
  intros E. apply String.eqb_eq in E. now subst.
Qed.

Lemma filter_single_in {A} (f : A -> bool) l r :
  filter f l = [r] -> In r l /\ f r = true.
Proof.
  intros E. apply filter_In. rewrite E. now left.
Qed.

Lemma filter_single_only {A} (f : A -> bool) l r x :
  filter f l = [r] -> In x l -> f x = true -> x = r.
Proof.
  intros E Hin Hf.
  assert (H : In x (filter f l)) by (apply filter_In; now split).
  rewrite E in H. destruct H as [H|[]]. now symmetry.
Qed.

Lemma NoDup_ids_same l (x y : OrderRow) :
  NoDup (map id l) -> In x l -> In y l -> id x = id y -> x = y.
Proof.
  induction l as [|a l IH]; cbn; [tauto|].
  intros Hnd Hx Hy E. inversion Hnd as [|? ? Hnot Hnd']; subst.
  destruct Hx as [->|Hx], Hy as [->|Hy]; try reflexivity.
  - exfalso. apply Hnot. rewrite E. now apply in_map.
  - exfalso. apply Hnot. rewrite <- E. now apply in_map.
  - now apply IH.
Qed.

Lemma filter_has_id l r :
  NoDup (map id l) -> In r l -> filter (has_id (id r)) l = [r].
Proof.
  induction l as [|a l IH]; cbn; [tauto|].
  intros Hnd Hin. inversion Hnd as [|? ? Hnot Hnd']; subst.
  destruct Hin as [->|Hin].
  - unfold has_id at 1. rewrite Nat.eqb_refl. f_equal.
    clear IH Hnd Hnd'. induction l as [|b l IHl]; cbn; [reflexivity|].
    cbn in Hnot. unfold has_id at 1.
    destruct (Nat.eqb (id b) (id r)) eqn:E.
    + apply Nat.eqb_eq in E. exfalso. apply Hnot. now left.
    + apply IHl. intros H. apply Hnot. now right.
  - unfold has_id at 1. destruct (Nat.eqb (id a) (id r)) eqn:E.
    + apply Nat.eqb_eq in E. exfalso. apply Hnot. rewrite E. now apply in_map.
    + now apply IH.
Qed.

Lemma session_only_holder sid l r :
  filter (has_session sid) l = [r] ->
  forall s, session_taken (Some (id r)) s l = true -> s <> Some sid.
Proof.
  intros E s Ht ->. cbn in Ht. apply existsb_exists in Ht.
  destruct Ht as (x & Hin & Hx). apply andb_true_iff in Hx. destruct Hx as [Hs Hn].
  rewrite (filter_single_only _ _ _ _ E Hin Hs) in Hn.
  unfold has_id in Hn. rewrite Nat.eqb_refl in Hn. discriminate.
Qed.

Lemma session_arg_cases sid : session_arg sid = Some sid \/ session_arg sid = None.
Proof. unfold session_arg. destruct (JS.truthy_str sid); auto. Qed.

Lemma set_status_session st sid x :
  has_session sid x = true ->
  set_status st (session_arg sid) x = set_status st None x.
Proof.
  intros H. apply has_session_eq in H.
  destruct (session_arg_cases sid) as [-> | ->]; [|reflexivity].
  unfold set_status. now rewrite H.
Qed.

(** With one order per session and distinct identifiers, the update by
    identifier touches exactly the orders of the session. *)
Lemma update_by_id_is_mark sid st l r :
  NoDup (map id l) -> filter (has_session sid) l = [r] ->
  map (fun x => if has_id (id r) x then set_status st (session_arg sid) x else x) l
  = mark sid st l.
Proof.
  intros Hnd E. unfold mark. apply map_ext_in. intros x Hin.
  destruct (filter_single_in _ _ _ E) as [Hr Hsr].
  destruct (has_id (id r) x) eqn:Hid.
  - apply Nat.eqb_eq in Hid.
    rewrite (NoDup_ids_same l x r Hnd Hin Hr Hid), Hsr.
    now apply set_status_session.
  - destruct (has_session sid x) eqn:Hs; [|reflexivity].
    rewrite (filter_single_only _ _ _ _ E Hin Hs) in Hid.
    unfold has_id in Hid. rewrite Nat.eqb_refl in Hid. discriminate.
Qed.

Lemma mark_absent sid st l :
  filter (has_session sid) l = [] -> mark sid st l = l.
Proof.
  intros E. unfold mark. rewrite <- (map_id l) at 2. apply map_ext_in.
  intros x Hin. destruct (has_session sid x) eqn:Hs; [|reflexivity].
  assert (H : In x (filter (has_session sid) l)) by (apply filter_In; now split).
  rewrite E in H. destruct H.
Qed.

Lemma at_most_one {A} (l : list A) :
  (List.length l <= 1)%nat -> l = [] \/ exists r, l = [r].
Proof.
  destruct l as [|a [|b l]]; cbn; intros H; [now left|right; now exists a|lia].
Qed.

(** The status update of an order found by its session id. *)
Lemma run_update_found env sid st w r :
  NoDup (map id (orders w)) -> filter (has_session sid) (orders w) = [r] ->
  run env (supabaseService.updateOrderStatus (id r) st sid) w =
  (Data (bare (set_status st (session_arg sid) r)),
   {| orders := mark sid st (orders w); items := items w; next_id := next_id w;
      trace := trace w ++ [OrderUpdated (id r) st] |}).
Proof.
  intros Hnd E. rewrite run_updateOrderStatus.
  destruct (filter_single_in _ _ _ E) as [Hr Hsr].
  rewrite (filter_has_id _ _ Hnd Hr).
  assert (Hfree : session_taken (Some (id r)) (session_arg sid) (orders w) = false).
  { destruct (session_taken _ _ _) eqn:Ht; [|reflexivity].
    pose proof (session_only_holder _ _ _ E _ Ht) as Hne.
    destruct (session_arg_cases sid) as [Hs|Hs]; [congruence|].
    rewrite Hs in Ht. discriminate. }
  rewrite Hfree, andb_false_r. unfold updated.
  now rewrite (update_by_id_is_mark _ _ _ _ Hnd E).
Qed.

(** The item step and the mail step leave the orders alone. *)
Lemma orders_after_items env m oid w : orders (after_items env m oid w) = orders w.
Proof.
  unfold after_items. destruct (item_rows m oid) as [l|]; [|reflexivity].
  destruct (items_insert_ok env l); reflexivity.
Qed.

Lemma next_id_after_items env m oid w : next_id (after_items env m oid w) = next_id w.
Proof.
  unfold after_items. destruct (item_rows m oid) as [l|]; [|reflexivity].
  destruct (items_insert_ok env l); reflexivity.
Qed.

Lemma items_after_items env m oid w :
  items (after_items env m oid w) =
  items w ++ (if items_written env m oid
              then match item_rows m oid with Some l => l | None => [] end
              else []).
Proof.
  unfold after_items, items_written. destruct (item_rows m oid) as [l|].
  - destruct (items_insert_ok env l); cbn; [reflexivity|now rewrite app_nil_r].
  - now rewrite app_nil_r.
Qed.

Lemma trace_after_items env m oid w :
  trace (after_items env m oid w) = trace w ++ item_effects env m oid.
Proof.
  unfold after_items, item_effects. destruct (item_rows m oid) as [l|].
  - destruct (items_insert_ok env l); reflexivity.
  - now rewrite app_nil_r.
Qed.

Lemma store_after_email env o sid w : store_of (after_email env o sid w) = store_of w.
Proof.
  unfold after_email. destruct (JS.truthy_str _); [|reflexivity].
  destruct (email_ok env o); reflexivity.
Qed.

Lemma orders_after_email env o sid w : orders (after_email env o sid w) = orders w.
Proof. now pose proof (store_after_email env o sid w) as [= H _ _]. Qed.

Lemma items_after_email env o sid w : items (after_email env o sid w) = items w.
Proof. now pose proof (store_after_email env o sid w) as [= _ H _]. Qed.

Lemma next_id_after_email env o sid w : next_id (after_email env o sid w) = next_id w.
Proof. now pose proof (store_after_email env o sid w) as [= _ _ H]. Qed.

Lemma trace_after_email env o sid w :
  trace (after_email env o sid w) = trace w ++ mail_effects env o sid.
Proof.
  unfold after_email, mail_effects. destruct (JS.truthy_str _).
  - destruct (email_ok env o); reflexivity.
  - now rewrite app_nil_r.
Qed.

(** The order object of the client route is the row just inserted, with or
    without its items attached. *)
Lemma row_order_after_items env m (o : Order) w :
  In (row o) (orders w) ->
  row (order_after_items env m o w) = row o.
Proof.
  intros Hin. unfold order_after_items.
  destruct (items_written env m (id (row o))); [|reflexivity].
  unfold find_by_id. rewrite orders_after_items.
  destruct (filter (has_id (id (row o))) (orders w)) as [|r [|r' l]] eqn:E; cbn; try reflexivity.
  assert (H : In (row o) (filter (has_id (id (row o))) (orders w))).
  { apply filter_In. split; [exact Hin|]. unfold has_id. apply Nat.eqb_refl. }
  rewrite E in H. destruct H as [H|[]]. exact H.
Qed.

Lemma row_client_order env m session sid w :
  row (client_order env m session sid w) = new_row (orderData_of m session sid) w.
Proof.
  unfold client_order. rewrite row_order_after_items; [reflexivity|].
  cbn. apply in_or_app. right. now left.
Qed.

(** The two routes when they create the order of a session. *)
Lemma webhook_creates env session m w :
  payment_status session = "paid" ->
  metadata session = Some m ->
  filter (has_session (session_id session)) (orders w) = [] ->
  run env (webhook (Some (completed_event session))) w =
  (ok Received, materialized_webhook env m session w).
Proof.
  intros Hp Hm Hf.
  rewrite run_webhook_completed, run_completed, Hp. cbn [String.eqb Ascii.eqb Bool.eqb].
  unfold find_by_session. rewrite Hf. cbn [single].
  rewrite (run_completed_create _ _ _ _ Hm). cbv zeta.
  rewrite (filter_nil_session_free _ _ Hf), andb_false_r. reflexivity.
Qed.

Lemma client_creates env session m sid w :
  JS.truthy_str sid = true ->
  gateway env sid = Some session ->
  payment_status session = "paid" ->
  metadata session = Some m ->
  filter (has_session sid) (orders w) = [] ->
  run env (createOrderFromSession (Some sid)) w =
  (ok (OrderBody (client_order env m session sid w) "Order created successfully"),
   materialized_client env m session sid w).
Proof.
  intros Hs Hg Hp Hm Hf.
  rewrite (run_client _ _ _ Hs). unfold find_by_session. rewrite Hf. cbn [single].
  rewrite run_client_new, Hg. cbv zeta. rewrite Hp, Hm.
  cbn [String.eqb Ascii.eqb Bool.eqb negb].
  rewrite (filter_nil_session_free _ _ Hf), andb_false_r. reflexivity.
Qed.

Lemma orders_materialized_webhook env m session w :
  orders (materialized_webhook env m session w) =
  orders w ++ [new_row (orderData_of m session (session_id session)) w].
Proof.
  unfold materialized_webhook. now rewrite orders_after_email, orders_after_items.
Qed.

Lemma orders_materialized_client env m session sid w :
  orders (materialized_client env m session sid w) =
  orders w ++ [new_row (orderData_of m session sid) w].
Proof.
  unfold materialized_client. now rewrite orders_after_email, orders_after_items.
Qed.

(* ================================================================= *)
(** ** Unit price *)

(** C6 (as the code has it).  The unit price of a cart item is
    [round (basePrice * (1 - productDiscount/100))] when the product discount
    is positive, else [round (basePrice * (1 - eventDiscount/100))] when the
    event discount is positive, else [basePrice] itself, which is returned as
    it is and not rounded. *)
Theorem calculateUnitPrice_precedence {num : Type} {N : Pricing.JSNumber num}
    (item : Pricing.CartItem num) :
  Pricing.calculateUnitPrice item =
  let basePrice := Pricing.price (Pricing.product item) in
  if Pricing.positive (Pricing.discount_percentage (Pricing.product item))
  then Pricing.discounted basePrice (Pricing.discount_percentage (Pricing.product item))
  else if Pricing.positive (Pricing.activeEvent_discount item)
  then Pricing.discounted basePrice (Pricing.activeEvent_discount item)
  else basePrice.
Proof.
  unfold Pricing.calculateUnitPrice, Pricing.positive, Pricing.discounted, Pricing.and_gt_zero.
  cbv zeta.
  assert (T : forall x, Pricing.truthy x && Pricing.gt x (Pricing.lit 0)
                        = Pricing.gt x (Pricing.lit 0)).
  { intros x. destruct (Pricing.gt x (Pricing.lit 0)) eqn:E.
    - now rewrite (Pricing.gt_zero_truthy x E).
    - apply andb_false_r. }
  destruct (Pricing.discount_percentage (Pricing.product item)) as [d|].
  - rewrite T. destruct (Pricing.gt d (Pricing.lit 0)) eqn:Ed.
    + now rewrite T, Ed.
    + destruct (Pricing.activeEvent_discount item) as [e|].
      * rewrite T. destruct (Pricing.gt e (Pricing.lit 0)) eqn:Ee.
        -- now rewrite T, Ee.
        -- now rewrite Pricing.zero_falsy.
      * now rewrite Pricing.zero_falsy.
  - destruct (Pricing.activeEvent_discount item) as [e|].
    + rewrite T. destruct (Pricing.gt e (Pricing.lit 0)) eqn:Ee.
      * now rewrite T, Ee.
      * now rewrite Pricing.zero_falsy.
    + now rewrite Pricing.zero_falsy.
Qed.

(** C6 (as the claim words it) fails: a price of 10.5 without any discount
    comes back as 10.5, where the claim rounds it to 11. *)
Lemma unit_price_not_rounded_without_discount :
  Pricing.calculateUnitPrice fractional_item = (21 # 2) /\
  Pricing.spec_unit_price fractional_item = (11 # 1) /\
  ~ (Pricing.calculateUnitPrice fractional_item == Pricing.spec_unit_price fractional_item)%Q.
Proof.
  split; [reflexivity|]. split; [reflexivity|].
  intros H. vm_compute in H. discriminate.
Qed.

(** The scenario of the specification: price 1000 with a product discount of
    10 percent gives 900, whatever the event discount. *)
Example unit_price_scenario :
  (Pricing.calculateUnitPrice scenario_item == 900 # 1)%Q.
Proof. vm_compute. reflexivity. Qed.

(* ================================================================= *)
(** ** Order fields derived from the session metadata *)

(** C10.  On both creating routes the order is created with the amounts
    that [parseInt] reads from the metadata strings: an absent or empty
    [total] (or [discount_amount]) gives 0 and the order is created all the
    same, a fractional text such as 1849.5 gives its integer part 1849, and an
    absent currency gives SEK. *)
Theorem created_order_amounts_parsed env session m w :
  payment_status session = "paid" ->
  metadata session = Some m ->
  JS.truthy_str (session_id session) = true ->
  gateway env (session_id session) = Some session ->
  filter (has_session (session_id session)) (orders w) = [] ->
  let sid := session_id session in
  let d := orderData_of m session sid in
  let hook := webhook (Some (completed_event session)) in
  let call := createOrderFromSession (Some sid) in
  (response env hook w = ok Received /\
   orders (world_after env hook w) = orders w ++ [new_row d w]) /\
  (response env call w =
     ok (OrderBody (client_order env m session sid w) "Order created successfully") /\
   row (client_order env m session sid w) = new_row d w /\
   orders (world_after env call w) = orders w ++ [new_row d w]) /\
  total_amount d =
    match m_total m with
    | None | Some EmptyString => Some 0
    | Some s => JS.parseInt s
    end /\
  discount_amount d =
    match m_discount_amount m with
    | None | Some EmptyString => Some 0
    | Some s => JS.parseInt s
    end /\
  currency d =
    match m_currency m with
    | None | Some EmptyString => "SEK"
    | Some s => s
    end /\
  JS.parseInt "1849.5" = Some 1849.
Proof.
  intros Hp Hm Hs Hg Hf sid d hook call.
  subst hook call. unfold sid in *. clear sid. unfold response, world_after.
  rewrite (webhook_creates _ _ _ _ Hp Hm Hf).
  rewrite (client_creates _ _ _ _ _ Hs Hg Hp Hm Hf).
  cbn [fst snd].
  rewrite orders_materialized_webhook, orders_materialized_client, row_client_order.
  repeat split.
  - unfold d. cbn. destruct (m_total m) as [[|c s]|]; reflexivity.
  - unfold d. cbn. destruct (m_discount_amount m) as [[|c s]|]; reflexivity.
  - unfold d. cbn. destruct (m_currency m) as [[|c s]|]; reflexivity.
Qed.

(** The sample session on an empty store: total 1849.5, no discount amount,
    no currency. *)
Lemma created_order_amounts_parsed_witness :
  let session := paid_session "cs_1" in
  let d := orderData_of sample_metadata session "cs_1" in
  (payment_status session = "paid" /\
   metadata session = Some sample_metadata /\
   JS.truthy_str (session_id session) = true /\
   gateway (calm_env false) (session_id session) = Some session /\
   filter (has_session (session_id session)) (orders empty_world) = []) /\
  total_amount d = Some 1849 /\
  discount_amount d = Some 0 /\
  currency d = "SEK" /\
  orders (world_after (calm_env false) (webhook (Some (completed_event session))) empty_world)
    = [new_row d empty_world].
Proof.
  intros session d.
  split; [repeat split|].
  destruct (created_order_amounts_parsed (calm_env false) session sample_metadata
              empty_world eq_refl eq_refl eq_refl eq_refl eq_refl)
    as ((_ & Ho) & _ & Ht & Hd & Hc & _).
  exact (conj Ht (conj Hd (conj Hc Ho))).
Defined.

(* ================================================================= *)
(** ** The asynchronous failure signal *)

(** C7 (as the code has it).  On a store with distinct order identifiers
    in which the session has at most one order: when
    [checkout.session.async_payment_failed] arrives, the order of the
    session, whatever its status was, gets the status pending (so never
    cancelled) and nothing else in the store changes; when the session has
    no order nothing is written at all. *)
Theorem async_payment_failed_sets_pending env session w :
  NoDup (map id (orders w)) ->
  (List.length (filter (has_session (session_id session)) (orders w)) <= 1)%nat ->
  let sid := session_id session in
  let hook := webhook (Some (async_failed_event session)) in
  response env hook w = ok Received /\
  orders (world_after env hook w) = mark sid "pending" (orders w) /\
  items (world_after env hook w) = items w /\
  next_id (world_after env hook w) = next_id w /\
  trace (world_after env hook w) =
    trace w ++ map (fun r => OrderUpdated (id r) "pending")
                   (filter (has_session sid) (orders w)).
Proof.
  intros Hnd Hone sid hook. unfold response, world_after, hook.
  rewrite run_webhook_async_failed. unfold find_by_session. fold sid.
  destruct (at_most_one _ Hone) as [E|[r E]]; fold sid in E; rewrite E; cbn [single map_outcome].
  - rewrite (mark_absent _ _ _ E), app_nil_r. cbn. auto.
  - cbn [with_items row]. rewrite (run_update_found _ _ _ _ _ Hnd E). cbn. auto.
Qed.

(** A shipped order whose payment is reported failed becomes pending. *)
Lemma async_payment_failed_sets_pending_witness :
  let w := world_with_order "shipped" in
  let hook := webhook (Some (async_failed_event (paid_session "cs_1"))) in
  (NoDup (map id (orders w)) /\
   (List.length (filter (has_session "cs_1") (orders w)) <= 1)%nat) /\
  orders (world_after (calm_env true) hook w) = orders (world_with_order "pending").
Proof.
  intros w hook.
  assert (Hnd : NoDup (map id (orders w))).
  { cbn. constructor; [intros []|constructor]. }
  assert (Hone : (List.length (filter (has_session "cs_1") (orders w)) <= 1)%nat).
  { cbn. lia. }
  split; [split; assumption|].
  destruct (async_payment_failed_sets_pending (calm_env true) (paid_session "cs_1") w
              Hnd Hone) as (_ & Ho & _).
  exact Ho.
Defined.

(** C7 (as the claim words it) fails where the session has more than one
    order.  In the store a webhook and a client callback racing for session
    [cs_1] leave behind, with two orders of that session, the lookup with
    [.single()] comes back empty: the failed-payment event is acknowledged
    and both orders stay as they are, in status processing. *)
Lemma async_failed_skips_doubled_session :
  let w := snd (run_schedule (calm_env false) racing_schedule racing_pool empty_world) in
  let hook := webhook (Some (async_failed_event (paid_session "cs_1"))) in
  map (fun r => status (data r)) (session_orders "cs_1" w) = ["processing"; "processing"] /\
  response (calm_env false) hook w = ok Received /\
  orders (world_after (calm_env false) hook w) = orders w /\
  map (fun r => status (data r))
      (session_orders "cs_1" (world_after (calm_env false) hook w))
    = ["processing"; "processing"].
Proof. cbv zeta. repeat split. Qed.

(* ================================================================= *)
(** ** The payment status gate *)

(** C3 (as the code has it).  When the payment status is not paid no order
    is created on either route.  The webhook acknowledges the event and
    writes nothing.  The client route looks for an existing order first:
    if there is one it answers with it, successfully and without asking the
    payment processor; only when there is none does it read the session and
    answer 400 "payment not completed". *)
Theorem unpaid_creates_no_order env session w :
  payment_status session <> "paid" ->
  JS.truthy_str (session_id session) = true ->
  gateway env (session_id session) = Some session ->
  let sid := session_id session in
  let hook := webhook (Some (completed_event session)) in
  let call := createOrderFromSession (Some sid) in
  (response env hook w = ok Received /\ world_after env hook w = w) /\
  response env call w =
    match find_by_session sid w with
    | Some o => ok (OrderBody o "Order already created")
    | None => failed 400 (PaymentNotCompleted (payment_status session))
    end /\
  store_of (world_after env call w) = store_of w /\
  trace (world_after env call w) =
    trace w ++ match find_by_session sid w with
               | Some _ => []
               | None => [SessionRetrieved sid]
               end.
Proof.
  intros Hp Hs Hg sid hook call. subst hook call. unfold sid in *. clear sid.
  apply String.eqb_neq in Hp. unfold response, world_after.
  rewrite run_webhook_completed, run_completed, Hp.
  rewrite (run_client _ _ _ Hs).
  destruct (find_by_session (session_id session) w) as [o|].
  - rewrite run_client_existing. cbn. rewrite app_nil_r. auto.
  - rewrite run_client_new, Hg. cbv zeta. rewrite Hp. cbn. auto.
Qed.

(** An unpaid session without order: 400 and an untouched store. *)
Lemma unpaid_creates_no_order_witness :
  let session := unpaid_session "cs_9" in
  (payment_status session <> "paid" /\
   JS.truthy_str (session_id session) = true /\
   gateway unpaid_env (session_id session) = Some session) /\
  response unpaid_env (createOrderFromSession (Some "cs_9")) empty_world
    = failed 400 (PaymentNotCompleted "unpaid") /\
  store_of (world_after unpaid_env (createOrderFromSession (Some "cs_9")) empty_world)
    = store_of empty_world.
Proof.
  intros session.
  assert (Hp : payment_status session <> "paid") by discriminate.
  split; [repeat split; exact Hp|].
  destruct (unpaid_creates_no_order unpaid_env session empty_world Hp eq_refl eq_refl)
    as (_ & Hr & Hst & _).
  exact (conj Hr Hst).
Defined.

(** C3 (as the claim words it) fails: with an order already stored for the
    session and a payment status that is not paid, the client route answers
    200 with the stored order and never reads the payment session. *)
Lemma existing_order_answers_before_payment_check :
  let call := createOrderFromSession (Some "cs_1") in
  let w := world_with_order "processing" in
  gateway unpaid_env "cs_1" = Some (unpaid_session "cs_1") /\
  response unpaid_env call w =
    ok (OrderBody {| row := the_row "processing"; order_items := Some [the_item] |}
          "Order already created") /\
  response unpaid_env call w <> failed 400 (PaymentNotCompleted "unpaid") /\
  trace (world_after unpaid_env call w) = [].
Proof.
  cbv zeta. split; [reflexivity|]. split; [reflexivity|]. split; [|reflexivity].
  vm_compute. discriminate.
Qed.

(* ================================================================= *)
(** ** Creation: effects in order, failures of the item and mail steps *)

Lemma trace_materialized_webhook env m session w :
  let d := orderData_of m session (session_id session) in
  trace (materialized_webhook env m session w) =
  trace w ++ [OrderInserted (new_row d w)] ++ item_effects env m (next_id w)
          ++ mail_effects env (bare (new_row d w)) (session_id session).
Proof.
  cbv zeta. unfold materialized_webhook.
  rewrite trace_after_email, trace_after_items. cbn [inserted trace].
  now rewrite <- !app_assoc.
Qed.

Lemma trace_materialized_client env m session sid w :
  let d := orderData_of m session sid in
  trace (materialized_client env m session sid w) =
  trace w ++ [SessionRetrieved sid; OrderInserted (new_row d w)]
          ++ item_effects env m (next_id w)
          ++ mail_effects env (client_order env m session sid w) sid.
Proof.
  cbv zeta. unfold materialized_client.
  rewrite trace_after_email, trace_after_items. cbn [inserted log trace next_id new_row].
  now rewrite <- !app_assoc.
Qed.

Lemma items_materialized_webhook env m session w :
  items (materialized_webhook env m session w) =
  items (after_items env m (next_id w) w).
Proof.
  unfold materialized_webhook. rewrite items_after_email, !items_after_items. reflexivity.
Qed.

Lemma items_materialized_client env m session sid w :
  items (materialized_client env m session sid w) =
  items (after_items env m (next_id w) w).
Proof.
  unfold materialized_client. rewrite items_after_email, !items_after_items. reflexivity.
Qed.

Lemma client_order_items_failed env m session sid w :
  items_written env m (next_id w) = false ->
  client_order env m session sid w = bare (new_row (orderData_of m session sid) w).
Proof.
  intros H. unfold client_order, order_after_items. cbn [bare row id new_row log next_id].
  now rewrite H.
Qed.

(** C8.  When the item step throws after the order has been persisted
    (the JSON text is bad, or the store refuses the rows), the order stays
    in the store as it was inserted, no item is written, the mail step still
    runs on that order, and the route answers with success. *)
Theorem item_failure_keeps_order env session m w :
  payment_status session = "paid" ->
  metadata session = Some m ->
  JS.truthy_str (session_id session) = true ->
  gateway env (session_id session) = Some session ->
  filter (has_session (session_id session)) (orders w) = [] ->
  items_written env m (next_id w) = false ->
  let sid := session_id session in
  let d := orderData_of m session sid in
  let o := bare (new_row d w) in
  let hook := webhook (Some (completed_event session)) in
  let call := createOrderFromSession (Some sid) in
  (response env hook w = ok Received /\
   orders (world_after env hook w) = orders w ++ [new_row d w] /\
   items (world_after env hook w) = items w /\
   trace (world_after env hook w) =
     trace w ++ [OrderInserted (new_row d w)] ++ item_effects env m (next_id w)
             ++ mail_effects env o sid) /\
  (response env call w = ok (OrderBody o "Order created successfully") /\
   orders (world_after env call w) = orders w ++ [new_row d w] /\
   items (world_after env call w) = items w /\
   trace (world_after env call w) =
     trace w ++ [SessionRetrieved sid; OrderInserted (new_row d w)]
             ++ item_effects env m (next_id w) ++ mail_effects env o sid).
Proof.
  intros Hp Hm Hs Hg Hf Hi sid d o hook call.
  subst hook call o. unfold sid in *. clear sid. unfold response, world_after.
  rewrite (webhook_creates _ _ _ _ Hp Hm Hf).
  rewrite (client_creates _ _ _ _ _ Hs Hg Hp Hm Hf).
  cbn [fst snd].
  rewrite orders_materialized_webhook, orders_materialized_client.
  rewrite items_materialized_webhook, items_materialized_client.
  rewrite items_after_items, Hi, app_nil_r.
  pose proof (trace_materialized_webhook env m session w) as Tw.
  pose proof (trace_materialized_client env m session (session_id session) w) as Tc.
  cbv zeta in Tw, Tc. rewrite Tw, Tc.
  rewrite (client_order_items_failed _ _ _ _ _ Hi).
  repeat split.
Qed.

(** The store refuses the item rows: the order is there, without items,
    and the client route answers with it. *)
Lemma item_failure_keeps_order_witness :
  let session := paid_session "cs_1" in
  let d := orderData_of sample_metadata session "cs_1" in
  let call := createOrderFromSession (Some "cs_1") in
  (payment_status session = "paid" /\
   metadata session = Some sample_metadata /\
   JS.truthy_str (session_id session) = true /\
   gateway items_down_env (session_id session) = Some session /\
   filter (has_session (session_id session)) (orders empty_world) = [] /\
   items_written items_down_env sample_metadata (next_id empty_world) = false) /\
  response items_down_env call empty_world =
    ok (OrderBody (bare (new_row d empty_world)) "Order created successfully") /\
  orders (world_after items_down_env call empty_world) = [new_row d empty_world] /\
  items (world_after items_down_env call empty_world) = [].
Proof.
  intros session d call.
  split; [repeat split|].
  destruct (item_failure_keeps_order items_down_env session sample_metadata empty_world
              eq_refl eq_refl eq_refl eq_refl eq_refl eq_refl)
    as (_ & Hr & Ho & Hi & _).
  exact (conj Hr (conj Ho Hi)).
Defined.

(** C9.  When the dispatch of the confirmation mail fails, the webhook is
    still acknowledged and the client route still answers with success and
    the persisted order; orders and items are exactly what the insert and the
    item step left, and the failed dispatch is the last thing that happened. *)
Theorem email_failure_keeps_success env session m w :
  payment_status session = "paid" ->
  metadata session = Some m ->
  JS.truthy_str (session_id session) = true ->
  gateway env (session_id session) = Some session ->
  filter (has_session (session_id session)) (orders w) = [] ->
  (forall o, email_ok env o = false) ->
  let sid := session_id session in
  let d := orderData_of m session sid in
  let o := client_order env m session sid w in
  let hook := webhook (Some (completed_event session)) in
  let call := createOrderFromSession (Some sid) in
  (response env hook w = ok Received /\
   orders (world_after env hook w) = orders w ++ [new_row d w] /\
   items (world_after env hook w) = items (after_items env m (next_id w) w) /\
   trace (world_after env hook w) =
     trace w ++ [OrderInserted (new_row d w)] ++ item_effects env m (next_id w)
             ++ (if JS.truthy_str (email (shipping d))
                 then [EmailFailed (bare (new_row d w)) sid] else [])) /\
  (response env call w = ok (OrderBody o "Order created successfully") /\
   row o = new_row d w /\
   orders (world_after env call w) = orders w ++ [new_row d w] /\
   items (world_after env call w) = items (after_items env m (next_id w) w) /\
   trace (world_after env call w) =
     trace w ++ [SessionRetrieved sid; OrderInserted (new_row d w)]
             ++ item_effects env m (next_id w)
             ++ (if JS.truthy_str (email (shipping d))
                 then [EmailFailed o sid] else [])).
Proof.
  intros Hp Hm Hs Hg Hf He sid d o hook call.
  subst hook call o. unfold sid in *. clear sid. unfold response, world_after.
  rewrite (webhook_creates _ _ _ _ Hp Hm Hf).
  rewrite (client_creates _ _ _ _ _ Hs Hg Hp Hm Hf).
  cbn [fst snd].
  rewrite orders_materialized_webhook, orders_materialized_client.
  rewrite items_materialized_webhook, items_materialized_client.
  pose proof (trace_materialized_webhook env m session w) as Tw.
  pose proof (trace_materialized_client env m session (session_id session) w) as Tc.
  cbv zeta in Tw, Tc. rewrite Tw, Tc.
  unfold mail_effects. rewrite !He, row_client_order.
  repeat split.
Qed.

(** The mail provider refuses the message: success and one order. *)
Lemma email_failure_keeps_success_witness :
  let session := paid_session "cs_1" in
  let d := orderData_of sample_metadata session "cs_1" in
  let call := createOrderFromSession (Some "cs_1") in
  (payment_status session = "paid" /\
   metadata session = Some sample_metadata /\
   JS.truthy_str (session_id session) = true /\
   gateway mail_down_env (session_id session) = Some session /\
   filter (has_session (session_id session)) (orders empty_world) = [] /\
   (forall o, email_ok mail_down_env o = false)) /\
  response mail_down_env call empty_world =
    ok (OrderBody (client_order mail_down_env sample_metadata session "cs_1" empty_world)
          "Order created successfully") /\
  orders (world_after mail_down_env call empty_world) = [new_row d empty_world].
Proof.
  intros session d call.
  split; [repeat split|].
  destruct (email_failure_keeps_success mail_down_env session sample_metadata empty_world
              eq_refl eq_refl eq_refl eq_refl eq_refl (fun _ => eq_refl))
    as (_ & Hr & _ & Ho & _).
  exact (conj Hr Ho).
Defined.

(** C5 at the input where it fails.  A paid [checkout.session.completed]
    event for a session without order: the webhook route inserts the item
    and then dispatches the mail, but with the order object that the insert
    returned, on which no items are attached, so the message lists no line;
    the client route re-fetches the order and its message lists the item. *)
Theorem webhook_mail_without_items :
  let env := calm_env true in
  let session := paid_session "cs_1" in
  let r := new_row (orderData_of sample_metadata session "cs_1") empty_world in
  let hook := webhook (Some (completed_event session)) in
  let call := createOrderFromSession (Some "cs_1") in
  let full := {| row := r; order_items := Some [the_item] |} in
  (trace (world_after env hook empty_world) =
     [OrderInserted r; ItemsInserted [the_item]; EmailSent (bare r) "cs_1"] /\
   items (world_after env hook empty_world) = [the_item] /\
   emailService.email_lines (bare r) = []) /\
  (trace (world_after env call empty_world) =
     [SessionRetrieved "cs_1"; OrderInserted r; ItemsInserted [the_item];
      EmailSent full "cs_1"] /\
   items (world_after env call empty_world) = [the_item] /\
   emailService.email_lines full = [the_item]).
Proof. cbv zeta. repeat split. Qed.

(* ================================================================= *)
(** ** A rejected insert *)

Lemma step_webhook_lookup env session w :
  payment_status session = "paid" ->
  step_thread env (webhook (Some (completed_event session))) w =
  (webhook_in_flight session (find_by_session (session_id session) w), w).
Proof.
  intros Hp. unfold webhook, completed, webhook_in_flight, find_by_session.
  cbn [completed_event event_type event_object JS.truthy_str negb String.eqb
       Ascii.eqb Bool.eqb].
  rewrite Hp. cbn -[completed_with filter].
  destruct (single _); reflexivity.
Qed.

Lemma step_client_lookup env sid w :
  JS.truthy_str sid = true ->
  step_thread env (createOrderFromSession (Some sid)) w =
  (client_in_flight sid (find_by_session sid w), w).
Proof.
  intros Hs. unfold createOrderFromSession, client_in_flight, find_by_session.
  cbn [JS.or_null]. rewrite Hs. cbn -[createOrderFromSession_with filter].
  destruct (single _); reflexivity.
Qed.




(* ================================================================= *)
(** ** Statuses written by the routes *)

Lemma only_writes_refl P w : only_writes P w w.
Proof. intros r H. now left. Qed.

Lemma only_writes_same P w w' : orders w' = orders w -> only_writes P w w'.
Proof. intros E r H. left. now rewrite <- E. Qed.

Lemma only_writes_trans P w1 w2 w3 :
  only_writes P w1 w2 -> only_writes P w2 w3 -> only_writes P w1 w3.
Proof.
  intros H12 H23 r H. destruct (H23 r H) as [H2|H2]; [now apply H12|now right].
Qed.

Lemma exec_op_only_writes P env X (op : Op X) w :
  Forall P (op_statuses op) -> only_writes P w (snd (exec_op env op w)).
Proof.
  intros HP. destruct op; cbn in *.
  - destruct (unique_session env && _); cbn; [now apply only_writes_same|].
    intros r H. cbn in H. apply in_app_or in H. destruct H as [H|[<-|[]]]; [now left|].
    right. cbn. now inversion HP.
  - destruct (items_insert_ok env l); now apply only_writes_same.
  - destruct (filter (has_id oid) (orders w)) as [|r [|r' l]]; cbn;
      try now apply only_writes_same.
    destruct (unique_session env && _); cbn; [now apply only_writes_same|].
    intros x H. cbn in H. apply in_map_iff in H. destruct H as (y & <- & Hy).
    destruct (has_id oid y); [|now left].
    right. cbn. now inversion HP.
  - now apply only_writes_same.
  - now apply only_writes_same.
  - destruct (gateway env sid); now apply only_writes_same.
  - destruct (email_ok env o); now apply only_writes_same.
Qed.

Lemma run_only_writes P env R (p : Prog R) w :
  writes_within P p -> only_writes P w (snd (run env p w)).
Proof.
  intros H. revert w. induction H as [r|m|X op k HP Hk IH]; intros w; cbn.
  - apply only_writes_refl.
  - apply only_writes_refl.
  - pose proof (exec_op_only_writes P env X op w HP) as H1.
    destruct (exec_op env op w) as [x w1]. cbn in H1.
    eapply only_writes_trans; [exact H1|apply IH].
Qed.

Lemma ww_bind P A B (p : Prog A) (f : A -> Prog B) :
  writes_within P p -> (forall a, writes_within P (f a)) -> writes_within P (bind p f).
Proof.
  intros Hp Hf. induction Hp; cbn; [apply Hf|constructor|].
  constructor; assumption.
Qed.

Lemma ww_try_catch P A (p : Prog A) (h : string -> Prog A) :
  writes_within P p -> (forall m, writes_within P (h m)) -> writes_within P (try_catch p h).
Proof.
  intros Hp Hh. induction Hp; cbn; [constructor|apply Hh|].
  constructor; assumption.
Qed.

Lemma ww_await_op P X (op : Op X) :
  Forall P (op_statuses op) -> writes_within P (await op).
Proof. intros H. unfold await. constructor; [exact H|intros x; constructor]. Qed.

Lemma ww_createOrder P d : P (status d) -> writes_within P (supabaseService.createOrder d).
Proof.
  intros H. apply ww_bind; [apply ww_await_op; cbn; auto|].
  intros [o|m]; constructor.
Qed.

Lemma ww_addOrderItems P l : writes_within P (supabaseService.addOrderItems l).
Proof.
  apply ww_bind; [apply ww_await_op; constructor|].
  intros [o|m]; constructor.
Qed.

Lemma ww_updateOrderStatus P oid st sid :
  P st -> writes_within P (supabaseService.updateOrderStatus oid st sid).
Proof.
  intros H. apply ww_bind; [apply ww_await_op; cbn; auto|].
  intros [o|m]; constructor.
Qed.

Lemma ww_getOrderBySessionId P sid : writes_within P (supabaseService.getOrderBySessionId sid).
Proof.
  apply ww_bind; [apply ww_await_op; constructor|].
  intros [o|m]; constructor.
Qed.

Lemma ww_getOrderById P oid : writes_within P (supabaseService.getOrderById oid).
Proof.
  apply ww_bind; [apply ww_await_op; constructor|].
  intros [o|m]; constructor.
Qed.

Lemma ww_retrieveCheckoutSession P sid :
  writes_within P (stripeService.retrieveCheckoutSession sid).
Proof.
  apply ww_bind; [apply ww_await_op; constructor|].
  intros [o|m]; constructor.
Qed.

Lemma ww_sendPurchaseConfirmationEmail P o sid :
  writes_within P (emailService.sendPurchaseConfirmationEmail o sid).
Proof.
  apply ww_try_catch; [|intros m; constructor].
  destruct (negb _); [constructor|].
  apply ww_bind; [apply ww_await_op; constructor|].
  intros [u|m]; constructor.
Qed.

Lemma ww_orderItems_of P m o : writes_within P (orderItems_of m o).
Proof. unfold orderItems_of. destruct (m_items m) as [[l|]|]; constructor. Qed.

(** The status update of the three event handlers. *)
Lemma ww_update_then_done st oid sid :
  coordinator_status st ->
  writes_within coordinator_status
    (bind (supabaseService.updateOrderStatus oid st sid) (fun _ => Ret tt)).
Proof.
  intros H. apply ww_bind; [now apply ww_updateOrderStatus|]. intros o. constructor.
Qed.

Lemma ww_completed_with session found :
  writes_within coordinator_status (completed_with session found).
Proof.
  unfold completed_with. destruct found as [o|].
  - destruct (negb _); [|constructor].
    apply ww_update_then_done. now left.
  - destruct (metadata session) as [m|]; [|constructor].
    apply ww_bind.
    + apply ww_try_catch; [|intros e; constructor].
      apply ww_createOrder. now left.
    + intros order. apply ww_bind.
      * apply ww_try_catch; [|intros e; constructor].
        apply ww_bind; [apply ww_orderItems_of|intros l; apply ww_addOrderItems].
      * intros _. apply ww_try_catch; [|intros e; constructor].
        destruct (negb _); [constructor|apply ww_sendPurchaseConfirmationEmail].
Qed.

Lemma ww_webhook reqBody : writes_within coordinator_status (webhook reqBody).
Proof.
  unfold webhook. apply ww_try_catch; [|intros m; constructor].
  destruct reqBody as [event|]; [|constructor].
  destruct (negb _); [constructor|].
  apply ww_bind; [|intros _; constructor].
  destruct (String.eqb (event_type event) "checkout.session.completed").
  { unfold completed. destruct (String.eqb _ _); [|constructor].
    apply ww_bind; [apply ww_getOrderBySessionId|intros found; apply ww_completed_with]. }
  destruct (String.eqb (event_type event) "checkout.session.async_payment_succeeded").
  { apply ww_bind; [apply ww_getOrderBySessionId|].
    intros [o|]; [|constructor]. apply ww_update_then_done. now left. }
  destruct (String.eqb (event_type event) "checkout.session.async_payment_failed").
  { apply ww_bind; [apply ww_getOrderBySessionId|].
    intros [o|]; [|constructor]. apply ww_update_then_done. now right. }
  constructor.
Qed.

Lemma ww_createOrderFromSession sessionId :
  writes_within coordinator_status (createOrderFromSession sessionId).
Proof.
  unfold createOrderFromSession. apply ww_try_catch; [|intros m; constructor].
  destruct (JS.or_null sessionId) as [sid|]; [|constructor].
  apply ww_bind; [apply ww_getOrderBySessionId|].
  intros [existing|]; [constructor|].
  unfold createOrderFromSession_with.
  apply ww_bind; [apply ww_retrieveCheckoutSession|]. intros session.
  destruct (negb _); [constructor|].
  destruct (metadata session) as [m|]; [|constructor].
  apply ww_bind; [apply ww_createOrder; now left|]. intros order.
  apply ww_bind.
  - apply ww_try_catch; [|intros e; constructor].
    apply ww_bind; [apply ww_orderItems_of|]. intros l.
    apply ww_bind; [apply ww_addOrderItems|]. intros _.
    apply ww_bind; [apply ww_getOrderById|]. intros [full|]; constructor.
  - intros order'. apply ww_bind; [|intros _; constructor].
    apply ww_try_catch; [|intros e; constructor].
    destruct (JS.truthy_opt _); [apply ww_sendPurchaseConfirmationEmail|constructor].
Qed.

Lemma materialize_only_writes env t w :
  only_writes coordinator_status w (after env t w).
Proof.
  unfold after. apply run_only_writes. destruct t as [event|sessionId].
  - exact (ww_webhook (Some event)).
  - exact (ww_createOrderFromSession (Some sessionId)).
Qed.

(* ================================================================= *)
(** ** The duplicate signal *)

Lemma set_status_same st x :
  status (data x) = st -> set_status st None x = x.
Proof.
  intros <-. destruct x as [i d]. destruct d. reflexivity.
Qed.

Lemma mark_unchanged sid st l r :
  filter (has_session sid) l = [r] -> status (data r) = st -> mark sid st l = l.
Proof.
  intros E Hst. unfold mark. rewrite <- (map_id l) at 2. apply map_ext_in.
  intros x Hin. destruct (has_session sid x) eqn:Hs; [|reflexivity].
  rewrite (filter_single_only _ _ _ _ E Hin Hs). now apply set_status_same.
Qed.

(** C4 (as the code has it).  When an order exists for the session: the
    client route answers with it and writes nothing; the webhook route
    acknowledges the event and sets the status to processing whenever the
    stored status is anything else than processing (so also when it is
    shipped, delivered or cancelled), touching nothing else.  No route ever
    stores a status other than processing or pending: a row with status
    shipped, delivered or cancelled after a run was there before it. *)
Theorem duplicate_signal_status env session w r :
  NoDup (map id (orders w)) ->
  filter (has_session (session_id session)) (orders w) = [r] ->
  payment_status session = "paid" ->
  JS.truthy_str (session_id session) = true ->
  let sid := session_id session in
  let hook := webhook (Some (completed_event session)) in
  let call := createOrderFromSession (Some sid) in
  (response env call w = ok (OrderBody (with_items w r) "Order already created") /\
   world_after env call w = w) /\
  (response env hook w = ok Received /\
   orders (world_after env hook w) = mark sid "processing" (orders w) /\
   items (world_after env hook w) = items w /\
   next_id (world_after env hook w) = next_id w /\
   trace (world_after env hook w) =
     trace w ++ (if String.eqb (status (data r)) "processing" then []
                 else [OrderUpdated (id r) "processing"])) /\
  (forall t w0 x,
     In x (orders (after env t w0)) ->
     In x (orders w0) \/ status (data x) = "processing" \/ status (data x) = "pending").
Proof.
  intros Hnd E Hp Hs sid hook call. subst hook call. unfold sid in *. clear sid.
  unfold response, world_after. split; [|split].
  - rewrite (run_client _ _ _ Hs). unfold find_by_session. rewrite E. cbn. auto.
  - rewrite run_webhook_completed, run_completed, Hp.
    cbn [String.eqb Ascii.eqb Bool.eqb].
    unfold find_by_session. rewrite E. cbn [single map_outcome].
    rewrite run_completed_existing. cbn [with_items row].
    destruct (String.eqb (status (data r)) "processing") eqn:Est.
    + apply String.eqb_eq in Est. cbn [fst snd].
      rewrite (mark_unchanged _ _ _ _ E Est), app_nil_r. auto.
    + rewrite (run_update_found _ _ _ _ _ Hnd E). cbn. auto.
  - intros t w0 x Hx. exact (materialize_only_writes env t w0 x Hx).
Qed.

(** A repeated event for a pending order makes it processing. *)
Lemma duplicate_signal_status_witness :
  let session := paid_session "cs_1" in
  let w := world_with_order "pending" in
  let hook := webhook (Some (completed_event session)) in
  (NoDup (map id (orders w)) /\
   filter (has_session (session_id session)) (orders w) = [the_row "pending"] /\
   payment_status session = "paid" /\
   JS.truthy_str (session_id session) = true) /\
  response (calm_env true) hook w = ok Received /\
  orders (world_after (calm_env true) hook w) = orders (world_with_order "processing").
Proof.
  intros session w hook.
  assert (Hnd : NoDup (map id (orders w))).
  { cbn. constructor; [intros []|constructor]. }
  split; [repeat split; exact Hnd|].
  destruct (duplicate_signal_status (calm_env true) session w (the_row "pending")
              Hnd eq_refl eq_refl eq_refl) as (_ & (Hr & Ho & _) & _).
  exact (conj Hr Ho).
Defined.

(** C4 (as the claim words it) fails: a repeated
    [checkout.session.completed] event for an order that is already shipped
    sets it back to processing. *)
Lemma repeated_event_resets_shipped_order :
  let hook := webhook (Some (completed_event (paid_session "cs_1"))) in
  let w := world_with_order "shipped" in
  map (fun r => status (data r)) (orders w) = ["shipped"] /\
  map (fun r => status (data r)) (orders (world_after (calm_env true) hook w))
    = ["processing"] /\
  trace (world_after (calm_env true) hook w) = [OrderUpdated 0 "processing"].
Proof. cbv zeta. repeat split. Qed.

(* ================================================================= *)
(** ** One invocation at a time *)

Lemma run_async env st session w :
  run env
    (bind (supabaseService.getOrderBySessionId (session_id session)) (fun order =>
       match order with
       | Some order =>
           bind (supabaseService.updateOrderStatus (id (row order)) st (session_id session))
                (fun _ => Ret tt)
       | None => Ret tt
       end)) w =
  match find_by_session (session_id session) w with
  | Some o =>
      match run env (supabaseService.updateOrderStatus (id (row o)) st
                       (session_id session)) w with
      | (Data _, w') => (Data tt, w')
      | (Error m, w') => (Error m, w')
      end
  | None => (Data tt, w)
  end.
Proof.
  rewrite run_bind, run_getOrderBySessionId.
  destruct (find_by_session _ w) as [o|]; [|reflexivity].
  rewrite run_bind. destruct (run env _ w) as [[?|?] ?]; reflexivity.
Qed.

(** The world after the webhook route is the world after the handler of
    the event type. *)
Lemma webhook_world env event w :
  snd (run env (webhook (Some event)) w) =
  if negb (JS.truthy_str (event_type event)) then w
  else if String.eqb (event_type event) "checkout.session.completed"
  then snd (run env (completed (event_object event)) w)
  else if String.eqb (event_type event) "checkout.session.async_payment_succeeded"
  then snd (run env (async_payment_succeeded (event_object event)) w)
  else if String.eqb (event_type event) "checkout.session.async_payment_failed"
  then snd (run env (async_payment_failed (event_object event)) w)
  else w.
Proof.
  unfold webhook. rewrite run_try_catch.
  destruct (negb (JS.truthy_str (event_type event))); [reflexivity|].
  rewrite run_bind.
  destruct (String.eqb (event_type event) "checkout.session.completed").
  { destruct (run env _ w) as [[?|?] ?]; reflexivity. }
  destruct (String.eqb (event_type event) "checkout.session.async_payment_succeeded").
  { destruct (run env _ w) as [[?|?] ?]; reflexivity. }
  destruct (String.eqb (event_type event) "checkout.session.async_payment_failed").
  { destruct (run env _ w) as [[?|?] ?]; reflexivity. }
  reflexivity.
Qed.

Section Transition.
Variable env : Env.
Variable w : World.
Hypothesis Hnd : NoDup (map id (orders w)).
Hypothesis Hone : forall sid, (List.length (session_orders sid w) <= 1)%nat.

Lemma lookup_cases sid :
  (session_orders sid w = [] /\ find_by_session sid w = None) \/
  (exists r, session_orders sid w = [r] /\ find_by_session sid w = Some (with_items w r)).
Proof.
  unfold find_by_session. fold (session_orders sid w).
  destruct (at_most_one _ (Hone sid)) as [E|[r E]]; rewrite E; cbn; eauto.
Qed.

Lemma async_transition t st session :
  trigger_session t = session_id session ->
  transition env t w
    (snd (run env
       (bind (supabaseService.getOrderBySessionId (session_id session)) (fun order =>
          match order with
          | Some order =>
              bind (supabaseService.updateOrderStatus (id (row order)) st
                      (session_id session))
                   (fun _ => Ret tt)
          | None => Ret tt
          end)) w)).
Proof.
  intros Ht. rewrite run_async.
  destruct (lookup_cases (session_id session)) as [[E F]|(r & E & F)]; rewrite F.
  - now apply tr_same.
  - cbn [with_items row]. rewrite (run_update_found _ _ _ _ _ Hnd E). cbn [snd].
    apply (tr_status _ _ _ _ st r); rewrite ?Ht; auto.
Qed.

Lemma completed_transition event :
  transition env (WebhookEvent event) w (snd (run env (completed (event_object event)) w)).
Proof.
  set (session := event_object event).
  rewrite run_completed.
  destruct (String.eqb (payment_status session) "paid"); [|now apply tr_same].
  destruct (lookup_cases (session_id session)) as [[E F]|(r & E & F)]; rewrite F.
  - destruct (metadata session) as [m|] eqn:Hm.
    + rewrite (run_completed_create _ _ _ _ Hm). cbv zeta.
      rewrite (filter_nil_session_free _ _ E), andb_false_r. cbn [snd].
      apply (tr_create _ _ _ _ m (orderData_of m session (session_id session))
               (if items_written env m (next_id w)
                then match item_rows m (next_id w) with Some l => l | None => [] end
                else [])).
      * exact Hm.
      * exact E.
      * reflexivity.
      * apply orders_materialized_webhook.
      * unfold materialized_webhook. cbv zeta.
        now rewrite next_id_after_email, next_id_after_items.
      * rewrite items_materialized_webhook. apply items_after_items.
      * unfold items_written. destruct (item_rows m (next_id w)) as [l|]; [|now left].
        destruct (items_insert_ok env l); auto.
    + unfold completed_with. rewrite Hm. now apply tr_same.
  - rewrite run_completed_existing. cbn [with_items row].
    destruct (String.eqb (status (data r)) "processing"); [now apply tr_same|].
    rewrite (run_update_found _ _ _ _ _ Hnd E). cbn [snd].
    now apply (tr_status _ _ _ _ "processing" r).
Qed.

Lemma client_transition sid :
  transition env (ClientCallback sid) w (snd (run env (createOrderFromSession (Some sid)) w)).
Proof.
  destruct (JS.truthy_str sid) eqn:Hs.
  2:{ unfold createOrderFromSession. cbn [JS.or_null]. rewrite Hs. now apply tr_same. }
  rewrite (run_client _ _ _ Hs).
  destruct (lookup_cases sid) as [[E F]|(r & E & F)]; rewrite F.
  2:{ rewrite run_client_existing. now apply tr_same. }
  rewrite run_client_new.
  destruct (gateway env sid) as [session|] eqn:Hg; [|now apply tr_same].
  cbv zeta.
  destruct (negb (String.eqb (payment_status session) "paid")); [now apply tr_same|].
  destruct (metadata session) as [m|] eqn:Hm; [|now apply tr_same].
  rewrite (filter_nil_session_free _ _ E), andb_false_r. unfold ok. cbn [snd].
  apply (tr_create _ _ _ _ m (orderData_of m session sid)
           (if items_written env m (next_id w)
            then match item_rows m (next_id w) with Some l => l | None => [] end
            else [])).
  - cbn. now rewrite Hg.
  - exact E.
  - reflexivity.
  - apply orders_materialized_client.
  - unfold materialized_client. cbv zeta.
    now rewrite next_id_after_email, next_id_after_items.
  - rewrite items_materialized_client. apply items_after_items.
  - unfold items_written. destruct (item_rows m (next_id w)) as [l|]; [|now left].
    destruct (items_insert_ok env l); auto.
Qed.

Lemma materialize_transition t : transition env t w (after env t w).
Proof.
  unfold after. destruct t as [event|sid]; cbn [materialize].
  - rewrite webhook_world.
    destruct (negb (JS.truthy_str (event_type event))); [now apply tr_same|].
    destruct (String.eqb (event_type event) "checkout.session.completed").
    { apply completed_transition. }
    destruct (String.eqb (event_type event) "checkout.session.async_payment_succeeded").
    { now apply async_transition. }
    destruct (String.eqb (event_type event) "checkout.session.async_payment_failed").
    { now apply async_transition. }
    now apply tr_same.
  - apply client_transition.
Qed.

End Transition.

(** *** Marking a status keeps identifiers and sessions *)

Lemma map_id_mark sid st l : map id (mark sid st l) = map id l.
Proof.
  unfold mark. rewrite map_map. apply map_ext. intros x.
  now destruct (has_session sid x).
Qed.

Lemma has_session_marked s sid st x :
  has_session s (if has_session sid x then set_status st None x else x) = has_session s x.
Proof. now destruct (has_session sid x). Qed.

Lemma session_orders_mark_length s sid st l :
  List.length (filter (has_session s) (mark sid st l)) =
  List.length (filter (has_session s) l).
Proof.
  induction l as [|x l IH]; [reflexivity|].
  cbn [mark map filter]. fold (mark sid st l). rewrite has_session_marked.
  destruct (has_session s x); cbn [List.length]; now rewrite IH.
Qed.

Lemma item_of_session_mark s sid st l it :
  item_of_session s (mark sid st l) it = item_of_session s l it.
Proof.
  unfold item_of_session. induction l as [|x l IH]; [reflexivity|].
  cbn [mark map existsb]. fold (mark sid st l). rewrite has_session_marked, IH.
  now destruct (has_session sid x).
Qed.

Lemma in_mark_id sid st l r :
  In r (mark sid st l) -> exists x, In x l /\ id x = id r.
Proof.
  unfold mark. intros H. apply in_map_iff in H. destruct H as (x & <- & Hx).
  exists x. split; [exact Hx|]. now destruct (has_session sid x).
Qed.

(** *** Every invocation keeps the store well formed *)

Lemma item_rows_order_id m oid rows it :
  item_rows m oid = Some rows -> In it rows -> order_id it = oid.
Proof.
  unfold item_rows. destruct (m_items m) as [[l|]|]; intros [= <-] Hin.
  - apply in_map_iff in Hin. now destruct Hin as (j & <- & _).
  - destruct Hin.
Qed.

Lemma item_rows_length m oid rows :
  item_rows m oid = Some rows -> List.length rows = item_count m.
Proof.
  unfold item_rows, item_count. destruct (m_items m) as [[l|]|]; intros [= <-].
  - apply length_map.
  - reflexivity.
Qed.

Lemma has_session_new_row s sid d w :
  stripe_session_id d = Some sid ->
  has_session s (new_row d w) = String.eqb sid s.
Proof. intros H. unfold has_session. cbn. now rewrite H. Qed.

Lemma transition_store_ok env t w w' :
  store_ok w -> transition env t w w' -> store_ok w'.
Proof.
  intros [Hnd Hid Hit Hone] [Hsame | st r E Ho Hi Hn | m d rows Hm E Hd Ho Hn Hi Hrows].
  - injection Hsame as Eo Ei En. unfold session_orders in *.
    constructor; unfold session_orders; rewrite ?Eo, ?Ei, ?En; assumption.
  - constructor; unfold session_orders; rewrite ?Ho, ?Hi, ?Hn.
    + now rewrite map_id_mark.
    + intros x Hx. apply in_mark_id in Hx. destruct Hx as (y & Hy & <-). now apply Hid.
    + exact Hit.
    + intros s. rewrite session_orders_mark_length. apply Hone.
  - constructor; unfold session_orders; rewrite ?Ho, ?Hi, ?Hn.
    + rewrite map_app. cbn [map new_row id].
      apply NoDup_app; [exact Hnd|repeat constructor; intros []|].
      intros i Hin [<-|[]]. apply in_map_iff in Hin.
      destruct Hin as (x & Hx1 & Hx2). apply Hid in Hx2. lia.
    + intros x Hx. apply in_app_or in Hx. destruct Hx as [Hx|[<-|[]]].
      * apply Hid in Hx. lia.
      * cbn. lia.
    + intros it Hx. apply in_app_or in Hx. destruct Hx as [Hx|Hx].
      * apply Hit in Hx. lia.
      * destruct Hrows as [->|Hr]; [destruct Hx|].
        rewrite (item_rows_order_id _ _ _ _ Hr Hx). lia.
    + intros s. rewrite filter_app, length_app. cbn [filter].
      rewrite (has_session_new_row _ _ _ _ Hd).
      destruct (String.eqb (trigger_session t) s) eqn:Es.
      * apply String.eqb_eq in Es. subst s. unfold session_orders in E.
        rewrite E. cbn. lia.
      * cbn. specialize (Hone s). unfold session_orders in Hone. lia.
Qed.

Lemma after_store_ok env t w : store_ok w -> store_ok (after env t w).
Proof.
  intros H. apply (transition_store_ok env t w); [exact H|].
  apply materialize_transition; [apply (ids_distinct _ H)|apply (one_per_session _ H)].
Qed.

Lemma after_all_store_ok env ts w : store_ok w -> store_ok (after_all env ts w).
Proof.
  revert w. induction ts as [|t ts IH]; intros w H; [exact H|].
  cbn. apply IH. now apply after_store_ok.
Qed.

(** *** Items of a session *)

Lemma no_order_no_items sid w :
  session_orders sid w = [] -> session_items sid w = [].
Proof.
  unfold session_orders, session_items. intros E.
  assert (H : forall it, item_of_session sid (orders w) it = false).
  { intros it. unfold item_of_session.
    destruct (existsb _ (orders w)) eqn:Ex; [|reflexivity].
    apply existsb_exists in Ex. destruct Ex as (r & Hin & Hr).
    apply andb_true_iff in Hr. destruct Hr as [Hs _].
    assert (Hf : In r (filter (has_session sid) (orders w))) by (apply filter_In; auto).
    rewrite E in Hf. destruct Hf. }
  induction (items w) as [|it l IH]; [reflexivity|].
  cbn. now rewrite H.
Qed.

Lemma item_of_session_old sid l it oid :
  (forall r, In r l -> (id r < oid)%nat) -> order_id it = oid ->
  item_of_session sid l it = false.
Proof.
  intros Hid Hit. unfold item_of_session.
  destruct (existsb _ l) eqn:Ex; [|reflexivity].
  apply existsb_exists in Ex. destruct Ex as (r & Hin & Hr).
  apply andb_true_iff in Hr. destruct Hr as [_ Hr]. apply Nat.eqb_eq in Hr.
  apply Hid in Hin. lia.
Qed.

Lemma item_of_session_app sid l r it :
  item_of_session sid (l ++ [r]) it =
  item_of_session sid l it || (has_session sid r && Nat.eqb (id r) (order_id it)).
Proof.
  unfold item_of_session. rewrite existsb_app. cbn. now rewrite orb_false_r.
Qed.

Lemma filter_all {A} (f : A -> bool) l :
  (forall x, In x l -> f x = true) -> filter f l = l.
Proof.
  induction l as [|a l IH]; intros H; [reflexivity|].
  cbn. rewrite (H a (or_introl eq_refl)). f_equal. apply IH. intros x Hx. apply H. now right.
Qed.

Lemma filter_none {A} (f : A -> bool) l :
  (forall x, In x l -> f x = false) -> filter f l = [].
Proof.
  induction l as [|a l IH]; intros H; [reflexivity|].
  cbn. rewrite (H a (or_introl eq_refl)). apply IH. intros x Hx. apply H. now right.
Qed.

Lemma filter_same {A} (f g : A -> bool) l :
  (forall x, In x l -> f x = g x) -> filter f l = filter g l.
Proof.
  induction l as [|a l IH]; intros H; [reflexivity|].
  cbn. rewrite (H a (or_introl eq_refl)), IH; [reflexivity|].
  intros x Hx. apply H. now right.
Qed.

(** The items of a session after one invocation: those of before, or, when
    the invocation created the order of that very session, the rows it
    wrote. *)
Lemma transition_session_items env t sid w w' :
  store_ok w -> transition env t w w' ->
  session_items sid w' = session_items sid w \/
  (trigger_session t = sid /\ session_orders sid w = [] /\
   exists m, payload env t = Some m /\
             List.length (session_items sid w') = item_count m).
Proof.
  intros [Hnd Hid Hit Hone] [Hsame | st r E Ho Hi Hn | m d rows Hm E Hd Ho Hn Hi Hrows].
  - left. injection Hsame as Eo Ei En. unfold session_items. now rewrite Eo, Ei.
  - left. unfold session_items. rewrite Ho, Hi.
    apply filter_same. intros it _. apply item_of_session_mark.
  - unfold session_items at 1 3. rewrite Ho, Hi, filter_app.
    assert (Hold : filter (item_of_session sid (orders w ++ [new_row d w])) (items w)
                   = session_items sid w).
    { unfold session_items. apply filter_same. intros it Hin.
      rewrite item_of_session_app. cbn [new_row id].
      apply Hit in Hin.
      assert (Hne : Nat.eqb (next_id w) (order_id it) = false) by (apply Nat.eqb_neq; lia).
      now rewrite Hne, andb_false_r, orb_false_r. }
    rewrite Hold.
    destruct Hrows as [->|Hr]; [left; cbn; apply app_nil_r|].
    assert (Hnew : forall it, In it rows ->
              item_of_session sid (orders w ++ [new_row d w]) it
              = String.eqb (trigger_session t) sid).
    { intros it Hin. rewrite item_of_session_app.
      pose proof (item_rows_order_id _ _ _ _ Hr Hin) as Hoid.
      rewrite (item_of_session_old sid (orders w) it (next_id w) Hid Hoid).
      rewrite (has_session_new_row _ _ _ _ Hd). cbn [new_row id].
      rewrite Hoid, Nat.eqb_refl. now rewrite andb_true_r. }
    destruct (String.eqb (trigger_session t) sid) eqn:Es.
    + right. apply String.eqb_eq in Es. subst sid. split; [reflexivity|].
      split; [exact E|]. exists m. split; [exact Hm|].
      rewrite (no_order_no_items _ _ E), (filter_all _ _ Hnew). cbn [app].
      exact (item_rows_length _ _ _ Hr).
    + left. rewrite (filter_none _ _ Hnew). apply app_nil_r.
Qed.

(** *** A store that enforces the constraint, under any interleaving *)

Lemma existsb_false_filter {A} (f : A -> bool) l :
  existsb f l = false -> filter f l = [].
Proof.
  induction l as [|a l IH]; cbn; [reflexivity|].
  destruct (f a); [discriminate|]. exact IH.
Qed.

Lemma filter_map_length {A B} (p : B -> bool) (f : A -> B) l :
  List.length (filter p (map f l)) = List.length (filter (fun x => p (f x)) l).
Proof.
  induction l as [|a l IH]; [reflexivity|].
  cbn. destruct (p (f a)); cbn; now rewrite IH.
Qed.

Lemma filter_length_le {A} (p q : A -> bool) l :
  (forall x, p x = true -> q x = true) ->
  (List.length (filter p l) <= List.length (filter q l))%nat.
Proof.
  intros H. induction l as [|a l IH]; [reflexivity|].
  cbn. destruct (p a) eqn:Ep.
  - rewrite (H a Ep). cbn. lia.
  - destruct (q a); cbn; lia.
Qed.

Lemma insert_keeps_unique l i d :
  sessions_unique l ->
  session_taken None (stripe_session_id d) l = false ->
  sessions_unique (l ++ [{| id := i; data := d |}]).
Proof.
  intros Hu Ht s. rewrite filter_app, length_app. cbn [filter].
  unfold has_session at 2. cbn [data].
  destruct (stripe_session_id d) as [sid|]; [|cbn; specialize (Hu s); lia].
  destruct (String.eqb sid s) eqn:Es; [|cbn; specialize (Hu s); lia].
  apply String.eqb_eq in Es. subst s.
  cbn in Ht.
  assert (E : filter (has_session sid) l = []).
  { apply existsb_false_filter. rewrite <- Ht. clear.
    induction l as [|a l IH]; cbn; [reflexivity|]. now rewrite andb_true_r, IH. }
  rewrite E. cbn. lia.
Qed.

Lemma update_keeps_unique l oid st sid r :
  sessions_unique l ->
  filter (has_id oid) l = [r] ->
  session_taken (Some oid) sid l = false ->
  sessions_unique (map (fun x => if has_id oid x then set_status st sid x else x) l).
Proof.
  intros Hu Hr Ht s. rewrite filter_map_length.
  destruct sid as [sid|].
  - destruct (String.eqb sid s) eqn:Es.
    + apply String.eqb_eq in Es. subst s.
      replace (filter _ l) with (filter (has_id oid) l); [rewrite Hr; cbn; lia|].
      apply filter_same. intros x Hin.
      destruct (has_id oid x) eqn:Hid.
      * unfold has_session. cbn. now rewrite String.eqb_refl.
      * cbn in Ht.
        destruct (has_session sid x) eqn:Hs; [|reflexivity].
        assert (Hex : existsb (fun r0 => has_session sid r0 && negb (has_id oid r0)) l = true).
        { apply existsb_exists. exists x. split; [exact Hin|]. now rewrite Hs, Hid. }
        congruence.
    + etransitivity; [|apply (Hu s)].
      apply filter_length_le. intros x.
      destruct (has_id oid x); [|auto].
      unfold has_session at 1. cbn. rewrite Es. discriminate.
  - etransitivity; [|apply (Hu s)].
    apply filter_length_le. intros x. now destruct (has_id oid x).
Qed.

Lemma exec_op_keeps_unique env X (op : Op X) w :
  unique_session env = true ->
  sessions_unique (orders w) ->
  sessions_unique (orders (snd (exec_op env op w))).
Proof.
  intros Hue Hu. destruct op; cbn.
  - rewrite Hue. cbn [andb].
    destruct (session_taken None (stripe_session_id d) (orders w)) eqn:Ht; cbn; [exact Hu|].
    now apply insert_keeps_unique.
  - destruct (items_insert_ok env l); exact Hu.
  - destruct (filter (has_id oid) (orders w)) as [|r [|r' l]] eqn:Hr; cbn; try exact Hu.
    rewrite Hue. cbn [andb].
    destruct (session_taken (Some oid) sid (orders w)) eqn:Ht; cbn; [exact Hu|].
    now apply (update_keeps_unique _ _ _ _ r).
  - exact Hu.
  - exact Hu.
  - destruct (gateway env sid); exact Hu.
  - destruct (email_ok env o); exact Hu.
Qed.

Lemma run_schedule_keeps_unique env R schedule (pool : list (Prog R)) w :
  unique_session env = true ->
  sessions_unique (orders w) ->
  sessions_unique (orders (snd (run_schedule env schedule pool w))).
Proof.
  intros Hue. revert pool w.
  induction schedule as [|i rest IH]; intros pool w Hu; [exact Hu|].
  cbn. destruct (nth_error pool i) as [p|]; [|now apply IH].
  destruct p as [r|m|X op k]; cbn; try now apply IH.
  pose proof (exec_op_keeps_unique env X op w Hue Hu) as H.
  destruct (exec_op env op w) as [x w1]. cbn in H. now apply IH.
Qed.
Lemma store_ok_empty : store_ok empty_world.
Proof.
  constructor; cbn.
  - constructor.
  - intros r [].
  - intros it [].
  - intros sid. lia.
Qed.


(* ================================================================= *)
(** ** Further properties of the checkout routes *)

Lemma run_webhook_async_succeeded env session w :
  run env (webhook (Some (async_succeeded_event session))) w =
  match find_by_session (session_id session) w with
  | Some o =>
      match run env (supabaseService.updateOrderStatus (id (row o)) "processing"
                       (session_id session)) w with
      | (Data _, w') => (ok Received, w')
      | (Error m, w') => (failed 400 (ErrorBody ("Webhook Error: " ++ m)), w')
      end
  | None => (ok Received, w)
  end.
Proof.
  unfold webhook. rewrite run_try_catch. cbn -[async_payment_succeeded run].
  rewrite run_bind. unfold async_payment_succeeded. rewrite run_async.
  destruct (find_by_session _ w) as [o|]; [|reflexivity].
  destruct (run env _ w) as [[?|?] ?]; reflexivity.
Qed.

(** X1.  When [checkout.session.async_payment_succeeded] arrives, the order
    of the session gets the status processing whatever its status was
    (also shipped, delivered or cancelled) and nothing else in the store
    changes; when the session has no order nothing is written. *)
Theorem async_payment_succeeded_sets_processing env session w :
  NoDup (map id (orders w)) ->
  (List.length (filter (has_session (session_id session)) (orders w)) <= 1)%nat ->
  let sid := session_id session in
  let hook := webhook (Some (async_succeeded_event session)) in
  response env hook w = ok Received /\
  orders (world_after env hook w) = mark sid "processing" (orders w) /\
  items (world_after env hook w) = items w /\
  next_id (world_after env hook w) = next_id w /\
  trace (world_after env hook w) =
    trace w ++ map (fun r => OrderUpdated (id r) "processing")
                   (filter (has_session sid) (orders w)).
Proof.
  intros Hnd Hone sid hook. unfold response, world_after, hook.
  rewrite run_webhook_async_succeeded. unfold find_by_session. fold sid.
  destruct (at_most_one _ Hone) as [E|[r E]]; fold sid in E; rewrite E; cbn [single map_outcome].
  - rewrite (mark_absent _ _ _ E), app_nil_r. cbn. auto.
  - cbn [with_items row]. rewrite (run_update_found _ _ _ _ _ Hnd E). cbn. auto.
Qed.

(** A delivered order is set back to processing by the signal. *)
Lemma async_payment_succeeded_sets_processing_witness :
  let w := world_with_order "delivered" in
  let hook := webhook (Some (async_succeeded_event (paid_session "cs_1"))) in
  (NoDup (map id (orders w)) /\
   (List.length (filter (has_session "cs_1") (orders w)) <= 1)%nat) /\
  orders (world_after (calm_env true) hook w) = orders (world_with_order "processing").
Proof.
  intros w hook.
  assert (Hnd : NoDup (map id (orders w))).
  { cbn. constructor; [intros []|constructor]. }
  assert (Hone : (List.length (filter (has_session "cs_1") (orders w)) <= 1)%nat).
  { cbn. lia. }
  split; [split; assumption|].
  destruct (async_payment_succeeded_sets_processing (calm_env true) (paid_session "cs_1") w
              Hnd Hone) as (_ & Ho & _).
  exact Ho.
Defined.

(** X2.  An event of a type the webhook does not handle leaves the world
    as it is: it is acknowledged with 200 when it has a type, and refused with
    400 when the type is missing; a request without event is refused with 400
    as well. *)
Theorem unhandled_event_changes_nothing env event w :
  event_type event <> "checkout.session.completed" ->
  event_type event <> "checkout.session.async_payment_succeeded" ->
  event_type event <> "checkout.session.async_payment_failed" ->
  run env (webhook (Some event)) w =
    (if JS.truthy_str (event_type event) then ok Received
     else failed 400 (ErrorBody "Invalid webhook event"), w) /\
  run env (webhook None) w = (failed 400 (ErrorBody "Invalid webhook event"), w).
Proof.
  intros H1 H2 H3. split; [|reflexivity].
  apply String.eqb_neq in H1, H2, H3.
  unfold webhook. rewrite run_try_catch.
  destruct (JS.truthy_str (event_type event)); cbn [negb]; [|reflexivity].
  rewrite run_bind, H1, H2, H3. reflexivity.
Qed.

Lemma unhandled_event_changes_nothing_witness :
  let event := {| event_type := "payment_intent.succeeded";
                  event_object := paid_session "cs_1" |} in
  (event_type event <> "checkout.session.completed" /\
   event_type event <> "checkout.session.async_payment_succeeded" /\
   event_type event <> "checkout.session.async_payment_failed") /\
  run (calm_env true) (webhook (Some event)) empty_world = (ok Received, empty_world).
Proof.
  intros event.
  assert (H1 : event_type event <> "checkout.session.completed") by discriminate.
  assert (H2 : event_type event <> "checkout.session.async_payment_succeeded") by discriminate.
  assert (H3 : event_type event <> "checkout.session.async_payment_failed") by discriminate.
  split; [auto|].
  exact (proj1 (unhandled_event_changes_nothing (calm_env true) event empty_world H1 H2 H3)).
Defined.

(** X3.  A paid session that carries no metadata and has no order yet: the
    webhook acknowledges the event and does nothing at all, so no order will
    come from it; the client route answers 400 "Missing order data in
    session" after reading the session, and writes nothing. *)
Theorem missing_metadata_creates_nothing env session w :
  payment_status session = "paid" ->
  metadata session = None ->
  JS.truthy_str (session_id session) = true ->
  gateway env (session_id session) = Some session ->
  filter (has_session (session_id session)) (orders w) = [] ->
  let sid := session_id session in
  run env (webhook (Some (completed_event session))) w = (ok Received, w) /\
  run env (createOrderFromSession (Some sid)) w =
    (failed 400 (ErrorBody "Missing order data in session"), log (SessionRetrieved sid) w).
Proof.
  intros Hp Hm Hs Hg Hf sid. unfold sid. clear sid. split.
  - rewrite run_webhook_completed, run_completed, Hp. cbn [String.eqb Ascii.eqb Bool.eqb].
    unfold find_by_session. rewrite Hf. cbn [single].
    unfold completed_with. rewrite Hm. reflexivity.
  - rewrite (run_client _ _ _ Hs). unfold find_by_session. rewrite Hf. cbn [single].
    rewrite run_client_new, Hg. cbv zeta. rewrite Hp, Hm. reflexivity.
Qed.

Lemma missing_metadata_creates_nothing_witness :
  let session := bare_session "cs_7" in
  (payment_status session = "paid" /\
   metadata session = None /\
   JS.truthy_str (session_id session) = true /\
   gateway bare_env (session_id session) = Some session /\
   filter (has_session (session_id session)) (orders empty_world) = []) /\
  run bare_env (webhook (Some (completed_event session))) empty_world
    = (ok Received, empty_world).
Proof.
  intros session. split; [repeat split|].
  exact (proj1 (missing_metadata_creates_nothing bare_env session empty_world
                  eq_refl eq_refl eq_refl eq_refl eq_refl)).
Defined.

(** X4.  The client route without a usable session id answers 400 "Session
    ID is required" and touches nothing; when the session has no order and
    the payment processor cannot be read, it answers 500 with the message of
    the processor and touches nothing either. *)
Theorem client_route_rejections env sid w :
  JS.truthy_str sid = true ->
  filter (has_session sid) (orders w) = [] ->
  gateway env sid = None ->
  run env (createOrderFromSession None) w =
    (failed 400 (ErrorBody "Session ID is required"), w) /\
  run env (createOrderFromSession (Some "")) w =
    (failed 400 (ErrorBody "Session ID is required"), w) /\
  run env (createOrderFromSession (Some sid)) w =
    (failed 500 (ErrorBody "No such checkout.session"), w).
Proof.
  intros Hs Hf Hg. split; [reflexivity|]. split; [reflexivity|].
  rewrite (run_client _ _ _ Hs). unfold find_by_session. rewrite Hf. cbn [single].
  rewrite run_client_new, Hg. reflexivity.
Qed.

Lemma client_route_rejections_witness :
  (JS.truthy_str "cs_404" = true /\
   filter (has_session "cs_404") (orders empty_world) = [] /\
   gateway offline_env "cs_404" = None) /\
  run offline_env (createOrderFromSession (Some "cs_404")) empty_world =
    (failed 500 (ErrorBody "No such checkout.session"), empty_world).
Proof.
  split; [repeat split|].
  exact (proj2 (proj2 (client_route_rejections offline_env "cs_404" empty_world
                         eq_refl eq_refl eq_refl))).
Defined.

(** X5.  The two handlers always answer.  Once the JSON body parser has
    handed the request over, with a body that is an event of the expected
    shape or no event at all, nothing thrown on the way escapes the handler:
    the webhook handler answers with 200 or 400 only, the handler of the
    client route with 200, 400 or 500 only.  (A body the parser refuses never
    reaches the handlers; it is answered by the error middleware of the
    server, which this statement is not about.) *)
Theorem routes_always_answer env reqBody sessionId w :
  answered_with [200; 400]%nat (response env (webhook reqBody) w) /\
  answered_with [200; 400; 500]%nat (response env (createOrderFromSession sessionId) w).
Proof.
  unfold answered_with, response. split.
  - unfold webhook. rewrite run_try_catch.
    destruct reqBody as [event|]; [|eexists; split; [reflexivity|cbn; auto]].
    destruct (negb (JS.truthy_str (event_type event)));
      [eexists; split; [reflexivity|cbn; auto]|].
    rewrite run_bind.
    destruct (run env _ w) as [[u|m] w']; eexists; (split; [reflexivity|cbn; auto]).
  - unfold createOrderFromSession. rewrite run_try_catch.
    destruct (JS.or_null sessionId) as [sid|]; [|eexists; split; [reflexivity|cbn; auto]].
    rewrite run_bind, run_getOrderBySessionId.
    destruct (find_by_session sid w) as [o|]; [eexists; split; [reflexivity|cbn; auto]|].
    rewrite run_client_new.
    destruct (gateway env sid) as [session|]; [|eexists; split; [reflexivity|cbn; auto]].
    cbv zeta.
    destruct (negb _); [eexists; split; [reflexivity|cbn; auto]|].
    destruct (metadata session) as [m|]; [|eexists; split; [reflexivity|cbn; auto]].
    destruct (unique_session env && _); eexists; (split; [reflexivity|cbn; auto]).
Qed.

(** *** Reading back what was created *)

Lemma filter_items_new (old rows : list OrderItemData) oid :
  (forall it, In it old -> (order_id it < oid)%nat) ->
  (forall it, In it rows -> order_id it = oid) ->
  filter (fun it => Nat.eqb (order_id it) oid) (old ++ rows) = rows.
Proof.
  intros Hold Hnew. rewrite filter_app.
  rewrite (filter_none _ old), (filter_all _ rows); [reflexivity| |].
  - intros it Hin. apply Nat.eqb_eq. now apply Hnew.
  - intros it Hin. apply Nat.eqb_neq. apply Hold in Hin. lia.
Qed.

Lemma filter_session_new sid (l : list OrderRow) r :
  filter (has_session sid) l = [] -> has_session sid r = true ->
  filter (has_session sid) (l ++ [r]) = [r].
Proof.
  intros E Hr. rewrite filter_app, E. cbn. now rewrite Hr.
Qed.

Lemma filter_id_new (l : list OrderRow) r :
  (forall x, In x l -> (id x < id r)%nat) ->
  filter (has_id (id r)) (l ++ [r]) = [r].
Proof.
  intros Hid. rewrite filter_app, (filter_none _ l).
  - cbn. unfold has_id. now rewrite Nat.eqb_refl.
  - intros x Hin. unfold has_id. apply Nat.eqb_neq. apply Hid in Hin. lia.
Qed.

Lemma items_after_items_written env m oid w :
  items (after_items env m oid w) = items w ++ written_rows env m oid.
Proof.
  unfold after_items, written_rows. destruct (item_rows m oid) as [l|].
  - destruct (items_insert_ok env l); cbn; [reflexivity|now rewrite app_nil_r].
  - now rewrite app_nil_r.
Qed.

Lemma written_rows_order_id env m oid it :
  In it (written_rows env m oid) -> order_id it = oid.
Proof.
  unfold written_rows. destruct (item_rows m oid) as [l|] eqn:E; [|intros []].
  destruct (items_insert_ok env l); [|intros []].
  now apply (item_rows_order_id m oid l).
Qed.

(** X6.  Insert then lookup.  After either route has created the order of
    a session on a well-formed store, the lookup by session id finds exactly
    that order, with the item rows that were written attached; and when the
    item step succeeded, the order in the answer of the client route is that
    same object. *)
Theorem created_order_is_found env session m w :
  store_ok w ->
  payment_status session = "paid" ->
  metadata session = Some m ->
  JS.truthy_str (session_id session) = true ->
  gateway env (session_id session) = Some session ->
  session_orders (session_id session) w = [] ->
  let sid := session_id session in
  let d := orderData_of m session sid in
  let stored := {| row := new_row d w;
                   order_items := Some (written_rows env m (next_id w)) |} in
  let hook := webhook (Some (completed_event session)) in
  let call := createOrderFromSession (Some sid) in
  find_by_session sid (world_after env hook w) = Some stored /\
  find_by_session sid (world_after env call w) = Some stored /\
  response env call w =
    ok (OrderBody (if items_written env m (next_id w) then stored else bare (new_row d w))
          "Order created successfully").
Proof.
  intros [Hnd Hid Hit Hone] Hp Hm Hs Hg Hf sid d stored hook call.
  subst hook call stored d. unfold sid in *. clear sid.
  unfold response, world_after, session_orders in *.
  rewrite (webhook_creates _ _ _ _ Hp Hm Hf).
  rewrite (client_creates _ _ _ _ _ Hs Hg Hp Hm Hf).
  cbn [fst snd].
  set (d := orderData_of m session (session_id session)).
  assert (Hnew : has_session (session_id session) (new_row d w) = true).
  { unfold has_session. cbn. apply String.eqb_refl. }
  assert (Hrows : forall w', items w' = items w ++ written_rows env m (next_id w) ->
            items_of (next_id w) w' = written_rows env m (next_id w)).
  { intros w' E. unfold items_of. rewrite E. apply filter_items_new; [exact Hit|].
    intros it. apply written_rows_order_id. }
  split; [|split].
  - unfold find_by_session. rewrite orders_materialized_webhook.
    fold d. rewrite (filter_session_new _ _ _ Hf Hnew). cbn [single map_outcome].
    unfold with_items. cbn [new_row id]. rewrite Hrows; [reflexivity|].
    rewrite items_materialized_webhook. apply items_after_items_written.
  - unfold find_by_session. rewrite orders_materialized_client.
    fold d. rewrite (filter_session_new _ _ _ Hf Hnew). cbn [single map_outcome].
    unfold with_items. cbn [new_row id]. rewrite Hrows; [reflexivity|].
    rewrite items_materialized_client. apply items_after_items_written.
  - f_equal. f_equal. unfold client_order, order_after_items. fold d.
    cbn [bare row id new_row log next_id].
    destruct (items_written env m (next_id w)); [|reflexivity].
    unfold find_by_id. rewrite orders_after_items. cbn [inserted orders log].
    assert (Hfid : filter (has_id (next_id w)) (orders w ++ [new_row d w]) = [new_row d w])
      by (apply (filter_id_new (orders w) (new_row d w)); exact Hid).
    change (new_row d (log (SessionRetrieved (session_id session)) w))
      with (new_row d w).
    rewrite Hfid. cbn [single map_outcome].
    unfold with_items. cbn [new_row id]. f_equal. f_equal.
    apply Hrows. rewrite items_after_items_written. reflexivity.
Qed.

Lemma created_order_is_found_witness :
  let session := paid_session "cs_1" in
  let d := orderData_of sample_metadata session "cs_1" in
  let stored := {| row := new_row d empty_world; order_items := Some [the_item] |} in
  (store_ok empty_world /\
   payment_status session = "paid" /\
   metadata session = Some sample_metadata /\
   JS.truthy_str (session_id session) = true /\
   gateway (calm_env true) (session_id session) = Some session /\
   session_orders (session_id session) empty_world = []) /\
  find_by_session "cs_1"
    (world_after (calm_env true) (createOrderFromSession (Some "cs_1")) empty_world)
    = Some stored /\
  response (calm_env true) (createOrderFromSession (Some "cs_1")) empty_world
    = ok (OrderBody stored "Order created successfully").
Proof.
  intros session d stored.
  split; [split; [exact store_ok_empty|repeat split]|].
  destruct (created_order_is_found (calm_env true) session sample_metadata empty_world
              store_ok_empty eq_refl eq_refl eq_refl eq_refl eq_refl) as (_ & Hf & Hr).
  exact (conj Hf Hr).
Defined.

(** *** Orders are kept, and only their status changes *)

Lemma same_but_status_refl r : same_but_status r r.
Proof. exists (status (data r)). symmetry. now apply set_status_same. Qed.

Lemma same_but_status_trans r1 r2 r3 :
  same_but_status r1 r2 -> same_but_status r2 r3 -> same_but_status r1 r3.
Proof. intros [st1 ->] [st2 ->]. now exists st2. Qed.

Lemma Forall2_same_refl l : Forall2 same_but_status l l.
Proof. induction l; constructor; [apply same_but_status_refl|assumption]. Qed.

Lemma Forall2_same_trans l1 l2 l3 :
  Forall2 same_but_status l1 l2 -> Forall2 same_but_status l2 l3 ->
  Forall2 same_but_status l1 l3.
Proof.
  intros H12. revert l3. induction H12 as [|a b l1 l2 Hab H12 IH]; intros l3 H23.
  - inversion H23. constructor.
  - inversion H23 as [|b' c l2' l3' Hbc H23']; subst. constructor.
    + now apply (same_but_status_trans a b c).
    + now apply IH.
Qed.

Lemma Forall2_same_mark sid st l : Forall2 same_but_status l (mark sid st l).
Proof.
  induction l as [|x l IH]; cbn; constructor; [|exact IH].
  destruct (has_session sid x); [now exists st|apply same_but_status_refl].
Qed.

Lemma transition_keeps_orders env t w w' :
  transition env t w w' ->
  exists kept extra more,
    orders w' = kept ++ extra /\ Forall2 same_but_status (orders w) kept /\
    items w' = items w ++ more.
Proof.
  intros [Hsame | st r E Ho Hi Hn | m d rows Hm E Hd Ho Hn Hi Hrows].
  - injection Hsame as Eo Ei En. exists (orders w), [], [].
    rewrite Eo, Ei, !app_nil_r. split; [reflexivity|]. split; [apply Forall2_same_refl|reflexivity].
  - exists (mark (trigger_session t) st (orders w)), [], [].
    rewrite Ho, Hi, !app_nil_r. split; [reflexivity|].
    split; [apply Forall2_same_mark|reflexivity].
  - exists (orders w), [new_row d w], rows.
    rewrite Ho, Hi. split; [reflexivity|]. split; [apply Forall2_same_refl|reflexivity].
Qed.

(** X7.  Whatever invocations are served one after the other on a
    well-formed store, every order that was there is still there, in the same
    place, and differs from what it was in its status at most: identifier,
    amounts, currency, shipping record, discount, session id and payment
    method are never rewritten, and no order and no item is ever removed. *)
Theorem orders_are_kept env ts w :
  store_ok w ->
  exists kept extra more,
    orders (after_all env ts w) = kept ++ extra /\
    Forall2 same_but_status (orders w) kept /\
    items (after_all env ts w) = items w ++ more.
Proof.
  revert w. induction ts as [|t ts IH]; intros w Hok.
  - exists (orders w), [], []. cbn. rewrite !app_nil_r.
    split; [reflexivity|]. split; [apply Forall2_same_refl|reflexivity].
  - cbn [after_all fold_left]. fold (after_all env ts (after env t w)).
    assert (Htr : transition env t w (after env t w)).
    { apply materialize_transition;
        [apply (ids_distinct _ Hok)|apply (one_per_session _ Hok)]. }
    destruct (transition_keeps_orders _ _ _ _ Htr) as (k1 & e1 & m1 & Ho1 & Hk1 & Hi1).
    destruct (IH (after env t w) (after_store_ok env t w Hok))
      as (k2 & e2 & m2 & Ho2 & Hk2 & Hi2).
    rewrite Ho1 in Hk2. apply Forall2_app_inv_l in Hk2.
    destruct Hk2 as (k2a & k2b & Hka & Hkb & ->).
    exists k2a, (k2b ++ e2), (m1 ++ m2).
    split; [now rewrite Ho2, app_assoc|].
    split; [now apply (Forall2_same_trans _ k1)|].
    now rewrite Hi2, Hi1, app_assoc.
Qed.

Lemma filter_one_le {A} (f : A -> bool) x :
  (List.length (filter f [x]) <= 1)%nat.
Proof. cbn. destruct (f x); cbn; lia. Qed.

Lemma store_ok_with_order st : store_ok (world_with_order st).
Proof.
  constructor.
  - cbn. constructor; [intros []|constructor].
  - cbn. intros r [<-|[]]. cbn. lia.
  - cbn. intros it [<-|[]]. cbn. lia.
  - intros sid. apply filter_one_le.
Qed.

(** A shipped order, then a repeated event and a callback for it. *)
Lemma orders_are_kept_witness :
  let ts := [ WebhookEvent (completed_event (paid_session "cs_1"));
              ClientCallback "cs_1" ] in
  store_ok (world_with_order "shipped") /\
  exists kept extra more,
    orders (after_all (calm_env true) ts (world_with_order "shipped")) = kept ++ extra /\
    Forall2 same_but_status (orders (world_with_order "shipped")) kept /\
    items (after_all (calm_env true) ts (world_with_order "shipped"))
      = items (world_with_order "shipped") ++ more.
Proof.
  intros ts. split; [apply store_ok_with_order|].
  exact (orders_are_kept (calm_env true) ts (world_with_order "shipped")
           (store_ok_with_order "shipped")).
Defined.

(** *** Once a session has two orders *)

Lemma single_many {A} (l : list A) :
  (2 <= List.length l)%nat -> exists m, single l = Error m.
Proof.
  destruct l as [|a [|b l]]; cbn; intros H; try lia. eexists. reflexivity.
Qed.

(** X8.  On a store without the uniqueness constraint in which a session
    already has two orders or more, the lookup by session id comes back empty,
    so every further paid completion signal, on either route, adds one more
    order for that session. *)
Theorem duplicates_multiply env session m w :
  unique_session env = false ->
  payment_status session = "paid" ->
  metadata session = Some m ->
  JS.truthy_str (session_id session) = true ->
  gateway env (session_id session) = Some session ->
  (2 <= List.length (session_orders (session_id session) w))%nat ->
  let sid := session_id session in
  let d := orderData_of m session sid in
  let hook := webhook (Some (completed_event session)) in
  let call := createOrderFromSession (Some sid) in
  find_by_session sid w = None /\
  orders (world_after env hook w) = orders w ++ [new_row d w] /\
  orders (world_after env call w) = orders w ++ [new_row d w] /\
  List.length (session_orders sid (world_after env hook w)) =
    S (List.length (session_orders sid w)).
Proof.
  intros Hu Hp Hm Hs Hg Htwo sid d hook call.
  subst hook call d. unfold sid in *. clear sid.
  assert (Hnone : find_by_session (session_id session) w = None).
  { unfold find_by_session. destruct (single_many _ Htwo) as [e He].
    unfold session_orders in He. now rewrite He. }
  assert (Hw : run env (webhook (Some (completed_event session))) w =
               (ok Received, materialized_webhook env m session w)).
  { rewrite run_webhook_completed, run_completed, Hp. cbn [String.eqb Ascii.eqb Bool.eqb].
    rewrite Hnone, (run_completed_create _ _ _ _ Hm). cbv zeta. rewrite Hu. reflexivity. }
  assert (Hc : run env (createOrderFromSession (Some (session_id session))) w =
               (ok (OrderBody (client_order env m session (session_id session) w)
                      "Order created successfully"),
                materialized_client env m session (session_id session) w)).
  { rewrite (run_client _ _ _ Hs), Hnone, run_client_new, Hg. cbv zeta.
    rewrite Hp, Hm, Hu. reflexivity. }
  unfold world_after. rewrite Hw, Hc. cbn [snd].
  rewrite orders_materialized_webhook, orders_materialized_client.
  split; [exact Hnone|]. split; [reflexivity|]. split; [reflexivity|].
  unfold session_orders. rewrite orders_materialized_webhook, filter_app, length_app.
  cbn [filter]. unfold has_session at 2. cbn [new_row data orderData_of stripe_session_id].
  rewrite String.eqb_refl. cbn. lia.
Qed.

Lemma duplicates_multiply_witness :
  let session := paid_session "cs_1" in
  let hook := webhook (Some (completed_event session)) in
  (unique_session (calm_env false) = false /\
   payment_status session = "paid" /\
   metadata session = Some sample_metadata /\
   JS.truthy_str (session_id session) = true /\
   gateway (calm_env false) (session_id session) = Some session /\
   (2 <= List.length (session_orders (session_id session) doubled_world))%nat) /\
  List.length (session_orders "cs_1" (world_after (calm_env false) hook doubled_world))
    = 3%nat.
Proof.
  intros session hook.
  assert (Htwo : (2 <= List.length (session_orders (session_id session) doubled_world))%nat).
  { cbn. lia. }
  split; [repeat split; exact Htwo|].
  destruct (duplicates_multiply (calm_env false) session sample_metadata doubled_world
              eq_refl eq_refl eq_refl eq_refl eq_refl Htwo) as (_ & _ & _ & H).
  exact H.
Defined.

(* ================================================================= *)
(** ** The route that sends the confirmation again *)

Lemma run_deliver env sessionId (found : option Order) w :
  run env
    (match found with
     | None => confirmationMail.reply 404 (confirmationMail.ReplyError "Order not found")
     | Some order =>
         let customerEmail := email (shipping (data (row order))) in
         if negb (JS.truthy_str customerEmail)
         then confirmationMail.reply 400
                (confirmationMail.ReplyError "Customer email not found in order")
         else
           bind (emailService.sendPurchaseConfirmationEmail order
                   (confirmationMail.mail_session sessionId order))
             (fun _ => confirmationMail.reply 200
                (confirmationMail.ReplySuccess
                   ("Confirmation email sent to " ++ customerEmail)))
     end) w =
  match deliver env sessionId found w with
  | (Data r, w') =>
      if Nat.eqb (confirmationMail.reply_code r) 500
      then (Error ("Failed to send confirmation email: Resend API error: "
                   ++ "mail provider rejected the message"), w')
      else (Data r, w')
  | (Error m, w') => (Error m, w')
  end.
Proof.
  unfold deliver. destruct found as [o|]; [|reflexivity]. cbv zeta.
  destruct (JS.truthy_str (email (shipping (data (row o))))) eqn:E; cbn [negb]; [|reflexivity].
  rewrite run_bind. unfold emailService.sendPurchaseConfirmationEmail.
  rewrite run_try_catch, E. cbn [negb]. rewrite run_bind. cbn.
  unfold after_email. rewrite E.
  destruct (email_ok env o); reflexivity.
Qed.

Lemma deliver_store env sessionId found w :
  store_of (snd (deliver env sessionId found w)) = store_of w.
Proof.
  unfold deliver. destruct found as [o|]; [|reflexivity]. cbv zeta.
  destruct (JS.truthy_str _); [|reflexivity]. cbn [snd]. apply store_after_email.
Qed.

Lemma deliver_codes env sessionId found w :
  exists r, fst (deliver env sessionId found w) = Data r /\
            In (confirmationMail.reply_code r) [200; 400; 404; 500]%nat.
Proof.
  unfold deliver. destruct found as [o|]; [|eexists; split; [reflexivity|cbn; auto]].
  cbv zeta. destruct (JS.truthy_str _); [|eexists; split; [reflexivity|cbn; auto]].
  destruct (email_ok env o); eexists; (split; [reflexivity|cbn; auto]).
Qed.

(** The whole route: what it answers and the world it leaves. *)
Lemma run_sendConfirmationEmail env sessionId orderId w :
  run env (confirmationMail.sendConfirmationEmail sessionId orderId) w =
  match JS.or_null sessionId with
  | Some sid =>
      match gateway env sid with
      | None =>
          (Data {| confirmationMail.reply_code := 500;
                   confirmationMail.reply_body :=
                     confirmationMail.ReplyError "No such checkout.session" |}, w)
      | Some session =>
          if negb (String.eqb (payment_status session) "paid")
          then (Data {| confirmationMail.reply_code := 400;
                        confirmationMail.reply_body :=
                          confirmationMail.ReplyError "Payment not completed yet" |},
                log (SessionRetrieved sid) w)
          else deliver env sessionId (find_by_session sid w) (log (SessionRetrieved sid) w)
      end
  | None =>
      match orderId with
      | Some oid => deliver env sessionId (find_by_id oid w) w
      | None =>
          (Data {| confirmationMail.reply_code := 400;
                   confirmationMail.reply_body :=
                     confirmationMail.ReplyError "Either sessionId or orderId is required" |}, w)
      end
  end.
Proof.
  unfold confirmationMail.sendConfirmationEmail. rewrite run_try_catch.
  assert (Hd : forall found w1,
    match
      (let (o, w') := run env
         (match found with
          | None => confirmationMail.reply 404 (confirmationMail.ReplyError "Order not found")
          | Some order =>
              let customerEmail := email (shipping (data (row order))) in
              if negb (JS.truthy_str customerEmail)
              then confirmationMail.reply 400
                     (confirmationMail.ReplyError "Customer email not found in order")
              else
                bind (emailService.sendPurchaseConfirmationEmail order
                        (confirmationMail.mail_session sessionId order))
                  (fun _ => confirmationMail.reply 200
                     (confirmationMail.ReplySuccess
                        ("Confirmation email sent to " ++ customerEmail)))
          end) w1 in
       match o with
       | Data a => (Data a, w')
       | Error m =>
           run env (confirmationMail.reply 500
                      (confirmationMail.ReplyError
                         (JS.or_str (Some m) "Failed to send confirmation email"))) w'
       end)
    with (o, w') => (o, w') end = deliver env sessionId found w1).
  { intros found w1. rewrite run_deliver. unfold deliver.
    destruct found as [o|]; [|reflexivity]. cbv zeta.
    destruct (JS.truthy_str _); [|reflexivity].
    destruct (email_ok env o); reflexivity. }
  destruct (JS.or_null sessionId) as [sid|] eqn:Es.
  - assert (Ht : JS.truthy_opt sessionId = true).
    { destruct sessionId as [s|]; cbn in *; [|discriminate].
      destruct (JS.truthy_str s); [reflexivity|discriminate]. }
    rewrite Ht. cbn [negb andb].
    rewrite run_bind. unfold confirmationMail.locate_order. rewrite Es.
    rewrite run_bind, run_retrieveCheckoutSession.
    destruct (gateway env sid) as [session|]; [|reflexivity].
    destruct (negb (String.eqb (payment_status session) "paid")); [reflexivity|].
    rewrite run_bind, run_getOrderBySessionId.
    change (find_by_session sid (log (SessionRetrieved sid) w)) with (find_by_session sid w).
    cbv beta iota. cbn [run]. cbv beta iota.
    rewrite <- (Hd (find_by_session sid w) (log (SessionRetrieved sid) w)).
    destruct (run env _ _) as [[?|?] ?]; reflexivity.
  - assert (Ht : JS.truthy_opt sessionId = false).
    { destruct sessionId as [s|]; cbn in *; [|reflexivity].
      destruct (JS.truthy_str s); [discriminate|reflexivity]. }
    rewrite Ht. cbn [negb andb].
    destruct orderId as [oid|]; cbn [negb]; [|reflexivity].
    rewrite run_bind. unfold confirmationMail.locate_order. rewrite Es.
    rewrite run_bind, run_getOrderById. cbv beta iota. cbn [run]. cbv beta iota.
    rewrite <- (Hd (find_by_id oid w) w).
    destruct (run env _ _) as [[?|?] ?]; reflexivity.
Qed.

(** X9.  The confirmation-mail route is read-only: whatever the request
    and whatever fails, orders, items and identifiers of the store are left as
    they were; and it always answers, with 200, 400, 404 or 500. *)
Theorem confirmation_route_reads_only env sessionId orderId w :
  store_of (snd (run env (confirmationMail.sendConfirmationEmail sessionId orderId) w))
    = store_of w /\
  exists r,
    fst (run env (confirmationMail.sendConfirmationEmail sessionId orderId) w) = Data r /\
    In (confirmationMail.reply_code r) [200; 400; 404; 500]%nat.
Proof.
  rewrite run_sendConfirmationEmail.
  destruct (JS.or_null sessionId) as [sid|].
  - destruct (gateway env sid) as [session|];
      [|split; [reflexivity|eexists; split; [reflexivity|cbn; auto]]].
    destruct (negb _); [split; [reflexivity|eexists; split; [reflexivity|cbn; auto]]|].
    split; [now rewrite deliver_store|apply deliver_codes].
  - destruct orderId as [oid|];
      [|split; [reflexivity|eexists; split; [reflexivity|cbn; auto]]].
    split; [apply deliver_store|apply deliver_codes].
Qed.



(** X11.  Asked with an order id only, the confirmation-mail route never
    reads the payment session: an order that exists and has an address gets
    its mail, with its items attached and under its stored session id (the
    empty string when it has none), whatever the payment status is. *)
Theorem confirmation_by_order_id_skips_payment env sessionId oid r w :
  JS.or_null sessionId = None ->
  filter (has_id oid) (orders w) = [r] ->
  JS.truthy_str (email (shipping (data r))) = true ->
  email_ok env (with_items w r) = true ->
  run env (confirmationMail.sendConfirmationEmail sessionId (Some oid)) w =
    (Data {| confirmationMail.reply_code := 200;
             confirmationMail.reply_body :=
               confirmationMail.ReplySuccess
                 ("Confirmation email sent to " ++ email (shipping (data r))) |},
     log (EmailSent (with_items w r) (JS.or_str (stripe_session_id (data r)) "")) w).
Proof.
  intros Es Hr He Hok.
  rewrite run_sendConfirmationEmail, Es. unfold find_by_id. rewrite Hr.
  cbn [single map_outcome]. unfold deliver, after_email, confirmationMail.mail_session.
  cbv zeta. change (row (with_items w r)) with r. rewrite He, Hok.
  destruct sessionId as [s|]; cbn in Es |- *.
  - destruct (JS.truthy_str s); [discriminate|reflexivity].
  - reflexivity.
Qed.

Lemma confirmation_by_order_id_skips_payment_witness :
  let r := match orders manual_world with x :: _ => x | [] => the_row "pending" end in
  (JS.or_null None = None /\
   filter (has_id 0%nat) (orders manual_world) = [r] /\
   JS.truthy_str (email (shipping (data r))) = true /\
   email_ok unpaid_env (with_items manual_world r) = true) /\
  run unpaid_env (confirmationMail.sendConfirmationEmail None (Some 0%nat)) manual_world =
    (Data {| confirmationMail.reply_code := 200;
             confirmationMail.reply_body :=
               confirmationMail.ReplySuccess "Confirmation email sent to ada@example.com" |},
     log (EmailSent (with_items manual_world r) "") manual_world).
Proof.
  intros r. split; [repeat split|].
  exact (confirmation_by_order_id_skips_payment unpaid_env None 0%nat r manual_world
           eq_refl eq_refl eq_refl eq_refl).
Defined.

(* ================================================================= *)
(** ** Numbers through text *)

Lemma parse_digits_stop rest acc :
  JSText.stops_number rest = true -> JS.parse_digits 10 rest acc = acc.
Proof.
  destruct rest as [|c rest]; [reflexivity|]. cbn [JSText.stops_number JS.parse_digits].
  destruct (JS.digit_val 10 c); [discriminate|reflexivity].
Qed.

Lemma parse_digits_uint d rest acc :
  JS.parse_digits 10 (DecimalString.NilEmpty.string_of_uint d ++ rest) (Some (Z.pos acc)) =
  JS.parse_digits 10 rest (Some (Z.pos (Pos.of_uint_acc d acc))).
Proof.
  revert acc. induction d; intros acc; cbn [DecimalString.NilEmpty.string_of_uint append];
    [reflexivity|..];
    cbn [JS.parse_digits];
    match goal with
    | |- context [JS.digit_val 10 ?c] =>
        let v := eval vm_compute in (JS.digit_val 10 c) in
        change (JS.digit_val 10 c) with v
    end;
    cbv beta iota; cbn [Pos.of_uint_acc]; rewrite <- IHd; f_equal; f_equal; lia.
Qed.

Lemma parse_digits_uint_zero d rest :
  JS.parse_digits 10 (DecimalString.NilEmpty.string_of_uint d ++ rest) (Some 0) =
  JS.parse_digits 10 rest (Some (Z.of_N (Pos.of_uint d))).
Proof.
  induction d; cbn [DecimalString.NilEmpty.string_of_uint append Pos.of_uint];
    [reflexivity|..];
    cbn [JS.parse_digits];
    match goal with
    | |- context [JS.digit_val 10 ?c] =>
        let v := eval vm_compute in (JS.digit_val 10 c) in
        change (JS.digit_val 10 c) with v
    end;
    cbv beta iota; [exact IHd|..];
    cbn [Z.of_N]; rewrite <- parse_digits_uint; reflexivity.
Qed.

Lemma unsigned_text p rest :
  JSText.stops_number rest = true ->
  let s := (DecimalString.NilZero.string_of_uint (Pos.to_uint p) ++ rest)%string in
  JS.trim_start s = s /\ JS.strip_sign s = (1, s) /\
  JS.strip_hex_prefix s = (10, s) /\
  JS.parse_digits 10 s None = Some (Z.pos p).
Proof.
  intros Hstop. pose proof (DecimalPos.Unsigned.of_to p) as Hp.
  assert (Hv : forall n, Z.of_N n = Z.pos p <-> n = N.pos p) by (intros n; lia).
  destruct (Pos.to_uint p) as [|l|l|l|l|l|l|l|l|l|l]; cbn [Pos.of_uint] in Hp;
    try discriminate Hp;
    cbn [DecimalString.NilZero.string_of_uint DecimalString.NilEmpty.string_of_uint append].
  1: { (* a leading zero cannot be the whole number *)
    assert (Hparse : JS.parse_digits 10
              (String "0" (DecimalString.NilEmpty.string_of_uint l ++ rest)) None
              = Some (Z.pos p)).
    { cbn [JS.parse_digits]. change (JS.digit_val 10 "0") with (Some 0). cbv beta iota.
      change (10 * 0 + 0) with 0.
      now rewrite parse_digits_uint_zero, (parse_digits_stop _ _ Hstop), Hp. }
    destruct l as [|l|l|l|l|l|l|l|l|l|l]; cbn [Pos.of_uint] in Hp; try discriminate Hp;
      cbn [DecimalString.NilEmpty.string_of_uint append] in Hparse |- *;
      (repeat split; try reflexivity); exact Hparse. }
  all: repeat split; try reflexivity; cbn [JS.parse_digits];
    match goal with
    | |- context [JS.digit_val 10 ?c] =>
        let v := eval vm_compute in (JS.digit_val 10 c) in
        change (JS.digit_val 10 c) with v
    end;
    cbv beta iota;
    match goal with
    | |- context [Some (10 * 0 + ?k)] => change (10 * 0 + k) with k
    end;
    rewrite parse_digits_uint, (parse_digits_stop _ _ Hstop); now injection Hp as <-.
Qed.

Lemma zero_is_no_hex_prefix rest :
  JSText.stops_number rest = true ->
  JS.strip_hex_prefix (String "0" rest) = (10, String "0" rest).
Proof.
  destruct rest as [|c r]; [reflexivity|].
  destruct c as [[] [] [] [] [] [] [] []]; cbn; intros H;
    first [reflexivity | discriminate H].
Qed.

Lemma parseInt_leading_integer z rest :
  JSText.stops_number rest = true ->
  JS.parseInt (JSText.decimal z ++ rest) = Some z.
Proof.
  intros Hstop. unfold JS.parseInt, JSText.decimal.
  destruct z as [|p|p]; cbn [Z.to_int DecimalString.NilZero.string_of_int].
  - cbn [DecimalString.NilZero.string_of_uint DecimalString.NilEmpty.string_of_uint append].
    change (JS.trim_start (String "0" rest)) with (String "0" rest).
    change (JS.strip_sign (String "0" rest)) with (1, String "0" rest).
    cbv beta iota. rewrite (zero_is_no_hex_prefix _ Hstop).
    cbn [JS.parse_digits]. change (JS.digit_val 10 "0") with (Some 0). cbv beta iota.
    now rewrite (parse_digits_stop _ _ Hstop).
  - pose proof (unsigned_text p rest Hstop) as H. cbv zeta in H.
    destruct H as (Ht & Hs & Hh & Hd).
    rewrite Ht, Hs. cbv beta iota. rewrite Hh. cbv beta iota. rewrite Hd. f_equal.
  - pose proof (unsigned_text p rest Hstop) as H. cbv zeta in H.
    destruct H as (Ht & Hs & Hh & Hd).
    cbn [append].
    match goal with
    | |- context [JS.trim_start (String "-" ?s)] =>
        change (JS.trim_start (String "-" s)) with (String "-" s)
    end.
    cbn [JS.strip_sign]. rewrite Hh. cbv beta iota. rewrite Hd. reflexivity.
Qed.

(** X12.  [parseInt] reads exactly the integer a text begins with, as long
    as that integer is one a JavaScript number holds exactly (magnitude at
    most 2^53): on the decimal text of such an integer it gives that integer
    back, and when the text goes on with anything that is not a digit (a
    decimal point and a fraction, a unit, letters) the rest is ignored, so
    that a fractional amount is cut to its integer part, towards zero. *)
Theorem parseInt_reads_leading_integer z rest :
  Z.abs z <= 2 ^ 53 ->
  JSText.stops_number rest = true ->
  JS.parseInt (JSText.decimal z) = Some z /\
  JS.parseInt (JSText.decimal z ++ rest) = Some z /\
  JS.parseInt (JSText.decimal z ++ String "." rest) = Some z.
Proof.
  intros _ Hstop. split; [|split].
  - rewrite <- (parseInt_leading_integer z "" eq_refl).
    f_equal. clear. induction (JSText.decimal z) as [|c s IH]; cbn; [reflexivity|].
    now rewrite <- IH.
  - now apply parseInt_leading_integer.
  - now apply parseInt_leading_integer.
Qed.

Lemma parseInt_reads_leading_integer_witness :
  (Z.abs (-1849) <= 2 ^ 53 /\ JSText.stops_number " kr" = true) /\
  JS.parseInt "-1849" = Some (-1849) /\
  JS.parseInt "-1849 kr" = Some (-1849) /\
  JS.parseInt "-1849. kr" = Some (-1849).
Proof.
  assert (Hb : Z.abs (-1849) <= 2 ^ 53) by (vm_compute; discriminate).
  split; [split; [exact Hb|reflexivity]|].
  exact (parseInt_reads_leading_integer (-1849) " kr" Hb eq_refl).
Defined.

(* ================================================================= *)
(** ** From the request to the session, and back into the order *)

Lemma decimal_not_empty z rest : JS.truthy_str (JSText.decimal z ++ rest) = true.
Proof.
  unfold JSText.decimal. destruct z as [|p|p]; cbn; try reflexivity.
  pose proof (DecimalPos.Unsigned.of_to p) as Hp.
  destruct (Pos.to_uint p); cbn in Hp |- *; first [discriminate Hp | reflexivity].
Qed.

Lemma or_str_keeps s : JS.or_str (Some s) "" = s.
Proof. destruct s; reflexivity. Qed.


(** X14.  What the customer entered at checkout is what the order gets.
    The session metadata written by [createCheckoutSession] and read back by
    the order routes gives the order the shipping record of the request (an
    absent phone becomes the empty string), its currency (SEK if it was
    empty), its discount code (none if absent or empty), and its total when
    the total prints as an integer; a total that prints with a fraction is cut
    to its integer part, and an absent discount amount becomes 0. *)
Theorem checkout_data_survives_metadata {num : Type} {N : Pricing.JSNumber num}
    (toString : num -> string)
    (data : stripeCheckout.CreateCheckoutSessionRequest num)
    (items : option ItemsJson) (sid st : string) :
  let session := stripeCheckout.session_of toString data items sid st in
  let m := stripeCheckout.session_metadata toString data items in
  let d := orderData_of m session sid in
  let info := stripeCheckout.shippingInfo data in
  shipping d =
    {| fullName := stripeCheckout.in_fullName info;
       email := stripeCheckout.in_email info;
       phone := JS.or_str (stripeCheckout.in_phone info) "";
       address := stripeCheckout.in_address info;
       city := stripeCheckout.in_city info;
       postalCode := stripeCheckout.in_postalCode info;
       country := stripeCheckout.in_country info |} /\
  currency d = JS.or_str (Some (stripeCheckout.req_currency data)) "SEK" /\
  discount_code d = JS.or_null (stripeCheckout.discountCode data) /\
  (forall z rest,
     JSText.stops_number rest = true ->
     toString (stripeCheckout.total data) = (JSText.decimal z ++ rest)%string ->
     total_amount d = Some z) /\
  (stripeCheckout.discountAmount data = None -> discount_amount d = Some 0).
Proof.
  cbv zeta. unfold orderData_of, shippingInfo_of.
  cbn -[JS.or_str JS.or_opt JS.or_null JS.parseInt].
  split; [|split; [|split; [|split]]].
  - rewrite !or_str_keeps. f_equal.
    destruct (stripeCheckout.in_email (stripeCheckout.shippingInfo data)); reflexivity.
  - reflexivity.
  - destruct (stripeCheckout.discountCode data) as [[|c s]|]; reflexivity.
  - intros z rest Hstop E. rewrite E.
    pose proof (decimal_not_empty z rest) as Ht.
    unfold JS.or_str. rewrite Ht. now apply parseInt_leading_integer.
  - intros ->. reflexivity.
Qed.

(* ================================================================= *)
(** ** The origins the server accepts *)

Lemma existsb_eqb_In (o : string) l : existsb (String.eqb o) l = true <-> In o l.
Proof.
  rewrite existsb_exists. split.
  - intros (x & Hin & E). apply String.eqb_eq in E. now subst.
  - intros Hin. exists o. split; [exact Hin|apply String.eqb_refl].
Qed.

Lemma prefix_append (p s : string) : String.prefix p (p ++ s) = true.
Proof.
  induction p as [|c p IH]; cbn; [now destruct s|].
  destruct (ascii_dec c c) as [_|Hne]; [exact IH|now destruct Hne].
Qed.

(** X15.  The CORS policy.  A request without origin is always accepted.
    The three production domains are accepted under every configuration.
    When NODE_ENV is production an origin is accepted exactly when it is in
    the list of allowed origins; and when FRONTEND_URL is not set that list
    still holds the four localhost development origins, which are therefore
    accepted in production too.  When NODE_ENV is anything else, or unset,
    every origin that begins with http://localhost: is accepted. *)
Theorem cors_policy env :
  server.origin_allowed env None = true /\
  (forall o,
     In o ["https://dashboard-one-delta-12.vercel.app"; "https://arvsouq.com";
           "https://www.arvsouq.com"]%string ->
     server.origin_allowed env (Some o) = true) /\
  (server.is_production env = true ->
   forall o, JS.truthy_str o = true ->
     (server.origin_allowed env (Some o) = true <-> In o (server.allowedOrigins env))) /\
  (JS.or_null (server.FRONTEND_URL env) = None ->
   forall o,
     In o ["http://localhost:5173"; "http://localhost:8081"; "http://localhost:3000";
           "http://localhost:8080"]%string ->
     server.origin_allowed env (Some o) = true) /\
  (server.is_production env = false ->
   forall rest, server.origin_allowed env (Some ("http://localhost:" ++ rest)%string) = true).
Proof.
  split; [reflexivity|].
  assert (Hlisted : forall o, JS.truthy_str o = true -> In o (server.allowedOrigins env) ->
                              server.origin_allowed env (Some o) = true).
  { intros o Ht Hin. unfold server.origin_allowed. cbn [JS.or_null]. rewrite Ht.
    destruct (negb _ && _); [reflexivity|]. now apply existsb_eqb_In. }
  split; [|split; [|split]].
  - intros o Hin. apply Hlisted.
    + destruct Hin as [<-|[<-|[<-|[]]]]; reflexivity.
    + unfold server.allowedOrigins. apply in_or_app. right. apply in_or_app. now right.
  - intros Hprod o Ht. unfold server.origin_allowed. cbn [JS.or_null].
    rewrite Ht, Hprod. cbn [negb andb]. apply existsb_eqb_In.
  - intros Hunset o Hin. apply Hlisted.
    + destruct Hin as [<-|[<-|[<-|[<-|[]]]]]; reflexivity.
    + unfold server.allowedOrigins, server.frontendUrls. rewrite Hunset.
      apply in_or_app. right. apply in_or_app. now left.
  - intros Hdev rest.
    assert (Ht : JS.truthy_str ("http://localhost:" ++ rest) = true) by reflexivity.
    unfold server.origin_allowed. cbn [JS.or_null].
    rewrite Ht, Hdev, (prefix_append "http://localhost:" rest). reflexivity.
Qed.

(* ================================================================= *)
(** ** FRONTEND_URL *)

Lemma split_on_nonempty sep s : server.split_on sep s <> [].
Proof.
  destruct s as [|c s]; cbn; [discriminate|].
  destruct (Ascii.eqb c sep); [discriminate|].
  destruct (server.split_on sep s); discriminate.
Qed.

Lemma split_comma_free s : comma_free s = true -> server.split_on "," s = [s].
Proof.
  induction s as [|c s IH]; cbn; [reflexivity|].
  intros H. apply andb_true_iff in H. destruct H as [Hc Hs].
  apply negb_true_iff in Hc. rewrite Hc, (IH Hs). reflexivity.
Qed.

Lemma split_comma_app a b :
  comma_free a = true ->
  server.split_on "," (a ++ String "," b) = a :: server.split_on "," b.
Proof.
  induction a as [|c a IH]; cbn [append server.split_on comma_free].
  - intros _. reflexivity.
  - intros H. apply andb_true_iff in H. destruct H as [Hc Ha].
    apply negb_true_iff in Hc. rewrite Hc, (IH Ha). reflexivity.
Qed.

(** X16.  FRONTEND_URL is a list: when it holds two origins separated by a
    comma, each of them, freed from the blanks around it, is accepted, in
    production as well. *)
Theorem frontend_url_is_a_list env a b :
  server.FRONTEND_URL env = Some (a ++ String "," b)%string ->
  comma_free a = true ->
  comma_free b = true ->
  server.frontendUrls env = [server.trim a; server.trim b] /\
  server.origin_allowed env (Some (server.trim a)) = true /\
  server.origin_allowed env (Some (server.trim b)) = true.
Proof.
  intros Hf Ha Hb.
  assert (Hurls : server.frontendUrls env = [server.trim a; server.trim b]).
  { unfold server.frontendUrls. rewrite Hf.
    assert (Ht : JS.truthy_str (a ++ String "," b) = true) by (destruct a; reflexivity).
    cbn [JS.or_null]. rewrite Ht.
    now rewrite (split_comma_app a b Ha), (split_comma_free b Hb). }
  assert (Hin : forall o, In o [server.trim a; server.trim b] ->
                          server.origin_allowed env (Some o) = true).
  { intros o Hin. unfold server.origin_allowed. cbn [JS.or_null].
    destruct (JS.truthy_str o); [|reflexivity].
    destruct (negb _ && _); [reflexivity|].
    apply existsb_eqb_In. unfold server.allowedOrigins. rewrite Hurls.
    apply in_or_app. right. apply in_or_app. now left. }
  split; [exact Hurls|]. split; apply Hin; cbn; auto.
Qed.

Lemma frontend_url_is_a_list_witness :
  let env := {| server.NODE_ENV := Some "production";
                server.FRONTEND_URL := Some "https://a.example , https://b.example";
                server.DASHBOARD_URL := None |} in
  (server.FRONTEND_URL env = Some ("https://a.example " ++ String "," " https://b.example")%string /\
   comma_free "https://a.example " = true /\
   comma_free " https://b.example" = true) /\
  server.frontendUrls env = ["https://a.example"; "https://b.example"]%string /\
  server.origin_allowed env (Some "https://b.example") = true.
Proof.
  intros env. split; [repeat split|].
  destruct (frontend_url_is_a_list env "https://a.example " " https://b.example"
              eq_refl eq_refl eq_refl) as (Hu & _ & Hb).
  exact (conj Hu Hb).
Defined.

(* ================================================================= *)
(** ** Users and products *)

Lemma arun_bind env A B (p : admin.AdminProg A) (f : A -> admin.AdminProg B) w :
  admin.arun env (admin.abind p f) w =
  match admin.arun env p w with
  | (Data a, w') => admin.arun env (f a) w'
  | (Error m, w') => (Error m, w')
  end.
Proof.
  revert w. induction p as [a|m|X op k IH]; intros w; cbn; try reflexivity.
  destruct (admin.exec_admin env op w) as [x w']. apply IH.
Qed.

Lemma arun_catch env A (p : admin.AdminProg A) (h : string -> admin.AdminProg A) w :
  admin.arun env (admin.acatch p h) w =
  match admin.arun env p w with
  | (Data a, w') => (Data a, w')
  | (Error m, w') => admin.arun env (h m) w'
  end.
Proof.
  revert w. induction p as [a|m|X op k IH]; intros w; cbn; try reflexivity.
  destruct (admin.exec_admin env op w) as [x w']. apply IH.
Qed.

Lemma filter_keep_all {A} (f : A -> bool) l :
  (forall x, In x l -> f x = true) -> filter f l = l.
Proof. apply filter_all. Qed.

Lemma remove_new_user (w : admin.AdminWorld) email :
  admin.admin_ok w ->
  let u := {| admin.uid := admin.next_uid w; admin.auth_email := email |} in
  filter (fun x => negb (admin.is_user (admin.next_uid w) x)) (admin.auth_users w ++ [u])
    = admin.auth_users w /\
  filter (fun r => negb (admin.is_admin (admin.next_uid w) r)) (admin.admin_users w)
    = admin.admin_users w /\
  existsb (admin.is_user (admin.next_uid w)) (admin.auth_users w ++ [u]) = true /\
  existsb (admin.is_admin (admin.next_uid w)) (admin.admin_users w) = false.
Proof.
  intros [Hu Hr] u. repeat split.
  - rewrite filter_app, filter_all.
    + cbn. unfold admin.is_user. cbn. rewrite Nat.eqb_refl. cbn. apply app_nil_r.
    + intros x Hin. unfold admin.is_user. apply negb_true_iff, Nat.eqb_neq.
      apply Hu in Hin. lia.
  - apply filter_all. intros r Hin. unfold admin.is_admin. apply negb_true_iff, Nat.eqb_neq.
    apply Hr in Hin. lia.
  - rewrite existsb_app. cbn [existsb]. unfold admin.is_user at 2. cbn [admin.uid u].
    rewrite Nat.eqb_refl. cbn [orb]. now rewrite orb_true_r.
  - destruct (existsb _ _) eqn:E; [|reflexivity].
    apply existsb_exists in E. destruct E as (r & Hin & E).
    unfold admin.is_admin in E. apply Nat.eqb_eq in E. apply Hr in Hin. lia.
Qed.

(** X17.  [createUser] is all or nothing as far as it can be.  When it
    returns, the new user is in the auth directory and in [admin_users], under
    one identifier and with the role asked for.  When it throws, [admin_users]
    is unchanged, and the auth directory is unchanged too, unless the insert
    into [admin_users] failed and the clean-up delete failed as well: only
    then an auth user without admin row is left behind. *)
Theorem createUser_all_or_nothing env email password newRole w :
  admin.admin_ok w ->
  let u := {| admin.uid := admin.next_uid w; admin.auth_email := email |} in
  let row := {| admin.admin_id := admin.next_uid w; admin.admin_email := email;
                admin.role := newRole |} in
  match admin.arun env (admin.createUser email password newRole) w with
  | (Data r, w') =>
      r = row /\
      admin.auth_users w' = admin.auth_users w ++ [u] /\
      admin.admin_users w' = admin.admin_users w ++ [row]
  | (Error m, w') =>
      admin.admin_users w' = admin.admin_users w /\
      (admin.auth_users w' = admin.auth_users w \/
       (admin.auth_delete_ok env (admin.next_uid w) = false /\
        admin.auth_users w' = admin.auth_users w ++ [u]))
  end.
Proof.
  intros Hok u row.
  destruct (remove_new_user w email Hok) as (Hfu & Hfa & Heu & Hea).
  cbv zeta in Hfu, Heu.
  unfold admin.createUser.
  cbn [admin.abind admin.acatch admin.call admin.arun admin.exec_admin].
  destruct (admin.auth_create env email) as [|m|]; [|cbn; auto|cbn; auto].
  cbn [admin.abind admin.acatch admin.call admin.arun admin.exec_admin
       admin.admin_id admin.uid admin.auth_email admin.admin_users admin.auth_users
       admin.next_uid admin.products].
  rewrite Hea. cbn [negb]. rewrite andb_true_r. fold row.
  destruct (admin.admin_insert_ok env row);
    cbn [admin.abind admin.acatch admin.call admin.arun admin.exec_admin
         admin.admin_id admin.uid admin.auth_email admin.admin_users admin.auth_users
         admin.next_uid admin.products]; [auto|].
  rewrite Heu, andb_true_r.
  destruct (admin.auth_delete_ok env (admin.next_uid w)) eqn:Hd;
    cbn [admin.abind admin.acatch admin.call admin.arun admin.exec_admin
         admin.admin_id admin.uid admin.auth_email admin.admin_users admin.auth_users
         admin.next_uid admin.products].
  - rewrite Hfa, Hfu. auto.
  - split; [reflexivity|]. right. auto.
Qed.

Lemma admin_ok_start : admin.admin_ok admin_start.
Proof.
  split.
  - intros u [<-|[]]. cbn. lia.
  - intros r [<-|[]]. cbn. lia.
Qed.

(** The insert into [admin_users] is refused and the clean-up works: the
    call throws and the directory is as before. *)
Lemma createUser_all_or_nothing_witness :
  let w' := snd (admin.arun (admin_env false true)
                   (admin.createUser "eve@example.com" "pw" "editor") admin_start) in
  admin.admin_ok admin_start /\
  admin.admin_users w' = admin.admin_users admin_start /\
  admin.auth_users w' = admin.auth_users admin_start.
Proof.
  intros w'. split; [exact admin_ok_start|].
  pose proof (createUser_all_or_nothing (admin_env false true) "eve@example.com" "pw"
                "editor" admin_start admin_ok_start) as H.
  cbv zeta in H.
  change (admin.arun (admin_env false true)
            (admin.createUser "eve@example.com" "pw" "editor") admin_start)
    with (@Error admin.AdminRow
            "Failed to add user to admin_users: insert into admin_users failed", w') in H.
  cbv beta iota in H. destruct H as [Ha [Hb|[Hc _]]]; [|discriminate Hc].
  exact (conj Ha Hb).
Defined.

Lemma invalid_role_text :
  admin.invalid_role = "Invalid role. Must be one of: super_admin, admin, editor, viewer".
Proof. reflexivity. Qed.

(** X18.  A role that is not one of super_admin, admin, editor, viewer
    (the comparison is exact, so a different letter case is refused too) is
    turned down with 400 before anything is called: neither the creation of a
    user nor the change of a role touches the directory, and the answer lists
    the four roles. *)
Theorem unknown_role_is_refused env email password userId newRole w :
  JS.truthy_str email = true ->
  JS.truthy_str password = true ->
  JS.truthy_str newRole = true ->
  ~ In newRole admin.validRoles ->
  let refusal :=
    {| admin.http := 400;
       admin.content :=
         admin.Failure "Invalid role. Must be one of: super_admin, admin, editor, viewer" |} in
  admin.arun env (admin.postUser (Some email) (Some password) (Some newRole)) w
    = (Data refusal, w) /\
  admin.arun env (admin.putUserRole (Some userId) (Some newRole)) w
    = (Data refusal, w).
Proof.
  intros He Hp Hr Hnot refusal.
  assert (Hex : existsb (String.eqb newRole) admin.validRoles = false).
  { destruct (existsb _ _) eqn:E; [|reflexivity].
    apply existsb_eqb_In in E. contradiction. }
  unfold admin.postUser, admin.putUserRole. cbn [JS.or_null].
  rewrite He, Hp, Hr, Hex. cbn [negb]. subst refusal. rewrite <- invalid_role_text.
  split; reflexivity.
Qed.

Lemma unknown_role_is_refused_witness :
  (JS.truthy_str "eve@example.com" = true /\
   JS.truthy_str "pw" = true /\
   JS.truthy_str "Admin" = true /\
   ~ In "Admin"%string admin.validRoles) /\
  admin.arun (admin_env true true) (admin.putUserRole (Some 0%nat) (Some "Admin")) admin_start
    = (Data {| admin.http := 400;
               admin.content :=
                 admin.Failure
                   "Invalid role. Must be one of: super_admin, admin, editor, viewer" |},
       admin_start).
Proof.
  assert (Hnot : ~ In "Admin"%string admin.validRoles).
  { intros [H|[H|[H|[H|[]]]]]; discriminate H. }
  split; [repeat split; exact Hnot|].
  exact (proj2 (unknown_role_is_refused (admin_env true true) "eve@example.com" "pw"
                  0%nat "Admin" admin_start eq_refl eq_refl eq_refl Hnot)).
Defined.

Lemma filter_remove_one (p : nat) l :
  NoDup l -> In p l ->
  filter (Nat.eqb p) l = [p] /\
  ~ In p (filter (fun x => negb (Nat.eqb p x)) l) /\
  filter (Nat.eqb p) (filter (fun x => negb (Nat.eqb p x)) l) = [].
Proof.
  intros Hnd Hin. split; [|split].
  - induction l as [|a l IH]; [destruct Hin|].
    inversion Hnd as [|? ? Hnot Hnd']; subst. cbn.
    destruct (Nat.eqb p a) eqn:E.
    + apply Nat.eqb_eq in E. subst a. f_equal.
      apply filter_none. intros x Hx. apply Nat.eqb_neq. intros ->. contradiction.
    + destruct Hin as [->|Hin]; [now rewrite Nat.eqb_refl in E|]. now apply IH.
  - intros H. apply filter_In in H. destruct H as [_ H].
    now rewrite Nat.eqb_refl in H.
  - apply filter_none. intros x Hx. apply filter_In in Hx. destruct Hx as [_ Hx].
    now apply negb_true_iff in Hx.
Qed.

(** X19.  Deleting a product works once.  On a table without repeated
    identifiers, the first request for an existing product answers 200 and
    removes that product and no other; the same request again answers 500
    "Failed to delete product", because no row comes back, and changes
    nothing. *)
Theorem product_deletion_works_once env productId w :
  NoDup (admin.products w) ->
  In productId (admin.products w) ->
  let first := admin.arun env (admin.deleteProductRoute (Some productId)) w in
  let second := admin.arun env (admin.deleteProductRoute (Some productId)) (snd first) in
  fst first = Data {| admin.http := 200;
                      admin.content := admin.Succeeded "Product deleted successfully" |} /\
  admin.products (snd first) =
    filter (fun x => negb (Nat.eqb productId x)) (admin.products w) /\
  ~ In productId (admin.products (snd first)) /\
  (forall q, q <> productId -> In q (admin.products w) -> In q (admin.products (snd first))) /\
  fst second = Data {| admin.http := 500;
                       admin.content :=
                         admin.FailureWith "Failed to delete product"
                           ("Failed to delete product: " ++ admin.no_rows) |} /\
  snd second = snd first.
Proof.
  intros Hnd Hin first second.
  destruct (filter_remove_one productId (admin.products w) Hnd Hin) as (H1 & H2 & H3).
  assert (Hfirst : first =
    (Data {| admin.http := 200;
             admin.content := admin.Succeeded "Product deleted successfully" |},
     {| admin.auth_users := admin.auth_users w; admin.admin_users := admin.admin_users w;
        admin.products := filter (fun x => negb (Nat.eqb productId x)) (admin.products w);
        admin.next_uid := admin.next_uid w |})).
  { unfold first, admin.deleteProductRoute, admin.deleteProduct.
    cbn [admin.abind admin.acatch admin.call admin.arun admin.exec_admin].
    rewrite H1. reflexivity. }
  subst second. rewrite Hfirst. cbn [fst snd admin.products].
  split; [reflexivity|]. split; [reflexivity|]. split; [exact H2|]. split.
  - intros q Hq Hinq. apply filter_In. split; [exact Hinq|].
    apply negb_true_iff, Nat.eqb_neq. auto.
  - unfold admin.deleteProductRoute, admin.deleteProduct.
    cbn [admin.abind admin.acatch admin.call admin.arun admin.exec_admin admin.products].
    rewrite H3. split; reflexivity.
Qed.

Lemma product_deletion_works_once_witness :
  let first := admin.arun (admin_env true true) (admin.deleteProductRoute (Some 7%nat))
                 admin_start in
  (NoDup (admin.products admin_start) /\ In 7%nat (admin.products admin_start)) /\
  admin.products (snd first) = [8%nat] /\
  fst (admin.arun (admin_env true true) (admin.deleteProductRoute (Some 7%nat)) (snd first))
    = Data {| admin.http := 500;
              admin.content :=
                admin.FailureWith "Failed to delete product"
                  ("Failed to delete product: " ++ admin.no_rows) |}.
Proof.
  intros first.
  assert (Hnd : NoDup (admin.products admin_start)).
  { cbn. repeat constructor; cbn; intuition discriminate. }
  assert (Hin : In 7%nat (admin.products admin_start)) by (cbn; auto).
  split; [split; assumption|].
  destruct (product_deletion_works_once (admin_env true true) 7%nat admin_start Hnd Hin)
    as (_ & Hp & _ & _ & Hs & _).
  exact (conj Hp Hs).
Defined.

(** X20.  Changing a role: for a user with exactly one row in
    [admin_users] and a valid role, the route answers 200 with the row under
    its new role, that row keeps its identifier and email, every other row and
    the auth directory stay as they were; for a user without row it answers
    500 "Failed to update user role" and changes nothing. *)
Theorem role_change_touches_one_row env userId newRole w :
  In newRole admin.validRoles ->
  (List.length (filter (admin.is_admin userId) (admin.admin_users w)) <= 1)%nat ->
  let res := admin.arun env (admin.putUserRole (Some userId) (Some newRole)) w in
  match filter (admin.is_admin userId) (admin.admin_users w) with
  | r :: _ =>
      fst res = Data {| admin.http := 200;
                        admin.content :=
                          admin.SucceededWith "User role updated successfully"
                            (admin.set_role newRole r) |} /\
      admin.admin_users (snd res) =
        map (fun x => if admin.is_admin userId x then admin.set_role newRole x else x)
            (admin.admin_users w) /\
      admin.auth_users (snd res) = admin.auth_users w
  | [] =>
      fst res = Data {| admin.http := 500;
                        admin.content :=
                          admin.FailureWith "Failed to update user role"
                            ("Failed to update user role: " ++ admin.no_rows) |} /\
      snd res = w
  end.
Proof.
  intros Hrole Hone res.
  assert (Ht : JS.truthy_str newRole = true).
  { destruct Hrole as [<-|[<-|[<-|[<-|[]]]]]; reflexivity. }
  assert (Hex : existsb (String.eqb newRole) admin.validRoles = true)
    by now apply existsb_eqb_In.
  subst res. unfold admin.putUserRole, admin.updateUserRole. cbn [JS.or_null].
  rewrite Ht, Hex.
  cbn [negb admin.abind admin.acatch admin.call admin.arun admin.exec_admin].
  destruct (filter (admin.is_admin userId) (admin.admin_users w)) as [|r [|r' l]];
    cbn in Hone |- *; try lia; auto.
Qed.

Lemma role_change_touches_one_row_witness :
  let res := admin.arun (admin_env true true) (admin.putUserRole (Some 0%nat) (Some "viewer"))
               admin_start in
  (In "viewer"%string admin.validRoles /\
   (List.length (filter (admin.is_admin 0%nat) (admin.admin_users admin_start)) <= 1)%nat) /\
  admin.admin_users (snd res) =
    [ {| admin.admin_id := 0%nat; admin.admin_email := "root@example.com";
         admin.role := "viewer" |} ].
Proof.
  intros res.
  assert (Hin : In "viewer"%string admin.validRoles) by (cbn; auto).
  assert (Hone : (List.length (filter (admin.is_admin 0%nat)
                                 (admin.admin_users admin_start)) <= 1)%nat) by (cbn; lia).
  split; [split; assumption|].
  pose proof (role_change_touches_one_row (admin_env true true) 0%nat "viewer" admin_start
                Hin Hone) as H.
  cbn in H. exact (proj1 (proj2 H)).
Defined.

Lemma remove_new_row (w : admin.AdminWorld) email newRole :
  admin.admin_ok w ->
  filter (fun r => negb (admin.is_admin (admin.next_uid w) r))
         (admin.admin_users w ++
            [ {| admin.admin_id := admin.next_uid w; admin.admin_email := email;
                 admin.role := newRole |} ])
    = admin.admin_users w.
Proof.
  intros [_ Hr]. rewrite filter_app, filter_all.
  - cbn. unfold admin.is_admin. cbn. rewrite Nat.eqb_refl. cbn. apply app_nil_r.
  - intros r Hin. unfold admin.is_admin. apply negb_true_iff, Nat.eqb_neq.
    apply Hr in Hin. lia.
Qed.

(** X21.  Creation followed by deletion is a round trip.  When
    [createUser] has returned a row and the auth API accepts the deletion of
    that user, DELETE /api/users/:userId with the row's identifier answers 200
    and leaves the auth directory, the [admin_users] table (through the
    cascade the source relies on) and the products exactly as they were before
    the user was created. *)
Theorem created_user_can_be_deleted env email password newRole w r w1 :
  admin.admin_ok w ->
  admin.auth_delete_ok env (admin.admin_id r) = true ->
  admin.arun env (admin.createUser email password newRole) w = (Data r, w1) ->
  let res := admin.arun env (admin.deleteUserRoute (Some (admin.admin_id r))) w1 in
  fst res = Data {| admin.http := 200;
                    admin.content := admin.Succeeded "User deleted successfully" |} /\
  admin.auth_users (snd res) = admin.auth_users w /\
  admin.admin_users (snd res) = admin.admin_users w /\
  admin.products (snd res) = admin.products w.
Proof.
  intros Hok Hdel Hrun res.
  destruct (remove_new_user w email Hok) as (Hfu & _ & Heu & Hea).
  pose proof (remove_new_row w email newRole Hok) as Hfr.
  cbv zeta in Hfu, Heu.
  unfold admin.createUser in Hrun.
  cbn [admin.abind admin.acatch admin.call admin.arun admin.exec_admin] in Hrun.
  destruct (admin.auth_create env email) as [|m|]; [|discriminate Hrun|discriminate Hrun].
  cbn [admin.abind admin.acatch admin.call admin.arun admin.exec_admin
       admin.admin_id admin.uid admin.auth_email admin.admin_users admin.auth_users
       admin.next_uid admin.products] in Hrun.
  rewrite Hea in Hrun. cbn [negb] in Hrun. rewrite andb_true_r in Hrun.
  destruct (admin.admin_insert_ok env _);
    cbn [admin.abind admin.acatch admin.call admin.arun admin.exec_admin
         admin.admin_id admin.uid admin.auth_email admin.admin_users admin.auth_users
         admin.next_uid admin.products] in Hrun.
  - injection Hrun as <- <-. subst res.
    cbn [admin.admin_id] in Hdel |- *.
    unfold admin.deleteUserRoute, admin.deleteUser.
    cbn [admin.abind admin.acatch admin.call admin.arun admin.exec_admin
         admin.admin_id admin.uid admin.auth_email admin.admin_users admin.auth_users
         admin.next_uid admin.products].
    rewrite Hdel, Heu. cbn [andb].
    cbn [admin.abind admin.acatch admin.call admin.arun admin.exec_admin
         admin.admin_id admin.uid admin.auth_email admin.admin_users admin.auth_users
         admin.next_uid admin.products fst snd].
    rewrite Hfu, Hfr. auto.
  - exfalso. revert Hrun.
    destruct (admin.auth_delete_ok env (admin.next_uid w) && _);
      cbn [admin.abind admin.acatch admin.call admin.arun admin.exec_admin];
      discriminate.
Qed.

Lemma created_user_can_be_deleted_witness :
  let made := admin.arun (admin_env true true)
                (admin.createUser "eve@example.com" "pw" "editor") admin_start in
  let res := admin.arun (admin_env true true) (admin.deleteUserRoute (Some 1%nat)) (snd made) in
  admin.admin_ok admin_start /\
  List.length (admin.admin_users (snd made)) = 2%nat /\
  admin.auth_users (snd res) = admin.auth_users admin_start /\
  admin.admin_users (snd res) = admin.admin_users admin_start.
Proof.
  intros made res. split; [exact admin_ok_start|]. split; [reflexivity|].
  destruct (created_user_can_be_deleted (admin_env true true) "eve@example.com" "pw" "editor"
              admin_start
              {| admin.admin_id := 1%nat; admin.admin_email := "eve@example.com";
                 admin.role := "editor" |}
              (snd made) admin_ok_start eq_refl eq_refl) as (_ & Ha & Hb & _).
  exact (conj Ha Hb).
Defined.

(* ================================================================= *)
(** ** One invocation at a time: the invocation that creates the order *)

Lemma after_creating env t m w :
  creating env t = Some m ->
  session_orders (trigger_session t) w = [] ->
  exists d,
    stripe_session_id d = Some (trigger_session t) /\
    orders (after env t w) = orders w ++ [new_row d w] /\
    items (after env t w) = items w ++ written_rows env m (next_id w) /\
    next_id (after env t w) = S (next_id w).
Proof.
  intros Hc E. unfold after.
  destruct t as [[ty session]|sid]; cbn [creating trigger_session materialize
                                         event_type event_object] in *.
  - destruct (String.eqb ty "checkout.session.completed") eqn:Ety; [|discriminate Hc].
    destruct (String.eqb (payment_status session) "paid") eqn:Hp; [|discriminate Hc].
    apply String.eqb_eq in Ety, Hp. subst ty.
    change {| event_type := "checkout.session.completed"; event_object := session |}
      with (completed_event session).
    rewrite (webhook_creates env session m w Hp Hc E). cbn [snd].
    exists (orderData_of m session (session_id session)).
    split; [reflexivity|]. split; [apply orders_materialized_webhook|]. split.
    + rewrite items_materialized_webhook. apply items_after_items_written.
    + unfold materialized_webhook. cbv zeta.
      now rewrite next_id_after_email, next_id_after_items.
  - destruct (JS.truthy_str sid) eqn:Hs; [|discriminate Hc].
    destruct (gateway env sid) as [session|] eqn:Hg; [|discriminate Hc].
    destruct (String.eqb (payment_status session) "paid") eqn:Hp; [|discriminate Hc].
    apply String.eqb_eq in Hp.
    rewrite (client_creates env session m sid w Hs Hg Hp Hc E). cbn [snd].
    exists (orderData_of m session sid).
    split; [reflexivity|]. split; [apply orders_materialized_client|]. split.
    + rewrite items_materialized_client. apply items_after_items_written.
    + unfold materialized_client. cbv zeta.
      now rewrite next_id_after_email, next_id_after_items.
Qed.

Lemma after_not_creating env t w :
  creating env t = None ->
  session_orders (trigger_session t) w = [] ->
  store_of (after env t w) = store_of w.
Proof.
  intros Hc E. unfold after.
  assert (F : find_by_session (trigger_session t) w = None).
  { unfold find_by_session. unfold session_orders in E. now rewrite E. }
  destruct t as [event|sid]; cbn [creating trigger_session materialize] in *.
  - rewrite webhook_world.
    destruct (negb (JS.truthy_str (event_type event))); [reflexivity|].
    destruct (String.eqb (event_type event) "checkout.session.completed").
    { rewrite run_completed.
      destruct (String.eqb (payment_status (event_object event)) "paid"); [|reflexivity].
      rewrite F. unfold completed_with. rewrite Hc. reflexivity. }
    destruct (String.eqb (event_type event) "checkout.session.async_payment_succeeded").
    { unfold async_payment_succeeded. rewrite run_async, F. reflexivity. }
    destruct (String.eqb (event_type event) "checkout.session.async_payment_failed").
    { unfold async_payment_failed. rewrite run_async, F. reflexivity. }
    reflexivity.
  - destruct (JS.truthy_str sid) eqn:Hs.
    2:{ unfold createOrderFromSession. cbn [JS.or_null]. rewrite Hs. reflexivity. }
    rewrite (run_client _ _ _ Hs), F, run_client_new.
    destruct (gateway env sid) as [session|]; [|reflexivity].
    cbv zeta.
    destruct (String.eqb (payment_status session) "paid"); cbn [negb]; [|reflexivity].
    rewrite Hc. reflexivity.
Qed.

Lemma session_ids_mark s sid st l :
  map id (filter (has_session s) (mark sid st l)) = map id (filter (has_session s) l).
Proof.
  induction l as [|x l IH]; [reflexivity|].
  cbn [mark map filter]. fold (mark sid st l). rewrite has_session_marked.
  destruct (has_session s x); cbn [map]; rewrite IH; [|reflexivity].
  f_equal. now destruct (has_session sid x).
Qed.

Lemma after_keeps_absent env t sid w :
  store_ok w ->
  session_orders sid w = [] ->
  (trigger_session t = sid -> creating env t = None) ->
  session_orders sid (after env t w) = [].
Proof.
  intros Hok E Hc.
  destruct (String.eqb (trigger_session t) sid) eqn:Es.
  - apply String.eqb_eq in Es.
    pose proof (after_not_creating env t w (Hc Es)) as H. rewrite Es in H.
    specialize (H E). injection H as Ho _ _. unfold session_orders. now rewrite Ho.
  - destruct (materialize_transition env w (ids_distinct _ Hok) (one_per_session _ Hok) t)
      as [Hsame | st r E' Ho Hi Hn | m d rows Hm E' Hd Ho Hn Hi Hrows].
    + injection Hsame as Ho _ _. unfold session_orders. now rewrite Ho.
    + unfold session_orders. rewrite Ho. apply length_zero_iff_nil.
      rewrite session_orders_mark_length. fold (session_orders sid w). now rewrite E.
    + unfold session_orders. rewrite Ho, filter_app. fold (session_orders sid w).
      rewrite E. cbn [filter app]. now rewrite (has_session_new_row _ _ _ _ Hd), Es.
Qed.

Lemma after_keeps_present env t sid oid w :
  store_ok w ->
  map id (session_orders sid w) = [oid] ->
  map id (session_orders sid (after env t w)) = [oid] /\
  session_items sid (after env t w) = session_items sid w.
Proof.
  intros Hok E.
  pose proof (materialize_transition env w (ids_distinct _ Hok) (one_per_session _ Hok) t)
    as Htr.
  split.
  - destruct Htr as [Hsame | st r E' Ho Hi Hn | m d rows Hm E' Hd Ho Hn Hi Hrows].
    + injection Hsame as Ho _ _. unfold session_orders in *. now rewrite Ho.
    + unfold session_orders in *. now rewrite Ho, session_ids_mark.
    + unfold session_orders in *. rewrite Ho, filter_app, map_app, E.
      cbn [filter]. rewrite (has_session_new_row _ _ _ _ Hd).
      destruct (String.eqb (trigger_session t) sid) eqn:Es; [|reflexivity].
      apply String.eqb_eq in Es. rewrite Es in E'. rewrite E' in E. discriminate E.
  - destruct (transition_session_items env t sid w _ Hok Htr) as [H|(_ & E' & _)];
      [exact H|].
    rewrite E' in E. discriminate E.
Qed.

Lemma created_session_state env t m w :
  store_ok w ->
  creating env t = Some m ->
  session_orders (trigger_session t) w = [] ->
  map id (session_orders (trigger_session t) (after env t w)) = [next_id w] /\
  session_items (trigger_session t) (after env t w) = written_rows env m (next_id w).
Proof.
  intros Hok Hc E. destruct (after_creating env t m w Hc E) as (d & Hd & Ho & Hi & Hn).
  assert (Hr : has_session (trigger_session t) (new_row d w) = true).
  { rewrite (has_session_new_row _ _ _ _ Hd). apply String.eqb_refl. }
  split.
  - unfold session_orders in *. now rewrite Ho, (filter_session_new _ _ _ E Hr).
  - unfold session_items. rewrite Ho, Hi, filter_app.
    rewrite (filter_none _ (items w)), (filter_all _ (written_rows env m (next_id w)));
      [reflexivity| |].
    + intros it Hin. rewrite item_of_session_app, Hr. cbn [new_row id andb].
      rewrite (written_rows_order_id _ _ _ _ Hin), Nat.eqb_refl. apply orb_true_r.
    + intros it Hin. rewrite item_of_session_app. cbn [new_row id].
      assert (Hne : Nat.eqb (next_id w) (order_id it) = false).
      { apply Nat.eqb_neq. apply (items_assigned _ Hok) in Hin. lia. }
      rewrite Hne, andb_false_r, orb_false_r.
      destruct (item_of_session (trigger_session t) (orders w) it) eqn:X; [|reflexivity].
      assert (Hs : In it (session_items (trigger_session t) w)).
      { unfold session_items. apply filter_In. auto. }
      rewrite (no_order_no_items _ _ E) in Hs. destruct Hs.
Qed.

Lemma after_all_keeps_absent env sid pre w :
  store_ok w ->
  session_orders sid w = [] ->
  (forall t', In t' pre -> trigger_session t' = sid -> creating env t' = None) ->
  session_orders sid (after_all env pre w) = [].
Proof.
  revert w. induction pre as [|t pre IH]; intros w Hok E Hc; [exact E|].
  cbn [after_all fold_left]. fold (after_all env pre (after env t w)).
  apply IH.
  - now apply after_store_ok.
  - apply after_keeps_absent; [exact Hok|exact E|]. apply Hc. now left.
  - intros t' Hin. apply Hc. now right.
Qed.

Lemma after_all_keeps_present env sid oid post w :
  store_ok w ->
  map id (session_orders sid w) = [oid] ->
  map id (session_orders sid (after_all env post w)) = [oid] /\
  session_items sid (after_all env post w) = session_items sid w.
Proof.
  revert w. induction post as [|t post IH]; intros w Hok E; [auto|].
  cbn [after_all fold_left]. fold (after_all env post (after env t w)).
  destruct (after_keeps_present env t sid oid w Hok E) as [E1 I1].
  destruct (IH (after env t w) (after_store_ok env t w Hok) E1) as [E2 I2].
  split; [exact E2|]. now rewrite I2.
Qed.

Lemma written_rows_length env m oid :
  List.length (written_rows env m oid) =
  if items_written env m oid then item_count m else 0%nat.
Proof.
  unfold written_rows, items_written.
  destruct (item_rows m oid) as [l|] eqn:E; [|reflexivity].
  destruct (items_insert_ok env l); [|reflexivity].
  exact (item_rows_length _ _ _ E).
Qed.

Lemma after_all_app env pre post w :
  after_all env (pre ++ post) w = after_all env post (after_all env pre w).
Proof. unfold after_all. apply fold_left_app. Qed.


